(** * Reverbia backend: the upload endpoints of [app/api/upload.py]

    A shallow embedding of the upload module of the Reverbia FastAPI backend
    and the properties of its chunked upload session manager
    ([start_chunked_upload], [upload_chunk], [complete_chunked_upload]).

    - [Py] models the part of the Python runtime the module relies on:
      integers ([Z]), strings, f-strings, exceptions, and the file-system
      calls ([os.path.exists], [os.makedirs], [aiofiles.open], [os.remove],
      [shutil.rmtree], [os.listdir]) as a state-and-exception monad over an
      explicit file-system state.
    - [Upload] transcribes the endpoint functions, statement by statement.
    - Then come the invariant of the upload tree, the states reachable by
      serving requests, and the properties.

    Assumptions of the model:
    - requests are served one at a time;
    - a path is the list of its components: the identifiers joined into
      paths (user ids, upload ids, generated file names) contain no path
      separator and are not [.] or [..];
    - [json.loads (json.dumps d) = d] for a session dictionary [d];
    - file-system calls fail only for the reasons the state gives (missing
      or mistyped paths), not for lack of permission or space;
    - [uuid.uuid4()] returns an upload id that names no current session. *)

From Stdlib Require Import ZArith Lia Ascii String DecimalString DecimalN DecimalZ.
From stdpp Require Import base gmap sets list strings sorting.

Open Scope Z_scope.

Set Warnings "-clear-no-such-hyp".

(* ===================================================================== *)
(** ** Data model *)
(* ===================================================================== *)

(** The dictionary [session_data] built by [start_chunked_upload] and kept,
    as JSON, in the session file.  Every use of it in the module reads or
    updates one of these ten fixed keys, so it is a record here. *)
Record session_data : Type := mk_session {
  sd_upload_id : string;
  sd_file_id : string;
  sd_user_id : string;
  sd_filename : string;
  sd_file_size : Z;
  sd_mime_type : string;
  sd_chunk_size : Z;
  sd_total_chunks : Z;
  sd_uploaded_chunks : list Z;
  sd_created_at : string
}.

(* ===================================================================== *)
(** ** The Python runtime used by the module *)
(* ===================================================================== *)

Module Py.

(** *** Strings *)

(** [str.lower()], on the ASCII letters. *)
Definition lower_ascii (c : ascii) : ascii :=
  let n := nat_of_ascii c in
  if ((65 <=? n) && (n <=? 90))%nat then ascii_of_nat (n + 32) else c.

Fixpoint str_lower (s : string) : string :=
  match s with
  | EmptyString => EmptyString
  | String c s' => String (lower_ascii c) (str_lower s')
  end.

(** [s.rfind(c)]: the index of the last occurrence of [c], or [-1]. *)
Fixpoint rfind_aux (c : ascii) (s : string) (i last : Z) : Z :=
  match s with
  | EmptyString => last
  | String a s' => rfind_aux c s' (i + 1) (if Ascii.eqb a c then i else last)
  end.

Definition rfind (c : ascii) (s : string) : Z := rfind_aux c s 0 (-1).

(** [s[i:j]] for [0 <= i]. *)
Definition slice (s : string) (i j : Z) : string :=
  substring (Z.to_nat i) (Z.to_nat (j - i)) s.

Definition slice_from (s : string) (i : Z) : string :=
  substring (Z.to_nat i) (String.length s - Z.to_nat i) s.

Fixpoint all_dots (s : string) : bool :=
  match s with
  | EmptyString => true
  | String a s' => Ascii.eqb a "." && all_dots s'
  end.

(** [os.path.splitext(p)] (posixpath): the extension starts at the last dot
    of the last path component, unless only dots precede it there. *)
Definition os_path_splitext (p : string) : string * string :=
  let sepIndex := rfind "/" p in
  let dotIndex := rfind "." p in
  if sepIndex <? dotIndex then
    if all_dots (slice p (sepIndex + 1) dotIndex) then (p, EmptyString)
    else (slice p 0 dotIndex, slice_from p dotIndex)
  else (p, EmptyString).

(** [s.startswith(prefix)]. *)
Definition str_startswith (s pre : string) : bool := String.prefix pre s.

(** [x or default] on strings: the empty string is falsy. *)
Definition str_or (s default : string) : string :=
  match s with EmptyString => default | _ => s end.

(** [s.zfill]-style left padding with zeros up to [width] characters. *)
Definition zero_pad (width : nat) (s : string) : string :=
  Nat.iter (width - String.length s) (String "0") s.

(** [str(n)] for [n >= 0]. *)
Definition str_of_N (n : N) : string :=
  NilZero.string_of_uint (N.to_uint n).

(** [str(n)]. *)
Definition str_of_Z (n : Z) : string :=
  NilZero.string_of_int (Z.to_int n).

(** The format spec [{n:04d}]: sign-aware zero padding to width 4. *)
Definition format_04d (n : Z) : string :=
  if n <? 0 then String "-" (zero_pad 3 (str_of_N (Z.abs_N n)))
  else zero_pad 4 (str_of_N (Z.abs_N n)).

(** *** Paths

    A relative path is the list of its components, so that
    [os.path.join(a, b, c)] is [[a; b; c]].  The components this module
    joins are fixed directory names, identifiers and generated file names. *)

Abbreviation path := (list string) (only parsing).

Definition os_path_join (ps : list string) : path := ps.

(** The non-empty prefixes of a path: the directories [os.makedirs]
    creates, outermost first. *)
Definition ancestors_and_self (p : path) : list path :=
  (λ n, take n p) <$> seq 1 (length p).

Definition parent (p : path) : path := take (length p - 1)%nat p.

(** *** Exceptions and f-strings

    The detail of an [HTTPException] is an f-string; it is kept as the list
    of its literal and interpolated pieces. *)

Inductive oserror : Type :=
  | FileNotFoundError
  | FileExistsError
  | NotADirectoryError
  | IsADirectoryError
  | PermissionError.

Inductive exn : Type :=
  | HTTPException (status_code : Z) (detail : list fpiece)
  | OSError (kind : oserror) (p : path)
  | ZeroDivisionError
  | JSONDecodeError
  | UnicodeDecodeError
with fpiece : Type :=
  | FLit (s : string)
  | FStr (s : string)
  | FStrOpt (s : option string)
  | FInt (n : Z)
  | FIntList (l : list Z)
  | FJoin (sep : string) (items : list string)
  | FExn (e : exn).

Definition HTTP_400_BAD_REQUEST : Z := 400.
Definition HTTP_403_FORBIDDEN : Z := 403.
Definition HTTP_404_NOT_FOUND : Z := 404.
Definition HTTP_413_REQUEST_ENTITY_TOO_LARGE : Z := 413.
Definition HTTP_500_INTERNAL_SERVER_ERROR : Z := 500.

(** *** The file system

    A file holds either the JSON text of a session dictionary (written with
    [json.dumps], read back with [json.loads]) or raw bytes.  Directories
    are tracked on their own: [shutil.rmtree] and [open] depend on them.
    The current directory is the empty path and always exists. *)

Inductive file_data : Type :=
  | Text (d : session_data)
  | Bytes (b : list Byte.byte).

Record FS : Type := mkFS {
  files : gmap path file_data;
  dirs : gset path
}.

Definition empty_fs : FS := mkFS ∅ ∅.

Definition is_file (fs : FS) (p : path) : bool :=
  bool_decide (is_Some (files fs !! p)).

Definition is_dir (fs : FS) (p : path) : bool :=
  bool_decide (p = []) || bool_decide (p ∈ dirs fs).

(** *** The state and exception monad

    A computation runs on a file system and either returns or raises; the
    file system it leaves behind is kept in both cases. *)

Inductive result (A : Type) : Type :=
  | Ok (a : A)
  | Raise (e : exn).
Arguments Ok {A} a.
Arguments Raise {A} e.

Definition M (A : Type) : Type := FS → result A * FS.

#[global] Instance M_ret : MRet M := λ A a fs, (Ok a, fs).

#[global] Instance M_bind : MBind M := λ A B f m fs,
  match m fs with
  | (Ok a, fs') => f a fs'
  | (Raise e, fs') => (Raise e, fs')
  end.

Definition raise {A : Type} (e : exn) : M A := λ fs, (Raise e, fs).

(** [try: body except Exception as e: handler e].  Every exception of
    [exn], [HTTPException] included, derives from [Exception]. *)
Definition try_except {A : Type} (body : M A) (handler : exn → M A) : M A :=
  λ fs,
    match body fs with
    | (Ok a, fs') => (Ok a, fs')
    | (Raise e, fs') => handler e fs'
    end.

Definition get_fs : M FS := λ fs, (Ok fs, fs).
Definition put_fs (fs' : FS) : M unit := λ _, (Ok tt, fs').

(** [if cond: body] for a body that only raises. *)
Definition when_ (cond : bool) (body : M unit) : M unit :=
  if cond then body else mret tt.

(** [a // b] on Python integers: floor division; raises on [b = 0]. *)
Definition floordiv (a b : Z) : M Z :=
  if b =? 0 then raise ZeroDivisionError else mret (a / b).

(** [for x in xs: acc = body x acc]. *)
Fixpoint for_fold {A S : Type} (xs : list A) (acc : S) (body : A → S → M S)
  : M S :=
  match xs with
  | [] => mret acc
  | x :: xs' => acc' ← body x acc; for_fold xs' acc' body
  end.

(** [for x in xs: body x]. *)
Fixpoint for_each {A : Type} (xs : list A) (body : A → M unit) : M unit :=
  match xs with
  | [] => mret tt
  | x :: xs' => body x ;; for_each xs' body
  end.

(** [os.path.exists]. *)
Definition os_path_exists (p : path) : M bool :=
  fs ← get_fs; mret (is_file fs p || is_dir fs p).

(** One [mkdir] step of [os.makedirs(target, exist_ok=True)]. *)
Definition mkdir_exist_ok (target q : path) : M unit :=
  fs ← get_fs;
  if is_dir fs q then mret tt
  else if is_file fs q then
    raise (OSError (if bool_decide (q = target) then FileExistsError
                    else NotADirectoryError) q)
  else put_fs (mkFS (files fs) ({[q]} ∪ dirs fs)).

(** [os.makedirs(p, exist_ok=True)]. *)
Definition os_makedirs (p : path) : M unit :=
  for_each (ancestors_and_self p) (mkdir_exist_ok p).

(** [open(p, 'w')] and [open(p, 'wb')]: create or truncate. *)
Definition open_w (p : path) : M unit :=
  fs ← get_fs;
  if is_dir fs p then raise (OSError IsADirectoryError p)
  else if is_file fs (parent p) then raise (OSError NotADirectoryError p)
  else if negb (is_dir fs (parent p)) then raise (OSError FileNotFoundError p)
  else put_fs (mkFS (<[p := Bytes []]> (files fs)) (dirs fs)).

(** [f.write(b)] on a file opened with ['wb'] at [p]: appends to what has
    been written since the file was opened. *)
Definition write_bytes (p : path) (b : list Byte.byte) : M unit :=
  fs ← get_fs;
  let old := match files fs !! p with Some (Bytes o) => o | _ => [] end in
  put_fs (mkFS (<[p := Bytes (old ++ b)]> (files fs)) (dirs fs)).

(** [f.write(json.dumps(d))] on a file just opened with ['w'] at [p]. *)
Definition write_json (p : path) (d : session_data) : M unit :=
  fs ← get_fs;
  put_fs (mkFS (<[p := Text d]> (files fs)) (dirs fs)).

(** [open(p, 'r')] or [open(p, 'rb')], and [f.read()]. *)
Definition read_file (p : path) : M file_data :=
  fs ← get_fs;
  match files fs !! p with
  | Some c => mret c
  | None =>
      raise (OSError (if is_dir fs p then IsADirectoryError
                      else FileNotFoundError) p)
  end.

(** [json.loads(open(p, 'r').read())].  [json.loads (json.dumps d) = d];
    bytes that were not written by [json.dumps] are not decoded. *)
Definition read_json (p : path) : M session_data :=
  c ← read_file p;
  match c with
  | Text d => mret d
  | Bytes _ => raise JSONDecodeError
  end.

(** [open(p, 'rb').read()].  The bytes of a JSON text are outside the
    model; no binary read of a session file occurs in the module. *)
Definition read_bytes (p : path) : M (list Byte.byte) :=
  c ← read_file p;
  match c with
  | Bytes b => mret b
  | Text _ => raise UnicodeDecodeError
  end.

(** [os.remove]. *)
Definition os_remove (p : path) : M unit :=
  fs ← get_fs;
  if is_file fs p then put_fs (mkFS (delete p (files fs)) (dirs fs))
  else raise (OSError (if is_dir fs p then IsADirectoryError
                       else FileNotFoundError) p).

(** [shutil.rmtree]: the directory must exist; it goes with everything
    below it. *)
Definition shutil_rmtree (d : path) : M unit :=
  fs ← get_fs;
  if bool_decide (d ∈ dirs fs) then
    put_fs (mkFS (filter (λ kv, ¬ d `prefix_of` kv.1) (files fs))
                 (filter (λ q, ¬ d `prefix_of` q) (dirs fs)))
  else raise (OSError (if is_file fs d then NotADirectoryError
                       else FileNotFoundError) d).

(** The name of [p] if it lies directly below [d]. *)
Definition child_name (d p : path) : option string :=
  if bool_decide (parent p = d) then last p else None.

(** [os.listdir]: the names directly below [d], in the order of the
    model's key enumeration (Python leaves the order unspecified). *)
Definition os_listdir (d : path) : M (list string) :=
  fs ← get_fs;
  if is_dir fs d then
    mret (omap (child_name d) (elements (dom (files fs) ∪ dirs fs)))
  else raise (OSError (if is_file fs d then NotADirectoryError
                       else FileNotFoundError) d).

(** [os.path.getsize]: the length of a file of raw bytes.  The size of a
    JSON text and of a directory entry are not modelled (the call is taken
    to fail there); neither occurs below [uploads/audio] in a reachable
    state. *)
Definition os_path_getsize (p : path) : M Z :=
  fs ← get_fs;
  match files fs !! p with
  | Some (Bytes b) => mret (Z.of_nat (length b))
  | Some (Text _) => raise UnicodeDecodeError
  | None =>
      raise (OSError (if is_dir fs p then IsADirectoryError
                      else FileNotFoundError) p)
  end.

End Py.

(* ===================================================================== *)
(** ** app/api/upload.py *)
(* ===================================================================== *)

Module Upload.
Import Py.

(** [class UploadResponse(BaseModel)]. *)
Record UploadResponse : Type := mk_UploadResponse {
  ur_file_id : string;
  ur_filename : string;
  ur_file_size : Z;
  ur_mime_type : string;
  ur_upload_url : option string;
  ur_message : string
}.

(** [class ChunkUploadResponse(BaseModel)]. *)
Record ChunkUploadResponse : Type := mk_ChunkUploadResponse {
  cr_chunk_id : string;
  cr_upload_id : string;
  cr_chunk_number : Z;
  cr_total_chunks : Z;
  cr_bytes_received : Z;
  cr_message : string
}.

(** The dictionary returned by [start_chunked_upload]. *)
Record StartResponse : Type := mk_StartResponse {
  st_upload_id : string;
  st_file_id : string;
  st_total_chunks : Z;
  st_chunk_size : Z;
  st_message : string
}.

(** What the module reads of a FastAPI [UploadFile]: three attributes and
    the bytes [await file.read()] returns. *)
Record UploadFile : Type := mk_UploadFile {
  uf_filename : option string;
  uf_content_type : option string;
  uf_size : option Z;
  uf_content : list Byte.byte
}.

Definition ALLOWED_AUDIO_TYPES : gset string :=
  {[ "audio/webm"; "audio/wav"; "audio/mp3"; "audio/mpeg"; "audio/ogg";
     "audio/m4a"; "audio/aac" ]}.

Definition MAX_FILE_SIZE : Z := 100 * 1024 * 1024.
Definition CHUNK_SIZE : Z := 5 * 1024 * 1024.

Definition valid_extensions : gset string :=
  {[ ".webm"; ".wav"; ".mp3"; ".ogg"; ".m4a"; ".aac" ]}.

(** [o or default] for an optional string: [None] and [""] are falsy. *)
Definition opt_str_or (o : option string) (default : string) : string :=
  match o with
  | Some s => str_or s default
  | None => default
  end.

Definition content_type_allowed (ct : option string) : bool :=
  match ct with
  | Some t => bool_decide (t ∈ ALLOWED_AUDIO_TYPES)
  | None => false
  end.

(** [validate_audio_file]. *)
Definition validate_audio_file (file : UploadFile) : M unit :=
  when_ (negb (content_type_allowed (uf_content_type file)))
    (raise (HTTPException HTTP_400_BAD_REQUEST
       [FLit "Unsupported file type: "; FStrOpt (uf_content_type file);
        FLit ". Allowed types: "; FJoin ", " (elements ALLOWED_AUDIO_TYPES)]));;
  match uf_filename file with
  | Some (String c rest as name) =>
      let ext := (os_path_splitext (str_lower name)).2 in
      when_ (bool_decide (ext ∉ valid_extensions))
        (raise (HTTPException HTTP_400_BAD_REQUEST
           [FLit "Invalid file extension: "; FStr ext;
            FLit ". Allowed extensions: ";
            FJoin ", " (elements valid_extensions)]))
  | _ => mret tt
  end.

(** [file.size and file.size > MAX_FILE_SIZE]: [None] and [0] are falsy. *)
Definition size_too_large (sz : option Z) : bool :=
  match sz with
  | Some n => negb (n =? 0) && (n >? MAX_FILE_SIZE)
  | None => false
  end.

(** [upload_audio_file].  [file_id] is the value of [uuid.uuid4()].  The
    background task [save_upload_metadata] only prints, after the response
    has been sent. *)
Definition upload_audio_file (file_id : string) (file : UploadFile)
    (current_user_id : string) : M UploadResponse :=
  validate_audio_file file;;
  when_ (size_too_large (uf_size file))
    (raise (HTTPException HTTP_413_REQUEST_ENTITY_TOO_LARGE
       [FLit "File too large. Maximum size: ";
        FInt (MAX_FILE_SIZE / (1024 * 1024)); FLit "MB"]));;
  try_except
    (let file_extension :=
       str_or (os_path_splitext (opt_str_or (uf_filename file) "")).2 ".webm" in
     let safe_filename := file_id +:+ file_extension in
     let upload_dir := os_path_join ["uploads"; "audio"; current_user_id] in
     os_makedirs upload_dir;;
     let file_path := upload_dir ++ [safe_filename] in
     open_w file_path;;
     let content := uf_content file in
     write_bytes file_path content;;
     let file_size := Z.of_nat (length content) in
     mret {| ur_file_id := file_id;
             ur_filename := opt_str_or (uf_filename file) safe_filename;
             ur_file_size := file_size;
             ur_mime_type := opt_str_or (uf_content_type file) "audio/webm";
             ur_upload_url := None;
             ur_message := "File uploaded successfully" |})
    (λ e, raise (HTTPException HTTP_500_INTERNAL_SERVER_ERROR
                   [FLit "Upload failed: "; FExn e])).

Definition session_file_of (upload_id : string) : path :=
  os_path_join ["uploads"; "sessions"; upload_id +:+ ".json"].

Definition chunks_dir_of (upload_id : string) : path :=
  os_path_join ["uploads"; "chunks"; upload_id].

Definition chunk_path_of (upload_id : string) (chunk_num : Z) : path :=
  chunks_dir_of upload_id ++ ["chunk_" +:+ format_04d chunk_num].

(** [start_chunked_upload].  [upload_id] and [file_id] are the values of
    the two [uuid.uuid4()] calls, [now] that of
    [datetime.utcnow().isoformat()]. *)
Definition start_chunked_upload (upload_id file_id now : string)
    (filename : string) (file_size : Z) (mime_type : string) (chunk_size : Z)
    (current_user_id : string) : M StartResponse :=
  when_ (bool_decide (mime_type ∉ ALLOWED_AUDIO_TYPES))
    (raise (HTTPException HTTP_400_BAD_REQUEST
       [FLit "Unsupported file type: "; FStr mime_type]));;
  when_ (file_size >? MAX_FILE_SIZE)
    (raise (HTTPException HTTP_413_REQUEST_ENTITY_TOO_LARGE
       [FLit "File too large. Maximum size: ";
        FInt (MAX_FILE_SIZE / (1024 * 1024)); FLit "MB"]));;
  total_chunks ← floordiv (file_size + chunk_size - 1) chunk_size;
  let session_data :=
    {| sd_upload_id := upload_id;
       sd_file_id := file_id;
       sd_user_id := current_user_id;
       sd_filename := filename;
       sd_file_size := file_size;
       sd_mime_type := mime_type;
       sd_chunk_size := chunk_size;
       sd_total_chunks := total_chunks;
       sd_uploaded_chunks := [];
       sd_created_at := now |} in
  let upload_sessions_dir := os_path_join ["uploads"; "sessions"] in
  os_makedirs upload_sessions_dir;;
  let session_file := upload_sessions_dir ++ [upload_id +:+ ".json"] in
  open_w session_file;;
  write_json session_file session_data;;
  mret {| st_upload_id := upload_id;
          st_file_id := file_id;
          st_total_chunks := total_chunks;
          st_chunk_size := chunk_size;
          st_message := "Chunked upload session started" |}.

(** [session_data["uploaded_chunks"].append(n)] followed by [.sort()]. *)
Definition append_and_sort (d : session_data) (n : Z) : session_data :=
  {| sd_upload_id := sd_upload_id d;
     sd_file_id := sd_file_id d;
     sd_user_id := sd_user_id d;
     sd_filename := sd_filename d;
     sd_file_size := sd_file_size d;
     sd_mime_type := sd_mime_type d;
     sd_chunk_size := sd_chunk_size d;
     sd_total_chunks := sd_total_chunks d;
     sd_uploaded_chunks := merge_sort Z.le (sd_uploaded_chunks d ++ [n]);
     sd_created_at := sd_created_at d |}.

(** [upload_chunk]. *)
Definition upload_chunk (upload_id : string) (chunk_number : Z)
    (chunk : UploadFile) (current_user_id : string) : M ChunkUploadResponse :=
  try_except
    (let session_file := session_file_of upload_id in
     found ← os_path_exists session_file;
     when_ (negb found)
       (raise (HTTPException HTTP_404_NOT_FOUND
                 [FLit "Upload session not found"]));;
     session_data ← read_json session_file;
     when_ (bool_decide (sd_user_id session_data ≠ current_user_id))
       (raise (HTTPException HTTP_403_FORBIDDEN
                 [FLit "Access denied to upload session"]));;
     when_ ((chunk_number <? 1) || (chunk_number >? sd_total_chunks session_data))
       (raise (HTTPException HTTP_400_BAD_REQUEST
                 [FLit "Invalid chunk number. Expected 1-";
                  FInt (sd_total_chunks session_data)]));;
     if bool_decide (chunk_number ∈ sd_uploaded_chunks session_data) then
       mret {| cr_chunk_id := upload_id +:+ "-" +:+ str_of_Z chunk_number;
               cr_upload_id := upload_id;
               cr_chunk_number := chunk_number;
               cr_total_chunks := sd_total_chunks session_data;
               cr_bytes_received := 0;
               cr_message := "Chunk already uploaded" |}
     else
       let chunks_dir := chunks_dir_of upload_id in
       os_makedirs chunks_dir;;
       let chunk_path := chunk_path_of upload_id chunk_number in
       let content := uf_content chunk in
       open_w chunk_path;;
       write_bytes chunk_path content;;
       let session_data := append_and_sort session_data chunk_number in
       open_w session_file;;
       write_json session_file session_data;;
       mret {| cr_chunk_id := upload_id +:+ "-" +:+ str_of_Z chunk_number;
               cr_upload_id := upload_id;
               cr_chunk_number := chunk_number;
               cr_total_chunks := sd_total_chunks session_data;
               cr_bytes_received := Z.of_nat (length content);
               cr_message := "Chunk uploaded successfully" |})
    (λ e, raise (HTTPException HTTP_500_INTERNAL_SERVER_ERROR
                   [FLit "Chunk upload failed: "; FExn e])).

(** [sorted(set(expected_chunks) - set(uploaded_chunks))]. *)
Definition missing_chunks (expected uploaded : list Z) : list Z :=
  merge_sort Z.le
    (elements ((list_to_set expected : gset Z) ∖ list_to_set uploaded)).

(** [complete_chunked_upload]. *)
Definition complete_chunked_upload (upload_id : string)
    (current_user_id : string) : M UploadResponse :=
  try_except
    (let session_file := session_file_of upload_id in
     found ← os_path_exists session_file;
     when_ (negb found)
       (raise (HTTPException HTTP_404_NOT_FOUND
                 [FLit "Upload session not found"]));;
     session_data ← read_json session_file;
     when_ (bool_decide (sd_user_id session_data ≠ current_user_id))
       (raise (HTTPException HTTP_403_FORBIDDEN
                 [FLit "Access denied to upload session"]));;
     let expected_chunks := seqZ 1 (sd_total_chunks session_data) in
     when_ (bool_decide (sd_uploaded_chunks session_data ≠ expected_chunks))
       (raise (HTTPException HTTP_400_BAD_REQUEST
                 [FLit "Missing chunks: ";
                  FIntList (missing_chunks expected_chunks
                              (sd_uploaded_chunks session_data))]));;
     let file_id := sd_file_id session_data in
     let filename := sd_filename session_data in
     let file_extension := str_or (os_path_splitext filename).2 ".webm" in
     let safe_filename := file_id +:+ file_extension in
     let upload_dir := os_path_join ["uploads"; "audio"; current_user_id] in
     os_makedirs upload_dir;;
     let final_path := upload_dir ++ [safe_filename] in
     let chunks_dir := chunks_dir_of upload_id in
     open_w final_path;;
     total_bytes ←
       for_fold (seqZ 1 (sd_total_chunks session_data)) 0
         (λ chunk_num total_bytes,
            chunk_data ← read_bytes (chunk_path_of upload_id chunk_num);
            write_bytes final_path chunk_data;;
            mret (total_bytes + Z.of_nat (length chunk_data)));
     shutil_rmtree chunks_dir;;
     os_remove session_file;;
     mret {| ur_file_id := file_id;
             ur_filename := filename;
             ur_file_size := total_bytes;
             ur_mime_type := sd_mime_type session_data;
             ur_upload_url := None;
             ur_message := "Chunked upload completed successfully" |})
    (λ e, raise (HTTPException HTTP_500_INTERNAL_SERVER_ERROR
                   [FLit "Failed to complete chunked upload: "; FExn e])).

(** [complete_chunked_upload] with its two cleanup calls left open.
    [shutil.rmtree] and [os.remove] are system calls and can fail for
    reasons the directory tree does not show (permissions, an I/O error, a
    removal by another process); [rmtree] and [remove] stand for what the
    two calls do in a given environment.  The body is that of
    [complete_chunked_upload], which is the instance at [shutil_rmtree]
    and [os_remove]. *)
Definition complete_chunked_upload_with (rmtree remove : path → M unit)
    (upload_id : string) (current_user_id : string) : M UploadResponse :=
  try_except
    (let session_file := session_file_of upload_id in
     found ← os_path_exists session_file;
     when_ (negb found)
       (raise (HTTPException HTTP_404_NOT_FOUND
                 [FLit "Upload session not found"]));;
     session_data ← read_json session_file;
     when_ (bool_decide (sd_user_id session_data ≠ current_user_id))
       (raise (HTTPException HTTP_403_FORBIDDEN
                 [FLit "Access denied to upload session"]));;
     let expected_chunks := seqZ 1 (sd_total_chunks session_data) in
     when_ (bool_decide (sd_uploaded_chunks session_data ≠ expected_chunks))
       (raise (HTTPException HTTP_400_BAD_REQUEST
                 [FLit "Missing chunks: ";
                  FIntList (missing_chunks expected_chunks
                              (sd_uploaded_chunks session_data))]));;
     let file_id := sd_file_id session_data in
     let filename := sd_filename session_data in
     let file_extension := str_or (os_path_splitext filename).2 ".webm" in
     let safe_filename := file_id +:+ file_extension in
     let upload_dir := os_path_join ["uploads"; "audio"; current_user_id] in
     os_makedirs upload_dir;;
     let final_path := upload_dir ++ [safe_filename] in
     let chunks_dir := chunks_dir_of upload_id in
     open_w final_path;;
     total_bytes ←
       for_fold (seqZ 1 (sd_total_chunks session_data)) 0
         (λ chunk_num total_bytes,
            chunk_data ← read_bytes (chunk_path_of upload_id chunk_num);
            write_bytes final_path chunk_data;;
            mret (total_bytes + Z.of_nat (length chunk_data)));
     rmtree chunks_dir;;
     remove session_file;;
     mret {| ur_file_id := file_id;
             ur_filename := filename;
             ur_file_size := total_bytes;
             ur_mime_type := sd_mime_type session_data;
             ur_upload_url := None;
             ur_message := "Chunked upload completed successfully" |})
    (λ e, raise (HTTPException HTTP_500_INTERNAL_SERVER_ERROR
                   [FLit "Failed to complete chunked upload: "; FExn e])).

(** [delete_upload]: removes the first listed file of the user's directory
    whose name starts with [file_id]. *)
Definition delete_upload (file_id : string) (current_user_id : string)
    : M string :=
  try_except
    (let upload_dir := os_path_join ["uploads"; "audio"; current_user_id] in
     found ← os_path_exists upload_dir;
     names ← (if found : bool then os_listdir upload_dir else mret []);
     match List.find (λ filename, str_startswith filename file_id) names with
     | Some filename =>
         os_remove (upload_dir ++ [filename]);;
         mret "File deleted successfully"
     | None =>
         raise (HTTPException HTTP_404_NOT_FOUND [FLit "File not found"])
     end)
    (λ e, raise (HTTPException HTTP_500_INTERNAL_SERVER_ERROR
                   [FLit "Failed to delete file: "; FExn e])).

(** The dictionary returned by [get_upload_status]. *)
Record StatusResponse : Type := mk_StatusResponse {
  sr_file_id : string;
  sr_status : string;
  sr_file_size : Z;
  sr_file_path : path
}.

(** [get_upload_status]: reports the first listed file of the user's
    directory whose name starts with [file_id]. *)
Definition get_upload_status (file_id : string) (current_user_id : string)
    : M StatusResponse :=
  let upload_dir := os_path_join ["uploads"; "audio"; current_user_id] in
  found ← os_path_exists upload_dir;
  names ← (if found : bool then os_listdir upload_dir else mret []);
  match List.find (λ filename, str_startswith filename file_id) names with
  | Some filename =>
      let file_path := upload_dir ++ [filename] in
      file_size ← os_path_getsize file_path;
      mret {| sr_file_id := file_id;
              sr_status := "completed";
              sr_file_size := file_size;
              sr_file_path := file_path |}
  | None =>
      raise (HTTPException HTTP_404_NOT_FOUND [FLit "File not found"])
  end.

End Upload.

(* ===================================================================== *)
(** ** States of the upload directory tree *)
(* ===================================================================== *)

Import Py Upload.

(** The files and directories the module creates below [uploads/]. *)
Definition file_shape (p : path) : Prop :=
  match p with
  | [a; b; _] => a = "uploads" ∧ b = "sessions"
  | [a; b; _; _] => a = "uploads" ∧ (b = "chunks" ∨ b = "audio")
  | _ => False
  end.

Definition dir_shape (d : path) : Prop :=
  match d with
  | [a] => a = "uploads"
  | [a; b] => a = "uploads" ∧ (b = "sessions" ∨ b = "chunks" ∨ b = "audio")
  | [a; b; _] => a = "uploads" ∧ (b = "chunks" ∨ b = "audio")
  | _ => False
  end.

(** The session record stored for [upload_id], if any. *)
Definition session_of (fs : FS) (upload_id : string) : option session_data :=
  match files fs !! session_file_of upload_id with
  | Some (Text d) => Some d
  | _ => None
  end.

(** The bytes stored for chunk [n] of [upload_id] (empty if there are
    none). *)
Definition stored_chunk (fs : FS) (upload_id : string) (n : Z)
    : list Byte.byte :=
  match files fs !! chunk_path_of upload_id n with
  | Some (Bytes b) => b
  | _ => []
  end.

(** The path [complete_chunked_upload] assembles the artifact at. *)
Definition final_path_of (d : session_data) (current_user_id : string) : path :=
  os_path_join ["uploads"; "audio"; current_user_id]
    ++ [sd_file_id d +:+ str_or (os_path_splitext (sd_filename d)).2 ".webm"].

(** A session record is consistent with the chunk store: its chunk numbers
    are strictly ascending, lie in [1, total_chunks], and each has its
    chunk file. *)
Definition session_ok (fs : FS) (upload_id : string) (d : session_data) : Prop :=
  StronglySorted Z.lt (sd_uploaded_chunks d) ∧
  ∀ n, n ∈ sd_uploaded_chunks d →
    1 ≤ n ≤ sd_total_chunks d ∧
    ∃ b, files fs !! chunk_path_of upload_id n = Some (Bytes b).

(** The shape of the tree: what makes the module's file-system calls
    succeed. *)
Record fs_shape (fs : FS) : Prop := mk_fs_shape {
  shape_files : ∀ p c, files fs !! p = Some c → file_shape p;
  shape_dirs : ∀ d, d ∈ dirs fs → dir_shape d;
  shape_parent : ∀ p c, files fs !! p = Some c → parent p ∈ dirs fs;
  shape_session_text : ∀ name c,
    files fs !! ["uploads"; "sessions"; name] = Some c → ∃ d, c = Text d
}.

(** The invariant of the reachable states: the tree has the module's
    shape, every session record is consistent with the chunk store, and a
    chunk directory exists only for a session that has recorded a chunk. *)
Record fs_inv (fs : FS) : Prop := mk_fs_inv {
  inv_shape : fs_shape fs;
  inv_sessions : ∀ upload_id d,
    session_of fs upload_id = Some d → session_ok fs upload_id d;
  inv_chunks_dir : ∀ upload_id,
    chunks_dir_of upload_id ∈ dirs fs →
    ∃ d, session_of fs upload_id = Some d ∧ sd_uploaded_chunks d ≠ []
}.

(** *** The file system after each successful write *)

Definition with_dirs (p : path) (fs : FS) : FS :=
  mkFS (files fs) (list_to_set (ancestors_and_self p) ∪ dirs fs).

Definition with_file (p : path) (c : file_data) (fs : FS) : FS :=
  mkFS (<[p := c]> (files fs)) (dirs fs).

(** The record [start_chunked_upload] writes. *)
Definition new_session (upload_id file_id now filename : string)
    (file_size : Z) (mime_type : string) (chunk_size : Z) (user : string)
    : session_data :=
  {| sd_upload_id := upload_id;
     sd_file_id := file_id;
     sd_user_id := user;
     sd_filename := filename;
     sd_file_size := file_size;
     sd_mime_type := mime_type;
     sd_chunk_size := chunk_size;
     sd_total_chunks := (file_size + chunk_size - 1) / chunk_size;
     sd_uploaded_chunks := [];
     sd_created_at := now |}.

Definition fs_after_start (fs : FS) (upload_id : string) (d : session_data)
    : FS :=
  with_file (session_file_of upload_id) (Text d)
    (with_dirs ["uploads"; "sessions"] fs).

Definition fs_after_chunk (fs : FS) (upload_id : string) (n : Z)
    (content : list Byte.byte) (d : session_data) : FS :=
  with_file (session_file_of upload_id) (Text (append_and_sort d n))
    (with_file (chunk_path_of upload_id n) (Bytes content)
       (with_dirs (chunks_dir_of upload_id) fs)).

(** The bytes of the chunks [1 .. total_chunks] of a session, in ascending
    chunk number. *)
Definition assembled (fs : FS) (upload_id : string) (d : session_data)
    : list Byte.byte :=
  concat (stored_chunk fs upload_id <$> seqZ 1 (sd_total_chunks d)).

(** After the assembly, before the cleanup. *)
Definition fs_after_assembly (fs : FS) (upload_id user : string)
    (d : session_data) : FS :=
  with_file (final_path_of d user) (Bytes (assembled fs upload_id d))
    (with_dirs ["uploads"; "audio"; user] fs).

(** After [shutil.rmtree(chunks_dir)] and [os.remove(session_file)]. *)
Definition fs_after_cleanup (fs : FS) (upload_id : string) : FS :=
  mkFS
    (delete (session_file_of upload_id)
       (filter (λ kv, ¬ chunks_dir_of upload_id `prefix_of` kv.1) (files fs)))
    (filter (λ q, ¬ chunks_dir_of upload_id `prefix_of` q) (dirs fs)).

Definition start_response (upload_id file_id : string) (file_size chunk_size : Z)
    : StartResponse :=
  {| st_upload_id := upload_id;
     st_file_id := file_id;
     st_total_chunks := (file_size + chunk_size - 1) / chunk_size;
     st_chunk_size := chunk_size;
     st_message := "Chunked upload session started" |}.

Definition chunk_response (upload_id : string) (n : Z) (d : session_data)
    (received : Z) (msg : string) : ChunkUploadResponse :=
  {| cr_chunk_id := upload_id +:+ "-" +:+ str_of_Z n;
     cr_upload_id := upload_id;
     cr_chunk_number := n;
     cr_total_chunks := sd_total_chunks d;
     cr_bytes_received := received;
     cr_message := msg |}.

Definition complete_response (d : session_data) (total_bytes : Z)
    : UploadResponse :=
  {| ur_file_id := sd_file_id d;
     ur_filename := sd_filename d;
     ur_file_size := total_bytes;
     ur_mime_type := sd_mime_type d;
     ur_upload_url := None;
     ur_message := "Chunked upload completed successfully" |}.

(** The path and the response of [upload_audio_file]. *)
Definition audio_path_of (file_id : string) (file : UploadFile) (user : string)
    : path :=
  os_path_join ["uploads"; "audio"; user]
    ++ [file_id +:+
        str_or (os_path_splitext (opt_str_or (uf_filename file) "")).2 ".webm"].

Definition audio_response (file_id : string) (file : UploadFile)
    : UploadResponse :=
  {| ur_file_id := file_id;
     ur_filename :=
       opt_str_or (uf_filename file)
         (file_id +:+
          str_or (os_path_splitext (opt_str_or (uf_filename file) "")).2
            ".webm");
     ur_file_size := Z.of_nat (length (uf_content file));
     ur_mime_type := opt_str_or (uf_content_type file) "audio/webm";
     ur_upload_url := None;
     ur_message := "File uploaded successfully" |}.

Definition fs_after_audio (fs : FS) (file_id : string) (file : UploadFile)
    (user : string) : FS :=
  with_file (audio_path_of file_id file user) (Bytes (uf_content file))
    (with_dirs ["uploads"; "audio"; user] fs).

(** The HTTP 500 the blanket [except Exception] handlers raise. *)
Definition wrapped_500 (prefix : string) (cause : exn) : exn :=
  HTTPException HTTP_500_INTERNAL_SERVER_ERROR [FLit prefix; FExn cause].

(** One request served by the module.  [uuid.uuid4()] is taken to return an
    identifier that names no current session.  [get_upload_status] only
    reads and is left out. *)
Inductive step : FS → FS → Prop :=
  | step_upload_audio file_id file user r fs fs' :
      upload_audio_file file_id file user fs = (r, fs') →
      step fs fs'
  | step_start upload_id file_id now filename file_size mime chunk_size user
      r fs fs' :
      files fs !! session_file_of upload_id = None →
      start_chunked_upload upload_id file_id now filename file_size mime
        chunk_size user fs = (r, fs') →
      step fs fs'
  | step_upload_chunk upload_id chunk_number chunk user r fs fs' :
      upload_chunk upload_id chunk_number chunk user fs = (r, fs') →
      step fs fs'
  | step_complete upload_id user r fs fs' :
      complete_chunked_upload upload_id user fs = (r, fs') →
      step fs fs'
  | step_delete file_id user r fs fs' :
      delete_upload file_id user fs = (r, fs') →
      step fs fs'.

(** The states reached from an empty upload tree. *)
Inductive reachable : FS → Prop :=
  | reachable_empty : reachable empty_fs
  | reachable_step fs fs' : reachable fs → step fs fs' → reachable fs'.

(** The owner sends the chunks numbered [order], one request each, chunk
    [n] carrying the bytes [data n]. *)
Definition upload_all (upload_id user : string) (data : Z → list Byte.byte)
    (order : list Z) (fs : FS) : FS :=
  foldl (λ fs n,
           (upload_chunk upload_id n
              (mk_UploadFile None None None (data n)) user fs).2)
    fs order.

(** *** Example requests and states *)

Definition ex_chunk (b : list Byte.byte) : UploadFile :=
  mk_UploadFile None None None b.

(** A 12-byte upload in chunks of 5 has been started by [alice]. *)
Definition ex_fs1 : FS :=
  (start_chunked_upload "U1" "F1" "t0" "rec.wav" 12 "audio/wav" 5 "alice"
     empty_fs).2.

(** Chunk 2 has arrived first. *)
Definition ex_fs2 : FS :=
  (upload_chunk "U1" 2 (ex_chunk [Byte.x41; Byte.x42]) "alice" ex_fs1).2.

(** Then chunks 1 and 3. *)
Definition ex_fs3 : FS :=
  (upload_chunk "U1" 3 (ex_chunk [Byte.x45])  "alice"
     (upload_chunk "U1" 1 (ex_chunk [Byte.x43; Byte.x44]) "alice" ex_fs2).2).2.

(** An upload declared with [file_size = 0] and the default chunk size. *)
Definition ex_fs_zero : FS :=
  (start_chunked_upload "U0" "F0" "t0" "empty.wav" 0 "audio/wav" CHUNK_SIZE
     "alice" empty_fs).2.

(** A single-shot upload whose [size] attribute is absent. *)
Definition ex_audio : UploadFile :=
  mk_UploadFile (Some "talk.wav") (Some "audio/wav") None
    [Byte.x52; Byte.x49; Byte.x46; Byte.x46].

(** [alice] has uploaded [ex_audio] in one request. *)
Definition ex_fs_audio : FS :=
  (upload_audio_file "F9" ex_audio "alice" empty_fs).2.

(** The upload of [ex_fs3] has been completed by [alice]. *)
Definition ex_fs4 : FS := (complete_chunked_upload "U1" "alice" ex_fs3).2.

(** A single-shot upload that carries no file name. *)
Definition ex_unnamed : UploadFile :=
  mk_UploadFile None (Some "audio/webm") None [Byte.x1a; Byte.x45].



(** *** Audio files and session metadata *)

(** [name] is an audio file of [user] whose name starts with [file_id]. *)
Definition audio_match (fs : FS) (user file_id name : string) : Prop :=
  is_Some (files fs !! ["uploads"; "audio"; user; name]) ∧
  str_startswith name file_id = true.

(** Every file below [uploads/audio] holds raw bytes. *)
Definition audio_bytes (fs : FS) : Prop :=
  ∀ user name c,
    files fs !! ["uploads"; "audio"; user; name] = Some c → ∃ b, c = Bytes b.

(** Every chunk file is the file of a chunk number recorded by its
    session. *)
Definition chunks_recorded (fs : FS) : Prop :=
  ∀ upload_id name c,
    files fs !! ["uploads"; "chunks"; upload_id; name] = Some c →
    ∃ d n b, session_of fs upload_id = Some d ∧ n ∈ sd_uploaded_chunks d ∧
             name = "chunk_" +:+ format_04d n ∧ c = Bytes b.

(** Two session records agree on everything but the recorded chunks. *)
Definition same_metadata (d d' : session_data) : Prop :=
  sd_upload_id d' = sd_upload_id d ∧
  sd_file_id d' = sd_file_id d ∧
  sd_user_id d' = sd_user_id d ∧
  sd_filename d' = sd_filename d ∧
  sd_file_size d' = sd_file_size d ∧
  sd_mime_type d' = sd_mime_type d ∧
  sd_chunk_size d' = sd_chunk_size d ∧
  sd_total_chunks d' = sd_total_chunks d ∧
  sd_created_at d' = sd_created_at d.

(** [c] occurs in [s]. *)
Fixpoint has_char (c : ascii) (s : string) : bool :=
  match s with
  | EmptyString => false
  | String a s' => Ascii.eqb a c || has_char c s'
  end.

(** The uploaded file with its name in lower case. *)
Definition with_lower_filename (file : UploadFile) : UploadFile :=
  mk_UploadFile (str_lower <$> uf_filename file) (uf_content_type file)
    (uf_size file) (uf_content file).

(** [q] is the ceiling of [a / b], for [b > 0]. *)
Definition is_ceiling (a b q : Z) : Prop := (q - 1) * b < a ∧ a ≤ q * b.

(** Reading back a zero-padded decimal. *)
Definition decode_digits (s : string) : option N :=
  N.of_uint <$> NilEmpty.uint_of_string s.

(* ===================================================================== *)
(** ** Strings and paths *)
(* ===================================================================== *)

Lemma append_length (a b : string) :
  String.length (a +:+ b) = (String.length a + String.length b)%nat.
Proof. induction a as [|c a IH]; simpl; [done | by rewrite IH]. Qed.

Lemma append_inj_r (s a b : string) : a +:+ s = b +:+ s → a = b.
Proof.
  revert b. induction a as [|c a IH]; intros [|c' b] H; simpl in H.
  - done.
  - apply (f_equal String.length) in H.
    rewrite !append_length in H. simpl in H. lia.
  - apply (f_equal String.length) in H.
    rewrite !append_length in H. simpl in H. lia.
  - injection H as -> H. f_equal. by apply IH.
Qed.

Lemma session_file_of_inj (a b : string) :
  session_file_of a = session_file_of b → a = b.
Proof.
  unfold session_file_of, os_path_join. intros [= H].
  by apply append_inj_r in H.
Qed.

Lemma decode_zero_pad (w : nat) (n : N) :
  decode_digits (zero_pad w (str_of_N n)) = Some n.
Proof.
  unfold zero_pad, decode_digits.
  induction (w - String.length (str_of_N n))%nat as [|k IH].
  - simpl. unfold str_of_N, NilZero.string_of_uint.
    destruct (N.to_uint n) eqn:E;
      try (rewrite <- E, NilEmpty.usu; simpl;
           by rewrite DecimalN.Unsigned.of_to).
    destruct n; discriminate || (by apply DecimalPos.Unsigned.to_uint_nonnil in E).
  - simpl. destruct (NilEmpty.uint_of_string _) as [d|]; [|done].
    simpl in *. by injection IH as <-.
Qed.

Lemma format_04d_inj (a b : Z) :
  0 ≤ a → 0 ≤ b → format_04d a = format_04d b → a = b.
Proof.
  intros Ha Hb. unfold format_04d.
  destruct (Z.ltb_spec a 0), (Z.ltb_spec b 0); try lia.
  intros Heq. apply (f_equal decode_digits) in Heq.
  rewrite !decode_zero_pad in Heq. injection Heq as Heq. lia.
Qed.

Lemma chunk_path_of_inj (u : string) (a b : Z) :
  0 ≤ a → 0 ≤ b → chunk_path_of u a = chunk_path_of u b → a = b.
Proof.
  unfold chunk_path_of, chunks_dir_of, os_path_join.
  intros Ha Hb H. apply format_04d_inj; [done..|]. by simplify_eq/=.
Qed.

Lemma chunks_dir_of_inj a b : chunks_dir_of a = chunks_dir_of b → a = b.
Proof. unfold chunks_dir_of, os_path_join. by intros [= ->]. Qed.

Lemma chunk_path_shape upload_id n :
  chunk_path_of upload_id n =
    ["uploads"; "chunks"; upload_id; "chunk_" +:+ format_04d n].
Proof. done. Qed.

Lemma final_path_shape d user :
  final_path_of d user =
    ["uploads"; "audio"; user;
     sd_file_id d +:+ str_or (os_path_splitext (sd_filename d)).2 ".webm"].
Proof. done. Qed.

Lemma chunks_dir_prefix_chunk a u n :
  chunks_dir_of a `prefix_of` chunk_path_of u n → a = u.
Proof. intros [k Hk]. unfold chunk_path_of, chunks_dir_of, os_path_join in Hk. by simplify_eq/=. Qed.

Lemma chunks_dir_not_prefix_session a u :
  ¬ chunks_dir_of a `prefix_of` session_file_of u.
Proof. intros [k Hk]. unfold chunks_dir_of, session_file_of, os_path_join in Hk. by simplify_eq/=. Qed.

(* ===================================================================== *)
(** ** Sorted lists of chunk numbers *)
(* ===================================================================== *)

Lemma sorted_lt_NoDup (l : list Z) : StronglySorted Z.lt l → NoDup l.
Proof.
  induction 1 as [|x l Hs IH Hx]; constructor; [|done].
  intros Hin. rewrite Forall_forall in Hx. specialize (Hx _ Hin). lia.
Qed.

Lemma sorted_le_NoDup_lt (l : list Z) :
  StronglySorted Z.le l → NoDup l → StronglySorted Z.lt l.
Proof.
  induction 1 as [|x l Hs IH Hx]; intros Hnd; [constructor|].
  apply NoDup_cons in Hnd as [Hnin Hnd]. constructor; [by apply IH|].
  rewrite Forall_forall in Hx |- *. intros y Hy.
  specialize (Hx _ Hy). assert (x ≠ y) by (by intros ->). lia.
Qed.

Lemma sorted_le_of_lt (l : list Z) : StronglySorted Z.lt l → StronglySorted Z.le l.
Proof.
  induction 1 as [|x l Hs IH Hx]; constructor; [done|].
  eapply Forall_impl; [done|]. simpl. lia.
Qed.

Lemma elem_of_append_sort (l : list Z) (n m : Z) :
  m ∈ merge_sort Z.le (l ++ [n]) ↔ m ∈ l ∨ m = n.
Proof.
  rewrite merge_sort_Permutation, elem_of_app, list_elem_of_singleton. done.
Qed.

Lemma append_sort_sorted (l : list Z) (n : Z) :
  StronglySorted Z.lt l → n ∉ l →
  StronglySorted Z.lt (merge_sort Z.le (l ++ [n])).
Proof.
  intros Hs Hn. apply sorted_le_NoDup_lt.
  - apply StronglySorted_merge_sort; apply _.
  - rewrite merge_sort_Permutation. apply NoDup_app. split_and!.
    + by apply sorted_lt_NoDup.
    + intros x Hx ->%list_elem_of_singleton. done.
    + apply NoDup_singleton.
Qed.

Lemma seqZ_sorted (m n : Z) : StronglySorted Z.lt (seqZ m n).
Proof.
  destruct (decide (n ≤ 0)) as [Hn|Hn]; [rewrite seqZ_nil by done; constructor|].
  rewrite <- (Z2Nat.id n) by lia. generalize (Z.to_nat n). clear n Hn.
  intros k. revert m. induction k as [|k IH]; intros m.
  - rewrite seqZ_nil by done. constructor.
  - rewrite seqZ_cons by lia.
    replace (Z.pred (Z.of_nat (S k))) with (Z.of_nat k) by lia.
    constructor; [apply IH|]. apply Forall_forall. intros x Hx.
    apply elem_of_seqZ in Hx. lia.
Qed.

(** A strictly ascending list that holds exactly the numbers [1 .. total]
    is [range(1, total + 1)]. *)
Lemma sorted_full_range (l : list Z) (total : Z) :
  StronglySorted Z.lt l →
  (∀ n, n ∈ l ↔ 1 ≤ n ≤ total) →
  l = seqZ 1 total.
Proof.
  intros Hs Hl. apply (StronglySorted_unique Z.le).
  - by apply sorted_le_of_lt.
  - apply sorted_le_of_lt, seqZ_sorted.
  - apply NoDup_Permutation; [by apply sorted_lt_NoDup|apply NoDup_seqZ|].
    intros n. rewrite Hl, elem_of_seqZ. lia.
Qed.

Lemma elem_of_missing_chunks (total : Z) (uploaded : list Z) (n : Z) :
  n ∈ missing_chunks (seqZ 1 total) uploaded ↔ 1 ≤ n ≤ total ∧ n ∉ uploaded.
Proof.
  unfold missing_chunks.
  rewrite merge_sort_Permutation, elem_of_elements, elem_of_difference,
    !elem_of_list_to_set, elem_of_seqZ.
  split; intros [? ?]; (split; [lia|done]).
Qed.

Lemma missing_chunks_sorted (expected uploaded : list Z) :
  StronglySorted Z.lt (missing_chunks expected uploaded).
Proof.
  unfold missing_chunks. apply sorted_le_NoDup_lt.
  - apply StronglySorted_merge_sort; apply _.
  - rewrite merge_sort_Permutation. apply NoDup_elements.
Qed.

(* ===================================================================== *)
(** ** Running the file-system primitives *)
(* ===================================================================== *)

Lemma bind_ok {A B : Type} (m : M A) (f : A → M B) fs a fs1 :
  m fs = (Ok a, fs1) → (m ≫= f) fs = f a fs1.
Proof. intros H. unfold mbind, M_bind. by rewrite H. Qed.

Lemma bind_raise {A B : Type} (m : M A) (f : A → M B) fs e fs1 :
  m fs = (Raise e, fs1) → (m ≫= f) fs = (Raise e, fs1).
Proof. intros H. unfold mbind, M_bind. by rewrite H. Qed.

Lemma run_mkdirs target qs fs :
  (∀ q, q ∈ qs → files fs !! q = None ∧ q ≠ []) →
  for_each qs (mkdir_exist_ok target) fs =
    (Ok tt, mkFS (files fs) (list_to_set qs ∪ dirs fs)).
Proof.
  revert fs. induction qs as [|q qs IH]; intros [fm ds] Hq; simpl in *.
  - unfold mret, M_ret. do 2 f_equal. set_solver.
  - destruct (Hq q) as [Hnone Hne]; [by left|].
    unfold mbind at 1, M_bind at 1, mkdir_exist_ok at 1.
    unfold mbind at 1, M_bind at 1, get_fs at 1, is_dir, is_file. simpl.
    rewrite (bool_decide_eq_false_2 (q = [])) by done. simpl.
    destruct (decide (q ∈ ds)) as [Hin|Hnin].
    + rewrite (bool_decide_eq_true_2 (q ∈ ds)) by done.
      unfold mret at 1, M_ret at 1.
      rewrite IH by (intros; apply Hq; by right). simpl.
      do 2 f_equal. set_solver.
    + rewrite (bool_decide_eq_false_2 (q ∈ ds)) by done.
      rewrite Hnone.
      rewrite (bool_decide_eq_false_2 (is_Some None)) by (by intros [??]).
      unfold put_fs at 1.
      rewrite IH by (intros; apply Hq; by right). simpl.
      do 2 f_equal. set_solver.
Qed.

Lemma run_open_w fs p :
  p ≠ [] → p ∉ dirs fs → files fs !! parent p = None → parent p ∈ dirs fs →
  open_w p fs = (Ok tt, mkFS (<[p := Bytes []]> (files fs)) (dirs fs)).
Proof.
  intros Hne Hnd Hpf Hpd.
  unfold open_w, mbind, M_bind, get_fs, is_dir, is_file.
  rewrite (bool_decide_eq_false_2 (p = [])) by done.
  rewrite (bool_decide_eq_false_2 (p ∈ dirs fs)) by done.
  rewrite Hpf. rewrite (bool_decide_eq_false_2 (is_Some None)) by (by intros [??]).
  rewrite (bool_decide_eq_true_2 (parent p ∈ dirs fs)) by done.
  by rewrite orb_true_r.
Qed.

Lemma run_write_bytes fs p old b :
  files fs !! p = Some (Bytes old) →
  write_bytes p b fs =
    (Ok tt, mkFS (<[p := Bytes (old ++ b)]> (files fs)) (dirs fs)).
Proof.
  intros H. unfold write_bytes, mbind, M_bind, get_fs. by rewrite H.
Qed.

Lemma run_read_bytes fs p b :
  files fs !! p = Some (Bytes b) → read_bytes p fs = (Ok b, fs).
Proof.
  intros H. unfold read_bytes, read_file, mbind, M_bind, get_fs. by rewrite H.
Qed.

(** Creating (or truncating) a file and writing it in one go. *)
Lemma run_create_bytes {B} fs p b (k : M B) :
  p ≠ [] → p ∉ dirs fs → files fs !! parent p = None → parent p ∈ dirs fs →
  (open_w p ;; write_bytes p b ;; k) fs =
    k (mkFS (<[p := Bytes b]> (files fs)) (dirs fs)).
Proof.
  intros. erewrite bind_ok; [|by apply run_open_w].
  erewrite bind_ok; [|by apply run_write_bytes, lookup_insert_eq].
  simpl. by rewrite insert_insert_eq.
Qed.

Lemma run_create_json {B} fs p d (k : M B) :
  p ≠ [] → p ∉ dirs fs → files fs !! parent p = None → parent p ∈ dirs fs →
  (open_w p ;; write_json p d ;; k) fs =
    k (mkFS (<[p := Text d]> (files fs)) (dirs fs)).
Proof.
  intros. erewrite bind_ok; [|by apply run_open_w].
  erewrite bind_ok; [|reflexivity]. simpl. by rewrite insert_insert_eq.
Qed.

Lemma run_rmtree fs d :
  d ∈ dirs fs →
  shutil_rmtree d fs =
    (Ok tt, mkFS (filter (λ kv, ¬ d `prefix_of` kv.1) (files fs))
                 (filter (λ q, ¬ d `prefix_of` q) (dirs fs))).
Proof.
  intros Hd. unfold shutil_rmtree, mbind, M_bind, get_fs.
  by rewrite bool_decide_eq_true_2.
Qed.

Lemma run_rmtree_missing fs d :
  d ∉ dirs fs → files fs !! d = None →
  shutil_rmtree d fs = (Raise (OSError FileNotFoundError d), fs).
Proof.
  intros Hd Hf. unfold shutil_rmtree, mbind, M_bind, get_fs, is_file.
  rewrite (bool_decide_eq_false_2 _ Hd), Hf.
  by rewrite bool_decide_eq_false_2 by (by intros [??]).
Qed.

Lemma run_remove fs p c :
  files fs !! p = Some c →
  os_remove p fs = (Ok tt, mkFS (delete p (files fs)) (dirs fs)).
Proof.
  intros Hp. unfold os_remove, mbind, M_bind, get_fs, is_file.
  by rewrite Hp, bool_decide_eq_true_2.
Qed.

Lemma os_remove_state fs p :
  (os_remove p fs).2 = fs ∨
  (os_remove p fs).2 = mkFS (delete p (files fs)) (dirs fs).
Proof.
  unfold os_remove, mbind, M_bind, get_fs.
  destruct (is_file fs p); [by right|by left].
Qed.

Lemma os_listdir_pure fs d : ∃ r, os_listdir d fs = (r, fs).
Proof.
  unfold os_listdir, mbind, M_bind, get_fs. destruct (is_dir fs d); by eexists.
Qed.

(** The assembly loop appends the chunks to the artifact in the order of
    the list it iterates over, and counts their bytes. *)
Lemma run_assemble upload_id final fm ds ns acc t :
  (∀ n, n ∈ ns → ∃ b, fm !! chunk_path_of upload_id n = Some (Bytes b)) →
  (∀ n, final ≠ chunk_path_of upload_id n) →
  for_fold ns t
    (λ chunk_num total_bytes,
       chunk_data ← read_bytes (chunk_path_of upload_id chunk_num);
       write_bytes final chunk_data;;
       mret (total_bytes + Z.of_nat (length chunk_data)))
    (mkFS (<[final := Bytes acc]> fm) ds) =
  (Ok (t + Z.of_nat (length (concat (stored_chunk (mkFS fm ds) upload_id <$> ns)))),
   mkFS (<[final := Bytes (acc ++ concat (stored_chunk (mkFS fm ds) upload_id <$> ns))]> fm)
        ds).
Proof.
  intros Hch Hne. revert acc t.
  induction ns as [|n ns IH]; intros acc t; simpl.
  - unfold mret, M_ret. rewrite app_nil_r, Z.add_0_r. done.
  - destruct (Hch n) as [b Hb]; [by left|].
    erewrite bind_ok.
    2:{ erewrite bind_ok.
        2:{ apply run_read_bytes. simpl. rewrite lookup_insert_ne by done. done. }
        erewrite bind_ok.
        2:{ apply run_write_bytes. simpl. apply lookup_insert_eq. }
        reflexivity. }
    simpl. rewrite insert_insert_eq.
    rewrite IH by (intros; apply Hch; by right).
    assert (Hst : stored_chunk (mkFS fm ds) upload_id n = b).
    { unfold stored_chunk. simpl. by rewrite Hb. }
    rewrite Hst.
    rewrite length_app, Nat2Z.inj_add, <- (assoc_L (++)), Z.add_assoc. done.
Qed.

(** *** Looking up session records *)

Lemma session_of_Some fs upload_id d :
  session_of fs upload_id = Some d ↔
  files fs !! session_file_of upload_id = Some (Text d).
Proof.
  unfold session_of. destruct (files fs !! _) as [[?|?]|]; naive_solver.
Qed.

Lemma session_exists fs upload_id d :
  session_of fs upload_id = Some d →
  os_path_exists (session_file_of upload_id) fs = (Ok true, fs).
Proof.
  rewrite session_of_Some. intros H.
  unfold os_path_exists, get_fs, mbind, M_bind, mret, M_ret, is_file.
  rewrite H. by rewrite bool_decide_eq_true_2.
Qed.

Lemma session_read fs upload_id d :
  session_of fs upload_id = Some d →
  read_json (session_file_of upload_id) fs = (Ok d, fs).
Proof.
  rewrite session_of_Some. intros H.
  unfold read_json, read_file, get_fs, mbind, M_bind, mret, M_ret.
  by rewrite H.
Qed.

Lemma session_of_insert_ne fs p c ds upload_id :
  p ≠ session_file_of upload_id →
  session_of (mkFS (<[p := c]> (files fs)) ds) upload_id = session_of fs upload_id.
Proof. intros Hne. unfold session_of. simpl. by rewrite lookup_insert_ne. Qed.

Lemma session_of_insert_eq fs d ds upload_id :
  session_of (mkFS (<[session_file_of upload_id := Text d]> (files fs)) ds)
    upload_id = Some d.
Proof. unfold session_of. simpl. by rewrite lookup_insert_eq. Qed.

Lemma session_of_with_file fs p c upload_id :
  p ≠ session_file_of upload_id →
  session_of (with_file p c fs) upload_id = session_of fs upload_id.
Proof. intros Hne. by apply session_of_insert_ne. Qed.

Lemma session_of_after_cleanup fs upload_id u :
  session_of (fs_after_cleanup fs upload_id) u =
    if decide (u = upload_id) then None else session_of fs u.
Proof.
  unfold session_of, fs_after_cleanup. simpl. case_decide as Hu.
  - subst. by rewrite lookup_delete_eq.
  - rewrite lookup_delete_ne
      by (intros Heq%session_file_of_inj; by subst).
    destruct (files fs !! session_file_of u) as [c|] eqn:E.
    + erewrite (proj2 (map_lookup_filter_Some _ _ _ c)); [done|].
      split; [done|]. simpl. apply chunks_dir_not_prefix_session.
    + by rewrite map_lookup_filter_None_2 by auto.
Qed.

(* ===================================================================== *)
(** ** The shape of the upload tree *)
(* ===================================================================== *)

Lemma shape_not_file fs p : fs_shape fs → ¬ file_shape p → files fs !! p = None.
Proof.
  intros Hsh Hs. destruct (files fs !! p) as [c|] eqn:E; [|done].
  destruct Hs. by eapply shape_files.
Qed.

Lemma shape_not_dir fs p : fs_shape fs → ¬ dir_shape p → p ∉ dirs fs.
Proof. intros Hsh Hs Hin. apply Hs. by eapply shape_dirs. Qed.

Lemma session_file_not_dir fs upload_id :
  fs_shape fs → session_file_of upload_id ∉ dirs fs.
Proof.
  intros Hinv. apply shape_not_dir; [done|]. simpl. intros [_ [|]]; discriminate.
Qed.

Lemma session_of_None_file fs upload_id :
  fs_shape fs → session_of fs upload_id = None →
  files fs !! session_file_of upload_id = None.
Proof.
  intros Hinv Hs. destruct (files fs !! session_file_of upload_id) eqn:E; [|done].
  destruct (shape_session_text _ Hinv _ _ E) as [d ->].
  apply session_of_Some in E. congruence.
Qed.

Lemma session_missing fs upload_id :
  fs_shape fs → session_of fs upload_id = None →
  os_path_exists (session_file_of upload_id) fs = (Ok false, fs).
Proof.
  intros Hinv Hs.
  unfold os_path_exists, get_fs, mbind, M_bind, mret, M_ret, is_file, is_dir.
  rewrite (session_of_None_file _ _ Hinv Hs).
  rewrite (bool_decide_eq_false_2 (is_Some None)) by (by intros [??]).
  rewrite (bool_decide_eq_false_2 (_ ∈ _)) by by apply session_file_not_dir.
  done.
Qed.

Lemma dir_shape_ancestors p q :
  dir_shape p → q ∈ ancestors_and_self p →
  dir_shape q ∧ ¬ file_shape q ∧ q ≠ [] ∧
  (∀ u, q = chunks_dir_of u → p = chunks_dir_of u).
Proof.
  unfold chunks_dir_of, os_path_join.
  destruct p as [|a [|b [|c [|? ?]]]]; simpl; try done.
  - intros -> ->%list_elem_of_singleton. simpl. naive_solver.
  - intros [-> Hb] Hq.
    apply elem_of_cons in Hq as [-> | ->%list_elem_of_singleton];
      simpl; naive_solver.
  - intros [-> Hb] Hq.
    apply elem_of_cons in Hq as [-> | Hq]; [simpl; naive_solver|].
    apply elem_of_cons in Hq as [-> | ->%list_elem_of_singleton];
      simpl; naive_solver.
Qed.

Lemma self_in_ancestors p : p ≠ [] → p ∈ ancestors_and_self p.
Proof.
  intros Hne. unfold ancestors_and_self. apply list_elem_of_fmap.
  exists (length p). rewrite firstn_all. split; [done|].
  apply elem_of_seq. destruct p; [done|simpl; lia].
Qed.

Lemma with_dirs_self fs p : p ≠ [] → p ∈ dirs (with_dirs p fs).
Proof.
  intros Hne. simpl. apply elem_of_union_l, elem_of_list_to_set.
  by apply self_in_ancestors.
Qed.

Lemma run_makedirs fs p :
  fs_shape fs → dir_shape p → os_makedirs p fs = (Ok tt, with_dirs p fs).
Proof.
  intros Hinv Hp. apply run_mkdirs. intros q Hq.
  destruct (dir_shape_ancestors _ _ Hp Hq) as (_ & Hf & Hne & _).
  split; [by apply shape_not_file|done].
Qed.

Lemma shape_with_dirs fs p : fs_shape fs → dir_shape p → fs_shape (with_dirs p fs).
Proof.
  intros Hsh Hp. split; simpl.
  - apply Hsh.
  - intros d [Hd|Hd]%elem_of_union; [|by apply Hsh].
    apply elem_of_list_to_set in Hd. by eapply dir_shape_ancestors.
  - intros q c Hq. apply elem_of_union_r. by eapply shape_parent.
  - apply Hsh.
Qed.

Lemma chunks_dir_with_dirs fs p u :
  dir_shape p → chunks_dir_of u ∈ dirs (with_dirs p fs) →
  p = chunks_dir_of u ∨ chunks_dir_of u ∈ dirs fs.
Proof.
  intros Hp [Hin|Hin]%elem_of_union; [|by right]. left.
  apply elem_of_list_to_set in Hin.
  destruct (dir_shape_ancestors _ _ Hp Hin) as (_ & _ & _ & Hc). by apply Hc.
Qed.

Lemma shape_put_blob fs k a b content :
  fs_shape fs → k = "chunks" ∨ k = "audio" → ["uploads"; k; a] ∈ dirs fs →
  fs_shape (with_file ["uploads"; k; a; b] (Bytes content) fs).
Proof.
  intros Hsh Hk Hd. split; simpl.
  - intros p c [[<- _]|[_ Hp]]%lookup_insert_Some; [done|by eapply shape_files].
  - apply Hsh.
  - intros p c [[<- _]|[_ Hp]]%lookup_insert_Some; [done|by eapply shape_parent].
  - intros name c. rewrite lookup_insert_ne by done. apply Hsh.
Qed.

Lemma shape_put_session fs upload_id d :
  fs_shape fs → ["uploads"; "sessions"] ∈ dirs fs →
  fs_shape (with_file (session_file_of upload_id) (Text d) fs).
Proof.
  intros Hsh Hd. split; simpl.
  - intros p c [[<- _]|[_ Hp]]%lookup_insert_Some; [done|by eapply shape_files].
  - apply Hsh.
  - intros p c [[<- _]|[_ Hp]]%lookup_insert_Some; [done|by eapply shape_parent].
  - intros name c [[_ <-]|[_ Hp]]%lookup_insert_Some; [eauto|].
    by eapply shape_session_text.
Qed.

Lemma shape_delete fs p :
  fs_shape fs → fs_shape (mkFS (delete p (files fs)) (dirs fs)).
Proof.
  intros Hsh. split; simpl.
  - intros q c [_ Hq]%lookup_delete_Some. by eapply shape_files.
  - apply Hsh.
  - intros q c [_ Hq]%lookup_delete_Some. by eapply shape_parent.
  - intros name c [_ Hq]%lookup_delete_Some. by eapply shape_session_text.
Qed.

Lemma shape_rmtree fs d :
  fs_shape fs →
  fs_shape (mkFS (filter (λ kv, ¬ d `prefix_of` kv.1) (files fs))
                 (filter (λ q, ¬ d `prefix_of` q) (dirs fs))).
Proof.
  intros Hsh. split; simpl.
  - intros q c [Hq _]%map_lookup_filter_Some. by eapply shape_files.
  - intros q [_ Hq]%elem_of_filter. by apply Hsh.
  - intros q c [Hq Hpre]%map_lookup_filter_Some. apply elem_of_filter. split.
    + intros Hpre'. apply Hpre. simpl. etrans; [done|]. apply prefix_take.
    + by eapply shape_parent.
  - intros name c [Hq _]%map_lookup_filter_Some. by eapply shape_session_text.
Qed.

(* ===================================================================== *)
(** ** Preservation of the invariant *)
(* ===================================================================== *)

Lemma inv_empty : fs_inv empty_fs.
Proof.
  split; [split|..]; simpl; try (intros *; by rewrite lookup_empty);
    try (intros *; by rewrite elem_of_empty).
  intros u d. unfold session_of. simpl. by rewrite lookup_empty.
Qed.

(** A write that sets the record of one session and keeps every chunk
    file. *)
Lemma inv_update fs fs' upload_id d' :
  fs_inv fs → fs_shape fs' →
  session_of fs' upload_id = Some d' →
  (∀ u, u ≠ upload_id → session_of fs' u = session_of fs u) →
  (∀ u n b, files fs !! chunk_path_of u n = Some (Bytes b) →
     ∃ b', files fs' !! chunk_path_of u n = Some (Bytes b')) →
  session_ok fs' upload_id d' →
  (chunks_dir_of upload_id ∈ dirs fs' → sd_uploaded_chunks d' ≠ []) →
  (∀ u, u ≠ upload_id → chunks_dir_of u ∈ dirs fs' → chunks_dir_of u ∈ dirs fs) →
  fs_inv fs'.
Proof.
  intros Hinv Hsh Hs Hother Hch Hok Hdir Hdirs. split; [done| |].
  - intros u d. destruct (decide (u = upload_id)) as [->|Hu].
    + rewrite Hs. by intros [= <-].
    + rewrite Hother by done. intros Hd.
      destruct (inv_sessions _ Hinv _ _ Hd) as [Hsorted Hc]. split; [done|].
      intros n Hn. destruct (Hc n Hn) as [Hr [b Hb]]. split; [done|].
      by eapply Hch.
  - intros u Hu. destruct (decide (u = upload_id)) as [->|Hne].
    + exists d'. split; [done|]. by apply Hdir.
    + rewrite Hother by done. apply (inv_chunks_dir _ Hinv). by apply Hdirs.
Qed.

(** A write that touches no session record and keeps every chunk file. *)
Lemma inv_frame fs fs' :
  fs_inv fs → fs_shape fs' →
  (∀ u, session_of fs' u = session_of fs u) →
  (∀ u n b, files fs !! chunk_path_of u n = Some (Bytes b) →
     ∃ b', files fs' !! chunk_path_of u n = Some (Bytes b')) →
  (∀ u, chunks_dir_of u ∈ dirs fs' → chunks_dir_of u ∈ dirs fs) →
  fs_inv fs'.
Proof.
  intros Hinv Hsh Hsame Hch Hdirs. split; [done| |].
  - intros u d. rewrite Hsame. intros Hd.
    destruct (inv_sessions _ Hinv _ _ Hd) as [Hsorted Hc]. split; [done|].
    intros n Hn. destruct (Hc n Hn) as [Hr [b Hb]]. split; [done|].
    by eapply Hch.
  - intros u Hu. rewrite Hsame. apply (inv_chunks_dir _ Hinv). by apply Hdirs.
Qed.

(** An audio file written into the user's directory. *)
Lemma inv_after_blob fs user name content :
  fs_inv fs →
  fs_inv (with_file ["uploads"; "audio"; user; name] (Bytes content)
            (with_dirs ["uploads"; "audio"; user] fs)).
Proof.
  intros Hinv. apply (inv_frame fs); [done|..].
  - apply shape_put_blob;
      [|auto|by apply (with_dirs_self _ ["uploads"; "audio"; user])].
    apply shape_with_dirs; [apply Hinv|simpl; auto].
  - intros u. by rewrite session_of_with_file.
  - intros u n b Hb. exists b. simpl. by rewrite lookup_insert_ne.
  - intros u Hin.
    apply (chunks_dir_with_dirs fs ["uploads"; "audio"; user] u) in Hin
      as [Heq|Hin]; [|done|simpl; auto].
    unfold chunks_dir_of, os_path_join in Heq. simplify_eq.
Qed.

Lemma inv_after_start fs upload_id d :
  fs_inv fs → files fs !! session_file_of upload_id = None →
  sd_uploaded_chunks d = [] →
  fs_inv (fs_after_start fs upload_id d).
Proof.
  intros Hinv Hfresh Hd. apply (inv_update fs _ upload_id d); [done|..].
  - apply shape_put_session;
      [|by apply (with_dirs_self _ ["uploads"; "sessions"])].
    apply shape_with_dirs; [apply Hinv|simpl; auto].
  - apply session_of_insert_eq.
  - intros u Hu. unfold fs_after_start. rewrite session_of_with_file; [done|].
    intros Heq%session_file_of_inj. by subst.
  - intros u n b Hb. exists b. simpl. by rewrite lookup_insert_ne.
  - split; rewrite Hd; [constructor|]. intros n Hn. by apply elem_of_nil in Hn.
  - intros Hin.
    apply (chunks_dir_with_dirs fs ["uploads"; "sessions"] upload_id) in Hin
      as [Heq|Hin]; [| |simpl; auto].
    + unfold chunks_dir_of, os_path_join in Heq. simplify_eq.
    + destruct (inv_chunks_dir _ Hinv _ Hin) as (d0 & Hd0 & _).
      apply session_of_Some in Hd0. congruence.
  - intros u Hu Hin.
    apply (chunks_dir_with_dirs fs ["uploads"; "sessions"] u) in Hin
      as [Heq|Hin]; [|done|simpl; auto].
    unfold chunks_dir_of, os_path_join in Heq. simplify_eq.
Qed.

Lemma inv_after_chunk fs upload_id n content d :
  fs_inv fs → session_of fs upload_id = Some d →
  1 ≤ n ≤ sd_total_chunks d → n ∉ sd_uploaded_chunks d →
  fs_inv (fs_after_chunk fs upload_id n content d).
Proof.
  intros Hinv Hs Hr Hn.
  destruct (inv_sessions _ Hinv _ _ Hs) as [Hsorted Hch].
  assert (Hlook : ∀ u m b,
            files fs !! chunk_path_of u m = Some (Bytes b) →
            ∃ b', files (fs_after_chunk fs upload_id n content d)
                    !! chunk_path_of u m = Some (Bytes b')).
  { intros u m b Hb. simpl. rewrite lookup_insert_ne by done.
    destruct (decide (chunk_path_of upload_id n = chunk_path_of u m))
      as [->|Hne].
    - rewrite lookup_insert_eq. eauto.
    - rewrite lookup_insert_ne by done. eauto. }
  apply (inv_update fs _ upload_id (append_and_sort d n)); [done|..].
  - unfold fs_after_chunk. apply shape_put_session.
    + rewrite chunk_path_shape. apply shape_put_blob;
        [|auto|by apply (with_dirs_self _ (chunks_dir_of upload_id))].
      apply shape_with_dirs; [apply Hinv|simpl; auto].
    + simpl. apply elem_of_union_r. apply session_of_Some in Hs.
      by apply (shape_parent _ (inv_shape _ Hinv)) in Hs.
  - apply session_of_insert_eq.
  - intros u Hu. unfold fs_after_chunk.
    rewrite !session_of_with_file; [done|done|].
    intros Heq%session_file_of_inj. by subst.
  - done.
  - split; simpl.
    + by apply append_sort_sorted.
    + intros m [Hm| ->]%elem_of_append_sort.
      * destruct (Hch m Hm) as [Hrm [bs Hb]]. split; [done|]. by eapply Hlook.
      * split; [done|]. rewrite lookup_insert_ne by done.
        rewrite lookup_insert_eq. eauto.
  - intros _ Hnil. simpl in Hnil.
    assert (n ∈ merge_sort Z.le (sd_uploaded_chunks d ++ [n])) as Hin
      by (apply elem_of_append_sort; by right).
    rewrite Hnil in Hin. by apply elem_of_nil in Hin.
  - intros u Hu Hin.
    apply (chunks_dir_with_dirs fs (chunks_dir_of upload_id) u) in Hin
      as [Heq%chunks_dir_of_inj|Hin]; [by subst|done|simpl; auto].
Qed.

Lemma inv_after_assembly fs upload_id user d :
  fs_inv fs → fs_inv (fs_after_assembly fs upload_id user d).
Proof.
  intros Hinv. unfold fs_after_assembly. rewrite final_path_shape.
  by apply inv_after_blob.
Qed.

(** Removing an audio file. *)
Lemma inv_delete_audio fs a b :
  fs_inv fs →
  fs_inv (mkFS (delete ["uploads"; "audio"; a; b] (files fs)) (dirs fs)).
Proof.
  intros Hinv. apply (inv_frame fs); [done|..].
  - apply shape_delete, Hinv.
  - intros u. unfold session_of. simpl. by rewrite lookup_delete_ne.
  - intros u n c Hc. exists c. simpl. by rewrite lookup_delete_ne.
  - done.
Qed.

(** The cleanup of [complete_chunked_upload]: the chunk directory goes,
    then the session file. *)
Lemma inv_after_cleanup fs upload_id :
  fs_inv fs → fs_inv (fs_after_cleanup fs upload_id).
Proof.
  intros Hinv. split.
  - exact (shape_delete _ (session_file_of upload_id)
             (shape_rmtree _ (chunks_dir_of upload_id) (inv_shape _ Hinv))).
  - intros u d. rewrite session_of_after_cleanup.
    destruct (decide (u = upload_id)) as [->|Hne]; [done|]. intros Hu.
    destruct (inv_sessions _ Hinv _ _ Hu) as [Hsorted Hch]. split; [done|].
    intros n Hn. destruct (Hch n Hn) as [Hr [bs Hb]]. split; [done|].
    exists bs. simpl. rewrite lookup_delete_ne by done.
    apply map_lookup_filter_Some. split; [done|]. simpl.
    intros Hpre%chunks_dir_prefix_chunk. done.
  - intros u [Hpre Hu]%elem_of_filter.
    destruct (inv_chunks_dir _ Hinv _ Hu) as (d & Hd & Hne). exists d.
    split; [|done]. rewrite session_of_after_cleanup.
    destruct (decide (u = upload_id)) as [->|]; [|done]. by destruct Hpre.
Qed.

(* ===================================================================== *)
(** ** The endpoints on a consistent upload tree *)
(* ===================================================================== *)

Lemma start_chunked_upload_run fs upload_id file_id now filename file_size
    mime chunk_size user :
  fs_inv fs →
  start_chunked_upload upload_id file_id now filename file_size mime
    chunk_size user fs =
  if bool_decide (mime ∉ ALLOWED_AUDIO_TYPES) then
    (Raise (HTTPException HTTP_400_BAD_REQUEST
              [FLit "Unsupported file type: "; FStr mime]), fs)
  else if file_size >? MAX_FILE_SIZE then
    (Raise (HTTPException HTTP_413_REQUEST_ENTITY_TOO_LARGE
              [FLit "File too large. Maximum size: ";
               FInt (MAX_FILE_SIZE / (1024 * 1024)); FLit "MB"]), fs)
  else if chunk_size =? 0 then (Raise ZeroDivisionError, fs)
  else
    (Ok (start_response upload_id file_id file_size chunk_size),
     fs_after_start fs upload_id
       (new_session upload_id file_id now filename file_size mime chunk_size
          user)).
Proof.
  intros Hinv. pose proof (inv_shape _ Hinv) as Hsh. unfold start_chunked_upload.
  destruct (bool_decide (mime ∉ ALLOWED_AUDIO_TYPES)); [done|].
  erewrite bind_ok; [|reflexivity].
  destruct (file_size >? MAX_FILE_SIZE); [done|].
  erewrite bind_ok; [|reflexivity].
  unfold floordiv. destruct (chunk_size =? 0); [done|].
  erewrite bind_ok; [|reflexivity].
  erewrite bind_ok; [|apply run_makedirs; [done|simpl; auto]].
  assert (Hsh' : fs_shape (with_dirs ["uploads"; "sessions"] fs)).
  { apply shape_with_dirs; [done|simpl; auto]. }
  unfold os_path_join. simpl app.
  rewrite run_create_json; first done.
  - done.
  - by apply (session_file_not_dir _ upload_id).
  - apply shape_not_file; [done|]. simpl. tauto.
  - by apply (with_dirs_self _ ["uploads"; "sessions"]).
Qed.

(** *** [upload_chunk] *)

Lemma upload_chunk_duplicate fs upload_id n chunk user d :
  session_of fs upload_id = Some d →
  sd_user_id d = user →
  1 ≤ n ≤ sd_total_chunks d →
  n ∈ sd_uploaded_chunks d →
  upload_chunk upload_id n chunk user fs =
    (Ok {| cr_chunk_id := upload_id +:+ "-" +:+ str_of_Z n;
           cr_upload_id := upload_id;
           cr_chunk_number := n;
           cr_total_chunks := sd_total_chunks d;
           cr_bytes_received := 0;
           cr_message := "Chunk already uploaded" |}, fs).
Proof.
  intros Hs Hu Hr Hin. unfold upload_chunk, try_except.
  erewrite bind_ok; [|by eapply session_exists].
  erewrite bind_ok; [|reflexivity].
  erewrite bind_ok; [|by eapply session_read].
  rewrite (bool_decide_eq_false_2 (sd_user_id d ≠ user)) by (by intros HH; apply HH).
  erewrite bind_ok; [|reflexivity].
  replace ((n <? 1) || (n >? sd_total_chunks d)) with false by lia.
  erewrite bind_ok; [|reflexivity].
  by rewrite bool_decide_eq_true_2.
Qed.

Lemma upload_chunk_run fs upload_id n chunk user :
  fs_inv fs →
  upload_chunk upload_id n chunk user fs =
  match session_of fs upload_id with
  | None =>
      (Raise (wrapped_500 "Chunk upload failed: "
                (HTTPException HTTP_404_NOT_FOUND
                   [FLit "Upload session not found"])), fs)
  | Some d =>
      if bool_decide (sd_user_id d ≠ user) then
        (Raise (wrapped_500 "Chunk upload failed: "
                  (HTTPException HTTP_403_FORBIDDEN
                     [FLit "Access denied to upload session"])), fs)
      else if (n <? 1) || (n >? sd_total_chunks d) then
        (Raise (wrapped_500 "Chunk upload failed: "
                  (HTTPException HTTP_400_BAD_REQUEST
                     [FLit "Invalid chunk number. Expected 1-";
                      FInt (sd_total_chunks d)])), fs)
      else if bool_decide (n ∈ sd_uploaded_chunks d) then
        (Ok (chunk_response upload_id n d 0 "Chunk already uploaded"), fs)
      else
        (Ok (chunk_response upload_id n d
               (Z.of_nat (length (uf_content chunk)))
               "Chunk uploaded successfully"),
         fs_after_chunk fs upload_id n (uf_content chunk) d)
  end.
Proof.
  intros Hinv. pose proof (inv_shape _ Hinv) as Hsh. unfold upload_chunk, try_except.
  destruct (session_of fs upload_id) as [d|] eqn:Hs.
  2:{ erewrite bind_ok; [|by apply session_missing]. done. }
  erewrite bind_ok; [|by eapply session_exists].
  erewrite bind_ok; [|reflexivity].
  erewrite bind_ok; [|by eapply session_read].
  destruct (bool_decide (sd_user_id d ≠ user)); [done|].
  erewrite bind_ok; [|reflexivity].
  destruct ((n <? 1) || (n >? sd_total_chunks d)); [done|].
  erewrite bind_ok; [|reflexivity].
  destruct (bool_decide (n ∈ sd_uploaded_chunks d)); [done|].
  erewrite bind_ok; [|apply run_makedirs; [done|simpl; auto]].
  assert (H1 : fs_shape (with_dirs (chunks_dir_of upload_id) fs)).
  { apply shape_with_dirs; [done|simpl; auto]. }
  rewrite run_create_bytes; first last.
  { by apply (with_dirs_self _ (chunks_dir_of upload_id)). }
  { apply shape_not_file; [done|]. simpl. intros [_ ?]. done. }
  { apply shape_not_dir; [done|]. simpl. tauto. }
  { done. }
  rewrite run_create_json; first done.
  - done.
  - simpl. by apply (session_file_not_dir _ upload_id) in H1.
  - simpl. rewrite lookup_insert_ne by done. apply shape_not_file; [done|].
    simpl. tauto.
  - simpl. apply elem_of_union_r.
    apply session_of_Some in Hs. by apply (shape_parent _ Hsh) in Hs.
Qed.

(** *** [complete_chunked_upload] *)

Lemma run_assembly fs upload_id user d :
  (∀ n, n ∈ seqZ 1 (sd_total_chunks d) →
     ∃ b, files fs !! chunk_path_of upload_id n = Some (Bytes b)) →
  for_fold (seqZ 1 (sd_total_chunks d)) 0
    (λ chunk_num total_bytes,
       chunk_data ← read_bytes (chunk_path_of upload_id chunk_num);
       write_bytes (final_path_of d user) chunk_data;;
       mret (total_bytes + Z.of_nat (length chunk_data)))
    (mkFS (<[final_path_of d user := Bytes []]>
             (files (with_dirs ["uploads"; "audio"; user] fs)))
          (dirs (with_dirs ["uploads"; "audio"; user] fs))) =
  (Ok (Z.of_nat (length (assembled fs upload_id d))),
   fs_after_assembly fs upload_id user d).
Proof.
  intros Hch. simpl files. rewrite run_assemble; done.
Qed.

Lemma chunks_dir_after_assembly fs upload_id user d :
  chunks_dir_of upload_id ∈ dirs (fs_after_assembly fs upload_id user d)
  ↔ chunks_dir_of upload_id ∈ dirs fs.
Proof.
  unfold fs_after_assembly, with_file, with_dirs. cbn [dirs].
  rewrite elem_of_union, elem_of_list_to_set.
  split; [|by right]. intros [Hin|]; [|done].
  unfold ancestors_and_self, chunks_dir_of, os_path_join in Hin.
  simpl in Hin. rewrite !elem_of_cons, elem_of_nil in Hin.
  naive_solver.
Qed.

Lemma artifact_after_assembly fs upload_id user d :
  files (fs_after_assembly fs upload_id user d) !! final_path_of d user =
    Some (Bytes (assembled fs upload_id d)).
Proof. apply lookup_insert_eq. Qed.

Lemma artifact_after_cleanup fs upload_id user d :
  files (fs_after_cleanup (fs_after_assembly fs upload_id user d) upload_id)
    !! final_path_of d user = Some (Bytes (assembled fs upload_id d)).
Proof.
  unfold fs_after_cleanup. cbn [files].
  rewrite lookup_delete_ne by done.
  apply map_lookup_filter_Some. split; [apply artifact_after_assembly|].
  simpl. intros [k Hk]. unfold chunks_dir_of, os_path_join in Hk. by simplify_eq/=.
Qed.

Lemma complete_chunked_upload_run fs upload_id user :
  fs_inv fs →
  complete_chunked_upload upload_id user fs =
  match session_of fs upload_id with
  | None =>
      (Raise (wrapped_500 "Failed to complete chunked upload: "
                (HTTPException HTTP_404_NOT_FOUND
                   [FLit "Upload session not found"])), fs)
  | Some d =>
      if bool_decide (sd_user_id d ≠ user) then
        (Raise (wrapped_500 "Failed to complete chunked upload: "
                  (HTTPException HTTP_403_FORBIDDEN
                     [FLit "Access denied to upload session"])), fs)
      else if bool_decide (sd_uploaded_chunks d ≠ seqZ 1 (sd_total_chunks d)) then
        (Raise (wrapped_500 "Failed to complete chunked upload: "
                  (HTTPException HTTP_400_BAD_REQUEST
                     [FLit "Missing chunks: ";
                      FIntList (missing_chunks (seqZ 1 (sd_total_chunks d))
                                  (sd_uploaded_chunks d))])), fs)
      else if bool_decide (chunks_dir_of upload_id ∈ dirs fs) then
        (Ok (complete_response d
               (Z.of_nat (length (assembled fs upload_id d)))),
         fs_after_cleanup (fs_after_assembly fs upload_id user d) upload_id)
      else
        (Raise (wrapped_500 "Failed to complete chunked upload: "
                  (OSError FileNotFoundError (chunks_dir_of upload_id))),
         fs_after_assembly fs upload_id user d)
  end.
Proof.
  intros Hinv. pose proof (inv_shape _ Hinv) as Hsh. unfold complete_chunked_upload, try_except.
  destruct (session_of fs upload_id) as [d|] eqn:Hs.
  2:{ erewrite bind_ok; [|by apply session_missing]. done. }
  erewrite bind_ok; [|by eapply session_exists].
  erewrite bind_ok; [|reflexivity].
  erewrite bind_ok; [|by eapply session_read].
  destruct (bool_decide (sd_user_id d ≠ user)); [done|].
  erewrite bind_ok; [|reflexivity].
  destruct (bool_decide_reflect
              (sd_uploaded_chunks d ≠ seqZ 1 (sd_total_chunks d))) as [|Hfull];
    [done|].
  apply dec_stable in Hfull.
  erewrite bind_ok; [|reflexivity].
  erewrite bind_ok; [|apply run_makedirs; [done|simpl; auto]].
  assert (H1 : fs_shape (with_dirs ["uploads"; "audio"; user] fs)).
  { apply shape_with_dirs; [done|simpl; auto]. }
  fold (final_path_of d user).
  erewrite bind_ok.
  2:{ apply run_open_w.
      - done.
      - apply shape_not_dir; [done|]. simpl. tauto.
      - apply shape_not_file; [done|]. simpl. intros [_ ?]. done.
      - by apply (with_dirs_self _ ["uploads"; "audio"; user]). }
  destruct (inv_sessions _ Hinv _ _ Hs) as [_ Hch].
  erewrite bind_ok.
  2:{ apply run_assembly.
      intros n Hn. rewrite <- Hfull in Hn. by apply Hch. }
  pose proof (chunks_dir_after_assembly fs upload_id user d) as Hdir.
  destruct (decide (chunks_dir_of upload_id ∈ dirs fs)) as [Hin|Hnin].
  - rewrite (bool_decide_eq_true_2 _ Hin).
    erewrite bind_ok; [|apply run_rmtree; by apply Hdir].
    erewrite bind_ok.
    2:{ apply (run_remove _ _ (Text d)). simpl.
        apply map_lookup_filter_Some. split.
        - rewrite lookup_insert_ne by done. by apply session_of_Some.
        - simpl. apply chunks_dir_not_prefix_session. }
    done.
  - rewrite (bool_decide_eq_false_2 _ Hnin).
    erewrite bind_raise; [done|].
    apply run_rmtree_missing; [by rewrite Hdir|].
    simpl. rewrite lookup_insert_ne by done.
    apply shape_not_file; [done|]. simpl. intros [_ ?]. done.
Qed.

(** For a session whose record lists exactly [1 .. total_chunks]: with at
    least one chunk the call returns; with none the chunk directory was
    never created and its removal fails. *)
Lemma complete_full_outcome fs upload_id d :
  fs_inv fs →
  session_of fs upload_id = Some d →
  sd_uploaded_chunks d = seqZ 1 (sd_total_chunks d) →
  (1 ≤ sd_total_chunks d ∧
   complete_chunked_upload upload_id (sd_user_id d) fs =
     (Ok (complete_response d (Z.of_nat (length (assembled fs upload_id d)))),
      fs_after_cleanup (fs_after_assembly fs upload_id (sd_user_id d) d)
        upload_id)) ∨
  (sd_total_chunks d < 1 ∧
   complete_chunked_upload upload_id (sd_user_id d) fs =
     (Raise (wrapped_500 "Failed to complete chunked upload: "
               (OSError FileNotFoundError (chunks_dir_of upload_id))),
      fs_after_assembly fs upload_id (sd_user_id d) d)).
Proof.
  intros Hinv Hs Hfull.
  rewrite complete_chunked_upload_run, Hs by done.
  rewrite bool_decide_eq_false_2 by (by intros HH; apply HH).
  rewrite bool_decide_eq_false_2 by (by intros HH; apply HH).
  destruct (decide (1 ≤ sd_total_chunks d)) as [Hge|Hlt].
  - left. split; [done|]. rewrite bool_decide_eq_true_2; [done|].
    destruct (inv_sessions _ Hinv _ _ Hs) as [_ Hch].
    destruct (Hch 1) as [_ [b Hb]]; [rewrite Hfull, elem_of_seqZ; lia|].
    by apply (shape_parent _ (inv_shape _ Hinv)) in Hb.
  - right. split; [lia|]. rewrite bool_decide_eq_false_2; [done|].
    intros Hin. destruct (inv_chunks_dir _ Hinv _ Hin) as (d0 & Hd0 & Hne).
    assert (d0 = d) as -> by congruence.
    rewrite Hfull, seqZ_nil in Hne by lia. done.
Qed.

Lemma complete_full_session fs upload_id d :
  fs_inv fs →
  session_of fs upload_id = Some d →
  1 ≤ sd_total_chunks d →
  (∀ n, 1 ≤ n ≤ sd_total_chunks d → n ∈ sd_uploaded_chunks d) →
  complete_chunked_upload upload_id (sd_user_id d) fs =
    (Ok (complete_response d (Z.of_nat (length (assembled fs upload_id d)))),
     fs_after_cleanup (fs_after_assembly fs upload_id (sd_user_id d) d)
       upload_id).
Proof.
  intros Hinv Hs Htotal Hall.
  destruct (inv_sessions _ Hinv _ _ Hs) as [Hsorted Hch].
  assert (Hfull : sd_uploaded_chunks d = seqZ 1 (sd_total_chunks d)).
  { apply sorted_full_range; [done|]. intros n. split; [|by apply Hall].
    intros Hn. by apply Hch. }
  destruct (complete_full_outcome fs upload_id d Hinv Hs Hfull)
    as [[_ Hrun]|[Hlt _]]; [done|lia].
Qed.

(** The chunks the assembly reads are the chunk files [1 .. total_chunks],
    in this order. *)
Lemma stored_chunks_in_order fs upload_id d :
  fs_inv fs →
  session_of fs upload_id = Some d →
  sd_uploaded_chunks d = seqZ 1 (sd_total_chunks d) →
  let chunks := stored_chunk fs upload_id <$> seqZ 1 (sd_total_chunks d) in
  length chunks = Z.to_nat (sd_total_chunks d) ∧
  ∀ (i : nat) b, chunks !! i = Some b →
    files fs !! chunk_path_of upload_id (1 + Z.of_nat i) = Some (Bytes b).
Proof.
  intros Hinv Hs Hfull chunks. split.
  - unfold chunks. by rewrite length_fmap, length_seqZ.
  - intros i b Hi. unfold chunks in Hi. rewrite list_lookup_fmap in Hi.
    destruct (seqZ 1 (sd_total_chunks d) !! i) as [n|] eqn:Hn; [|done].
    apply lookup_seqZ in Hn as [-> Hlt]. simpl in Hi. injection Hi as <-.
    destruct (inv_sessions _ Hinv _ _ Hs) as [_ Hch].
    destruct (Hch (1 + Z.of_nat i)) as [_ [b Hb]];
      [rewrite Hfull, elem_of_seqZ; lia|].
    unfold stored_chunk. by rewrite Hb.
Qed.

(** *** [upload_audio_file] and [delete_upload] *)

Lemma validate_audio_file_pure file fs :
  (validate_audio_file file fs).2 = fs.
Proof.
  unfold validate_audio_file, when_, mbind, M_bind.
  destruct (negb _); [done|]. simpl.
  destruct (uf_filename file) as [[|c rest]|]; try done.
  by destruct (bool_decide _).
Qed.

Lemma upload_audio_file_run fs file_id file user :
  fs_inv fs →
  upload_audio_file file_id file user fs =
  match (validate_audio_file file fs).1 with
  | Raise e => (Raise e, fs)
  | Ok _ =>
      if size_too_large (uf_size file) then
        (Raise (HTTPException HTTP_413_REQUEST_ENTITY_TOO_LARGE
                  [FLit "File too large. Maximum size: ";
                   FInt (MAX_FILE_SIZE / (1024 * 1024)); FLit "MB"]), fs)
      else (Ok (audio_response file_id file), fs_after_audio fs file_id file user)
  end.
Proof.
  intros Hinv. pose proof (inv_shape _ Hinv) as Hsh. unfold upload_audio_file.
  pose proof (validate_audio_file_pure file fs) as Hpure.
  destruct (validate_audio_file file fs) as [[[]|e] fs0] eqn:Hv;
    simpl in Hpure; subst fs0; simpl.
  2:{ by erewrite bind_raise. }
  erewrite bind_ok; [|done].
  destruct (size_too_large (uf_size file)); [done|].
  erewrite bind_ok; [|reflexivity].
  unfold try_except.
  erewrite bind_ok; [|apply run_makedirs; [done|simpl; auto]].
  assert (H1 : fs_shape (with_dirs ["uploads"; "audio"; user] fs)).
  { apply shape_with_dirs; [done|simpl; auto]. }
  fold (audio_path_of file_id file user).
  rewrite run_create_bytes; first done.
  - done.
  - apply shape_not_dir; [done|]. simpl. tauto.
  - apply shape_not_file; [done|]. simpl. intros [_ ?]. done.
  - by apply (with_dirs_self _ ["uploads"; "audio"; user]).
Qed.

Lemma delete_upload_state fs file_id user :
  (delete_upload file_id user fs).2 = fs ∨
  ∃ name, (delete_upload file_id user fs).2 =
            mkFS (delete ["uploads"; "audio"; user; name] (files fs)) (dirs fs).
Proof.
  unfold delete_upload, try_except, os_path_join.
  erewrite bind_ok; [|reflexivity].
  assert (Hnames : ∃ rn, (if is_file fs ["uploads"; "audio"; user]
                             || is_dir fs ["uploads"; "audio"; user]
                          then os_listdir ["uploads"; "audio"; user]
                          else mret []) fs = (rn, fs)).
  { destruct (_ || _); [apply os_listdir_pure|by eexists]. }
  destruct Hnames as [[names|e] Hn].
  2:{ erewrite bind_raise; [|done]. by left. }
  erewrite bind_ok; [|done].
  destruct (find _ names) as [filename|]; [|by left].
  pose proof (os_remove_state fs (["uploads"; "audio"; user] ++ [filename]))
    as Hst.
  destruct (os_remove _ fs) as [[[]|e] fs1] eqn:Hrm; simpl in Hst.
  - erewrite bind_ok; [|done]. simpl. destruct Hst as [->| ->]; eauto.
  - erewrite bind_raise; [|done]. simpl. destruct Hst as [->| ->]; eauto.
Qed.

(* ===================================================================== *)
(** ** Every reachable state is consistent *)
(* ===================================================================== *)

Lemma step_inv fs fs' : fs_inv fs → step fs fs' → fs_inv fs'.
Proof.
  intros Hinv Hstep. destruct Hstep as
    [file_id file user r fs fs' Hrun
    |upload_id file_id now filename file_size mime chunk_size user r fs fs'
       Hfresh Hrun
    |upload_id n chunk user r fs fs' Hrun
    |upload_id user r fs fs' Hrun
    |file_id user r fs fs' Hrun].
  - rewrite upload_audio_file_run in Hrun by done.
    destruct (validate_audio_file file fs).1; [|by simplify_eq].
    destruct (size_too_large _); simplify_eq; [done|].
    by apply inv_after_blob.
  - rewrite start_chunked_upload_run in Hrun by done.
    repeat case_match; simplify_eq; try done.
    by apply inv_after_start.
  - rewrite upload_chunk_run in Hrun by done.
    destruct (session_of fs upload_id) as [d|] eqn:Hs; [|by simplify_eq].
    destruct (bool_decide (sd_user_id d ≠ user)); [by simplify_eq|].
    destruct ((n <? 1) || (n >? sd_total_chunks d)) eqn:Hr; [by simplify_eq|].
    destruct (bool_decide_reflect (n ∈ sd_uploaded_chunks d));
      simplify_eq; [done|].
    apply inv_after_chunk; [done..|lia|done].
  - rewrite complete_chunked_upload_run in Hrun by done.
    repeat case_match; simplify_eq; try done.
    + by apply inv_after_cleanup, inv_after_assembly.
    + by apply inv_after_assembly.
  - destruct (delete_upload_state fs file_id user) as [Hst|[name Hst]];
      rewrite Hrun in Hst; simpl in Hst; subst; [done|].
    by apply inv_delete_audio.
Qed.

Lemma reachable_inv fs : reachable fs → fs_inv fs.
Proof.
  induction 1 as [|fs fs' _ IH Hstep]; [apply inv_empty|by eapply step_inv].
Qed.

(** A step leaves a session record alone, adds one chunk number to it, or
    removes the whole record. *)
Lemma step_monotone fs fs' u d :
  fs_inv fs → step fs fs' → session_of fs u = Some d →
  session_of fs' u = None ∨
  ∃ d', session_of fs' u = Some d' ∧
        sd_total_chunks d' = sd_total_chunks d ∧
        sd_uploaded_chunks d ⊆ sd_uploaded_chunks d'.
Proof.
  intros Hinv Hstep Hu.
  assert (Hsame : session_of fs' u = session_of fs u →
    session_of fs' u = None ∨
    ∃ d', session_of fs' u = Some d' ∧
          sd_total_chunks d' = sd_total_chunks d ∧
          sd_uploaded_chunks d ⊆ sd_uploaded_chunks d').
  { intros ->. right. by exists d. }
  destruct Hstep as
    [file_id file user r fs fs' Hrun
    |upload_id file_id now filename file_size mime chunk_size user r fs fs'
       Hfresh Hrun
    |upload_id n chunk user r fs fs' Hrun
    |upload_id user r fs fs' Hrun
    |file_id user r fs fs' Hrun].
  - rewrite upload_audio_file_run in Hrun by done.
    destruct (validate_audio_file file fs).1; [|by simplify_eq; auto].
    destruct (size_too_large _); simplify_eq; [by auto|].
    apply Hsame. unfold fs_after_audio.
    by rewrite session_of_with_file by done.
  - rewrite start_chunked_upload_run in Hrun by done.
    repeat case_match; simplify_eq; try by auto.
    apply Hsame. unfold fs_after_start.
    rewrite session_of_with_file; [done|].
    intros Heq%session_file_of_inj. subst.
    apply session_of_Some in Hu. congruence.
  - rewrite upload_chunk_run in Hrun by done.
    destruct (session_of fs upload_id) as [d0|] eqn:Hs; [|by simplify_eq; auto].
    destruct (bool_decide (sd_user_id d0 ≠ user)); [by simplify_eq; auto|].
    destruct ((n <? 1) || (n >? sd_total_chunks d0)); [by simplify_eq; auto|].
    destruct (bool_decide (n ∈ sd_uploaded_chunks d0)); simplify_eq; [by auto|].
    destruct (decide (u = upload_id)) as [->|Hne].
    + right. exists (append_and_sort d n). assert (d0 = d) as -> by congruence.
      split; [apply session_of_insert_eq|]. split; [done|].
      intros m Hm. simpl. apply elem_of_append_sort. by left.
    + apply Hsame. unfold fs_after_chunk.
      rewrite !session_of_with_file; [done|done|].
      intros Heq%session_file_of_inj. by subst.
  - rewrite complete_chunked_upload_run in Hrun by done.
    repeat case_match; simplify_eq; try by auto.
    + rewrite session_of_after_cleanup.
      destruct (decide (u = upload_id)); [by left|].
      right. exists d. unfold fs_after_assembly.
      by rewrite session_of_with_file by done.
    + apply Hsame. unfold fs_after_assembly.
      by rewrite session_of_with_file by done.
  - destruct (delete_upload_state fs file_id user) as [Hst|[name Hst]];
      rewrite Hrun in Hst; simpl in Hst; subst; [by auto|].
    apply Hsame. unfold session_of. simpl. by rewrite lookup_delete_ne.
Qed.

Lemma reachable_after_start upload_id file_id now filename file_size mime
    chunk_size user fs :
  reachable fs →
  files fs !! session_file_of upload_id = None →
  reachable (start_chunked_upload upload_id file_id now filename file_size
               mime chunk_size user fs).2.
Proof.
  intros Hr Hfresh. eapply reachable_step; [done|].
  eapply step_start; [done|]. apply surjective_pairing.
Defined.

Lemma reachable_after_chunk upload_id n chunk user fs :
  reachable fs → reachable (upload_chunk upload_id n chunk user fs).2.
Proof.
  intros Hr. eapply reachable_step; [done|].
  eapply step_upload_chunk. apply surjective_pairing.
Defined.

Lemma reachable_ex_fs1 : reachable ex_fs1.
Proof. apply reachable_after_start; [apply reachable_empty|reflexivity]. Defined.

Lemma reachable_ex_fs2 : reachable ex_fs2.
Proof. apply reachable_after_chunk, reachable_ex_fs1. Defined.

Lemma reachable_ex_fs3 : reachable ex_fs3.
Proof. do 2 apply reachable_after_chunk. apply reachable_ex_fs2. Defined.

Lemma reachable_ex_fs_zero : reachable ex_fs_zero.
Proof. apply reachable_after_start; [apply reachable_empty|reflexivity]. Defined.

(** *** Arrival order *)

Lemma stored_chunk_after_chunk fs upload_id n content d m :
  0 ≤ n → 0 ≤ m →
  stored_chunk (fs_after_chunk fs upload_id n content d) upload_id m =
    if decide (m = n) then content else stored_chunk fs upload_id m.
Proof.
  intros Hn Hm. unfold stored_chunk, fs_after_chunk, with_file. cbn [files].
  rewrite lookup_insert_ne by done.
  case_decide as Hmn.
  - subst. by rewrite lookup_insert_eq.
  - rewrite lookup_insert_ne; [done|].
    intros Heq%chunk_path_of_inj; [|done..]. by subst.
Qed.

(** Whatever the order of the requests, each chunk number sent ends up
    recorded, with the bytes that were sent for it. *)
Lemma upload_all_spec upload_id user data order : ∀ fs d,
  fs_inv fs →
  session_of fs upload_id = Some d →
  sd_user_id d = user →
  NoDup order →
  (∀ n, n ∈ order → 1 ≤ n ≤ sd_total_chunks d ∧ n ∉ sd_uploaded_chunks d) →
  (∀ n, n ∈ sd_uploaded_chunks d → stored_chunk fs upload_id n = data n) →
  ∃ d',
    fs_inv (upload_all upload_id user data order fs) ∧
    session_of (upload_all upload_id user data order fs) upload_id = Some d' ∧
    sd_total_chunks d' = sd_total_chunks d ∧
    sd_user_id d' = sd_user_id d ∧
    final_path_of d' user = final_path_of d user ∧
    (∀ n, n ∈ sd_uploaded_chunks d' ↔ n ∈ sd_uploaded_chunks d ∨ n ∈ order) ∧
    (∀ n, n ∈ sd_uploaded_chunks d' →
       stored_chunk (upload_all upload_id user data order fs) upload_id n =
         data n).
Proof.
  induction order as [|n order IH]; intros fs d Hinv Hs Hu Hnd Hord Hst.
  - exists d. simpl. split_and!; try done.
    intros n. rewrite elem_of_nil. tauto.
  - apply NoDup_cons in Hnd as [Hnin Hnd].
    destruct (Hord n) as [Hr Hnew]; [by left|].
    destruct (inv_sessions _ Hinv _ _ Hs) as [_ Hch].
    simpl. rewrite upload_chunk_run, Hs by done.
    rewrite bool_decide_eq_false_2 by (by intros HH; apply HH).
    replace ((n <? 1) || (n >? sd_total_chunks d)) with false by lia.
    rewrite (bool_decide_eq_false_2 _ Hnew). cbn [snd].
    destruct (IH (fs_after_chunk fs upload_id n (data n) d)
                (append_and_sort d n)) as (d' & H1 & H2 & H3 & H4 & H5 & H6 & H7).
    + by apply inv_after_chunk.
    + apply session_of_insert_eq.
    + done.
    + done.
    + intros m Hm. destruct (Hord m) as [Hrm Hnm]; [by right|].
      split; [done|]. simpl. rewrite elem_of_append_sort.
      intros [?| ->]; done.
    + intros m. simpl. rewrite elem_of_append_sort. intros Hm.
      rewrite stored_chunk_after_chunk; [|lia|].
      * case_decide; [by subst|]. apply Hst. by destruct Hm.
      * destruct Hm as [Hm| ->]; [|lia]. apply Hch in Hm. lia.
    + exists d'. split_and!; try done.
      intros m. rewrite H6. simpl. rewrite elem_of_append_sort, elem_of_cons.
      tauto.
Qed.

(* ===================================================================== *)
(** ** Properties of the chunked upload session manager *)
(* ===================================================================== *)

(** C1: in a reachable state, for a session in which every chunk number
    of [1 .. total_chunks] has been accepted, [complete_chunked_upload]
    called by the owner writes the final artifact as the concatenation of
    the stored chunk files in ascending chunk number, [1, 2, ...,
    total_chunks], each exactly once; the state being any reachable one,
    the order in which the chunks arrived plays no role.  When the session
    has at least one chunk the call returns, and the [file_size] it
    returns is the length of that concatenation.  When it has none
    ([total_chunks < 1]) the call returns nothing: after the empty
    artifact is written, [shutil.rmtree] fails on the chunk directory,
    which only [upload_chunk] creates, and the caller receives an
    HTTP 500. *)
Theorem complete_assembles_in_order fs upload_id d :
  reachable fs →
  session_of fs upload_id = Some d →
  (∀ n, 1 ≤ n ≤ sd_total_chunks d → n ∈ sd_uploaded_chunks d) →
  ∃ chunks res fs',
    length chunks = Z.to_nat (sd_total_chunks d) ∧
    (∀ (i : nat) b, chunks !! i = Some b →
       files fs !! chunk_path_of upload_id (1 + Z.of_nat i) = Some (Bytes b)) ∧
    complete_chunked_upload upload_id (sd_user_id d) fs = (res, fs') ∧
    files fs' !! final_path_of d (sd_user_id d) = Some (Bytes (concat chunks)) ∧
    (1 ≤ sd_total_chunks d →
       ∃ r, res = Ok r ∧ ur_file_size r = Z.of_nat (length (concat chunks))) ∧
    (sd_total_chunks d < 1 →
       res = Raise (HTTPException 500
                      [FLit "Failed to complete chunked upload: ";
                       FExn (OSError FileNotFoundError
                               (chunks_dir_of upload_id))])).
Proof.
  intros Hinv%reachable_inv Hs Hall.
  destruct (inv_sessions _ Hinv _ _ Hs) as [Hsorted Hch].
  assert (Hfull : sd_uploaded_chunks d = seqZ 1 (sd_total_chunks d)).
  { apply sorted_full_range; [done|]. intros n. split; [|by apply Hall].
    intros Hn. by apply Hch. }
  destruct (stored_chunks_in_order fs upload_id d Hinv Hs Hfull) as [Hlen Hfiles].
  exists (stored_chunk fs upload_id <$> seqZ 1 (sd_total_chunks d)).
  destruct (complete_full_outcome fs upload_id d Hinv Hs Hfull)
    as [[Hge Hrun]|[Hlt Hrun]]; eexists _, _; (split; [exact Hlen|]);
    (split; [exact Hfiles|]); (split; [exact Hrun|]).
  - split; [apply artifact_after_cleanup|]. split; [|lia].
    intros _. by eexists.
  - split; [apply artifact_after_assembly|]. split; [lia|done].
Qed.

Lemma complete_assembles_in_order_witness :
  ∃ chunks res fs',
    length chunks = 3%nat ∧
    (∀ (i : nat) b, chunks !! i = Some b →
       files ex_fs3 !! chunk_path_of "U1" (1 + Z.of_nat i) = Some (Bytes b)) ∧
    complete_chunked_upload "U1" "alice" ex_fs3 = (res, fs') ∧
    files fs' !! ["uploads"; "audio"; "alice"; "F1.wav"] =
      Some (Bytes (concat chunks)) ∧
    (1 ≤ 3 →
       ∃ r, res = Ok r ∧ ur_file_size r = Z.of_nat (length (concat chunks))) ∧
    (3 < 1 →
       res = Raise (HTTPException 500
                      [FLit "Failed to complete chunked upload: ";
                       FExn (OSError FileNotFoundError (chunks_dir_of "U1"))])).
Proof.
  apply (complete_assembles_in_order ex_fs3 "U1"
           (mk_session "U1" "F1" "alice" "rec.wav" 12 "audio/wav" 5 3 [1; 2; 3]
              "t0")).
  - apply reachable_ex_fs3.
  - vm_compute. reflexivity.
  - simpl. intros n Hn.
    assert (n = 1 ∨ n = 2 ∨ n = 3) as [-> | [-> | ->]] by lia;
      repeat constructor.
Defined.

(** The session of [ex_fs_zero] has no chunks: all of them (none) have
    been accepted, and [complete_chunked_upload] returns no result. *)
Lemma complete_zero_chunks_does_not_return :
  ∃ d,
    session_of ex_fs_zero "U0" = Some d ∧
    (∀ n, 1 ≤ n ≤ sd_total_chunks d → n ∈ sd_uploaded_chunks d) ∧
    ∀ r fs', complete_chunked_upload "U0" (sd_user_id d) ex_fs_zero ≠ (Ok r, fs').
Proof.
  eexists. split; [vm_compute; reflexivity|]. split.
  - simpl. intros n Hn. lia.
  - intros r fs'. vm_compute. discriminate.
Qed.

(** The chunks of [ex_fs3] arrived in the order 2, 1, 3; the artifact holds
    the bytes of chunk 1, then 2, then 3. *)
Lemma complete_ex_fs3 :
  ∃ r fs',
    complete_chunked_upload "U1" "alice" ex_fs3 = (Ok r, fs') ∧
    ur_file_size r = 5 ∧
    files fs' !! ["uploads"; "audio"; "alice"; "F1.wav"] =
      Some (Bytes [Byte.x43; Byte.x44; Byte.x41; Byte.x42; Byte.x45]).
Proof. eexists _, _. split_and!; vm_compute; reflexivity. Qed.

(** X24: a session is started, its chunks arrive in any order [order] (a
    permutation of [1 .. total_chunks]), then the upload is completed: the
    artifact is the concatenation of the bytes sent for chunks
    [1, 2, ..., total_chunks], in that order. *)
Lemma arrival_order_is_irrelevant fs upload_id file_id now filename file_size
    mime chunk_size user data order :
  reachable fs →
  files fs !! session_file_of upload_id = None →
  mime ∈ ALLOWED_AUDIO_TYPES →
  file_size ≤ MAX_FILE_SIZE →
  0 < chunk_size →
  0 < file_size →
  order ≡ₚ seqZ 1 ((file_size + chunk_size - 1) / chunk_size) →
  let d := new_session upload_id file_id now filename file_size mime
             chunk_size user in
  let fs1 := (start_chunked_upload upload_id file_id now filename file_size
                mime chunk_size user fs).2 in
  let fs2 := upload_all upload_id user data order fs1 in
  let artifact := concat (data <$> seqZ 1 (sd_total_chunks d)) in
  ∃ r fs3,
    complete_chunked_upload upload_id user fs2 = (Ok r, fs3) ∧
    files fs3 !! final_path_of d user = Some (Bytes artifact) ∧
    ur_file_size r = Z.of_nat (length artifact).
Proof.
  intros Hinv%reachable_inv Hfresh Hmime Hsize Hcs Hfs Hperm d fs1 fs2 artifact.
  assert (Hfs1 : fs1 = fs_after_start fs upload_id d).
  { unfold fs1. rewrite start_chunked_upload_run by done.
    rewrite bool_decide_eq_false_2 by (by intros HH; apply HH).
    replace (file_size >? MAX_FILE_SIZE) with false by lia.
    by replace (chunk_size =? 0) with false by lia. }
  assert (Htotal : 1 ≤ sd_total_chunks d).
  { simpl. apply Z.div_le_lower_bound; lia. }
  destruct (upload_all_spec upload_id user data order fs1 d)
    as (d' & H1 & H2 & H3 & H4 & H5 & H6 & H7).
  - rewrite Hfs1. by apply inv_after_start.
  - rewrite Hfs1. apply session_of_insert_eq.
  - done.
  - rewrite Hperm. apply NoDup_seqZ.
  - intros n. rewrite Hperm, elem_of_seqZ. simpl. rewrite elem_of_nil.
    intros ?. split; [lia|tauto].
  - simpl. intros n Hn. by apply elem_of_nil in Hn.
  - fold fs2 in H1, H2, H7.
    assert (Hall : ∀ n, 1 ≤ n ≤ sd_total_chunks d' → n ∈ sd_uploaded_chunks d').
    { intros n Hn. apply H6. right. rewrite Hperm, elem_of_seqZ.
      rewrite H3 in Hn. simpl in *. lia. }
    assert (Hart : assembled fs2 upload_id d' = artifact).
    { unfold assembled, artifact. rewrite H3. f_equal.
      apply list_fmap_ext. intros i n Hn.
      apply H7, Hall. apply lookup_seqZ in Hn. rewrite H3. lia. }
    eexists _, _. split_and!.
    + replace user with (sd_user_id d') by (by rewrite H4).
      apply complete_full_session; [done..|by rewrite H3|done].
    + rewrite H4. cbn [sd_user_id d]. rewrite <- H5, <- Hart.
      apply artifact_after_cleanup.
    + simpl. by rewrite Hart.
Qed.

(** C2: in a reachable state, [complete_chunked_upload] called by the
    owner of a session returns exactly when the recorded chunk numbers are
    [1 .. total_chunks] and there is at least one chunk.  When they are
    not [1 .. total_chunks] it raises an HTTPException 400 that lists the
    missing chunk numbers: strictly ascending, and exactly the numbers of
    [1, total_chunks] that are not recorded; that exception is caught by
    the function's own [except Exception] handler, so the caller receives
    an HTTP 500 whose detail wraps it.  Nothing is written. *)
Theorem complete_outcome_by_completeness fs upload_id d :
  reachable fs →
  session_of fs upload_id = Some d →
  ((∃ r fs', complete_chunked_upload upload_id (sd_user_id d) fs = (Ok r, fs'))
   ↔ sd_uploaded_chunks d = seqZ 1 (sd_total_chunks d) ∧
     1 ≤ sd_total_chunks d) ∧
  (sd_uploaded_chunks d ≠ seqZ 1 (sd_total_chunks d) →
   ∃ missing,
     complete_chunked_upload upload_id (sd_user_id d) fs =
       (Raise (HTTPException 500
                 [FLit "Failed to complete chunked upload: ";
                  FExn (HTTPException 400
                          [FLit "Missing chunks: "; FIntList missing])]),
        fs) ∧
     StronglySorted Z.lt missing ∧
     missing ≠ [] ∧
     ∀ n, n ∈ missing ↔ 1 ≤ n ≤ sd_total_chunks d ∧ n ∉ sd_uploaded_chunks d).
Proof.
  intros Hinv%reachable_inv Hs.
  assert (Hincomplete :
    sd_uploaded_chunks d ≠ seqZ 1 (sd_total_chunks d) →
    complete_chunked_upload upload_id (sd_user_id d) fs =
      (Raise (HTTPException 500
                [FLit "Failed to complete chunked upload: ";
                 FExn (HTTPException 400
                         [FLit "Missing chunks: ";
                          FIntList (missing_chunks (seqZ 1 (sd_total_chunks d))
                                      (sd_uploaded_chunks d))])]),
       fs)).
  { intros Hne. rewrite complete_chunked_upload_run, Hs by done.
    rewrite bool_decide_eq_false_2 by (by intros HH; apply HH).
    by rewrite bool_decide_eq_true_2. }
  split.
  - split.
    + intros (r & fs' & Hrun).
      destruct (decide (sd_uploaded_chunks d = seqZ 1 (sd_total_chunks d)))
        as [Hfull|Hne].
      * split; [done|].
        destruct (complete_full_outcome fs upload_id d Hinv Hs Hfull)
          as [[Hge _]|[_ Hrun']]; [done|congruence].
      * rewrite Hincomplete in Hrun by done. discriminate.
    + intros [Hfull Hge].
      destruct (complete_full_outcome fs upload_id d Hinv Hs Hfull)
        as [[_ Hrun]|[Hlt _]]; [eauto|lia].
  - intros Hne.
    exists (missing_chunks (seqZ 1 (sd_total_chunks d)) (sd_uploaded_chunks d)).
    split_and!.
    + by apply Hincomplete.
    + apply missing_chunks_sorted.
    + intros Hnil. apply Hne.
      destruct (inv_sessions _ Hinv _ _ Hs) as [Hsorted Hch].
      apply sorted_full_range; [done|]. intros n. split.
      * intros Hn. by apply Hch.
      * intros Hr. destruct (decide (n ∈ sd_uploaded_chunks d)); [done|].
        assert (n ∈ missing_chunks (seqZ 1 (sd_total_chunks d))
                  (sd_uploaded_chunks d)) as Hin
          by by apply elem_of_missing_chunks.
        rewrite Hnil in Hin. by apply elem_of_nil in Hin.
    + apply elem_of_missing_chunks.
Qed.

Lemma complete_outcome_by_completeness_witness :
  ((∃ r fs', complete_chunked_upload "U1" "alice" ex_fs2 = (Ok r, fs'))
   ↔ [2] = seqZ 1 3 ∧ 1 ≤ 3) ∧
  ([2] ≠ seqZ 1 3 →
   ∃ missing,
     complete_chunked_upload "U1" "alice" ex_fs2 =
       (Raise (HTTPException 500
                 [FLit "Failed to complete chunked upload: ";
                  FExn (HTTPException 400
                          [FLit "Missing chunks: "; FIntList missing])]),
        ex_fs2) ∧
     StronglySorted Z.lt missing ∧
     missing ≠ [] ∧
     ∀ n, n ∈ missing ↔ 1 ≤ n ≤ 3 ∧ n ∉ [2]).
Proof.
  apply (complete_outcome_by_completeness ex_fs2 "U1"
           (mk_session "U1" "F1" "alice" "rec.wav" 12 "audio/wav" 5 3 [2] "t0")).
  - apply reachable_ex_fs2.
  - vm_compute. reflexivity.
Defined.

(** C3: in a reachable state, when the owner of a session sends a chunk
    number that the session has already recorded, whatever the bytes,
    [upload_chunk] returns normally with [bytes_received = 0] and the
    message "Chunk already uploaded", and the file system (chunk files and
    session record alike) is left exactly as it was. *)
Theorem duplicate_chunk_is_noop fs upload_id n chunk d :
  reachable fs →
  session_of fs upload_id = Some d →
  n ∈ sd_uploaded_chunks d →
  upload_chunk upload_id n chunk (sd_user_id d) fs =
    (Ok {| cr_chunk_id := upload_id +:+ "-" +:+ str_of_Z n;
           cr_upload_id := upload_id;
           cr_chunk_number := n;
           cr_total_chunks := sd_total_chunks d;
           cr_bytes_received := 0;
           cr_message := "Chunk already uploaded" |}, fs).
Proof.
  intros Hinv%reachable_inv Hs Hn.
  destruct (inv_sessions _ Hinv _ _ Hs) as [_ Hch].
  destruct (Hch n Hn) as [Hr _].
  by apply upload_chunk_duplicate.
Qed.

Lemma duplicate_chunk_is_noop_witness :
  upload_chunk "U1" 2 (ex_chunk [Byte.x5a]) "alice" ex_fs2 =
    (Ok {| cr_chunk_id := "U1-2";
           cr_upload_id := "U1";
           cr_chunk_number := 2;
           cr_total_chunks := 3;
           cr_bytes_received := 0;
           cr_message := "Chunk already uploaded" |}, ex_fs2).
Proof.
  apply (duplicate_chunk_is_noop ex_fs2 "U1" 2 (ex_chunk [Byte.x5a])
           (mk_session "U1" "F1" "alice" "rec.wav" 12 "audio/wav" 5 3 [2] "t0")).
  - apply reachable_ex_fs2.
  - vm_compute. reflexivity.
  - vm_compute. left.
Defined.

(** C4: in a reachable state, for an allowed mime type, a declared size
    within the limit and every [chunk_size > 0], [start_chunked_upload]
    returns, and the [total_chunks] it returns and stores in the session
    record is the ceiling of [file_size / chunk_size]. *)
Theorem start_total_chunks_is_ceiling fs upload_id file_id now filename
    file_size mime chunk_size user :
  reachable fs →
  mime ∈ ALLOWED_AUDIO_TYPES →
  file_size ≤ MAX_FILE_SIZE →
  0 < chunk_size →
  ∃ r fs' d,
    start_chunked_upload upload_id file_id now filename file_size mime
      chunk_size user fs = (Ok r, fs') ∧
    is_ceiling file_size chunk_size (st_total_chunks r) ∧
    session_of fs' upload_id = Some d ∧
    sd_total_chunks d = st_total_chunks r ∧
    sd_uploaded_chunks d = [].
Proof.
  intros Hinv%reachable_inv Hmime Hsize Hcs.
  rewrite start_chunked_upload_run by done.
  rewrite bool_decide_eq_false_2 by (by intros HH; apply HH).
  replace (file_size >? MAX_FILE_SIZE) with false by lia.
  replace (chunk_size =? 0) with false by lia.
  eexists _, _, _. split; [done|]. split; [|split; [apply session_of_insert_eq|done]].
  unfold is_ceiling. simpl.
  pose proof (Z.div_mod (file_size + chunk_size - 1) chunk_size ltac:(lia)).
  pose proof (Z.mod_pos_bound (file_size + chunk_size - 1) chunk_size Hcs).
  nia.
Qed.

Lemma start_total_chunks_is_ceiling_witness :
  ∃ r fs' d,
    start_chunked_upload "U1" "F1" "t0" "rec.wav" 12000000 "audio/wav" 5000000
      "alice" empty_fs = (Ok r, fs') ∧
    is_ceiling 12000000 5000000 (st_total_chunks r) ∧
    session_of fs' "U1" = Some d ∧
    sd_total_chunks d = st_total_chunks r ∧
    sd_uploaded_chunks d = [].
Proof.
  apply (start_total_chunks_is_ceiling empty_fs).
  - apply reachable_empty.
  - vm_compute. tauto.
  - vm_compute. discriminate.
  - lia.
Defined.

(** C5: what [upload_chunk] does in the three failure cases.  The
    HTTPException 404, 403 or 400 it raises is caught by its own
    [except Exception] handler, so the caller receives an HTTP 500 whose
    detail wraps the original exception; the file system is unchanged. *)
Theorem upload_chunk_failures_become_500 fs upload_id n chunk user :
  reachable fs →
  (session_of fs upload_id = None →
     upload_chunk upload_id n chunk user fs =
       (Raise (HTTPException 500
                 [FLit "Chunk upload failed: ";
                  FExn (HTTPException 404 [FLit "Upload session not found"])]),
        fs)) ∧
  (∀ d, session_of fs upload_id = Some d → sd_user_id d ≠ user →
     upload_chunk upload_id n chunk user fs =
       (Raise (HTTPException 500
                 [FLit "Chunk upload failed: ";
                  FExn (HTTPException 403
                          [FLit "Access denied to upload session"])]),
        fs)) ∧
  (∀ d, session_of fs upload_id = Some d → sd_user_id d = user →
     ¬ (1 ≤ n ≤ sd_total_chunks d) →
     upload_chunk upload_id n chunk user fs =
       (Raise (HTTPException 500
                 [FLit "Chunk upload failed: ";
                  FExn (HTTPException 400
                          [FLit "Invalid chunk number. Expected 1-";
                           FInt (sd_total_chunks d)])]),
        fs)).
Proof.
  intros Hinv%reachable_inv. split_and!.
  - intros Hs. by rewrite upload_chunk_run, Hs by done.
  - intros d Hs Hu. rewrite upload_chunk_run, Hs by done.
    by rewrite bool_decide_eq_true_2.
  - intros d Hs Hu Hr. rewrite upload_chunk_run, Hs by done.
    rewrite bool_decide_eq_false_2 by (by intros HH; apply HH).
    by replace ((n <? 1) || (n >? sd_total_chunks d)) with true by lia.
Qed.

Lemma upload_chunk_failures_become_500_witness :
  (session_of ex_fs1 "invalid-upload-id" = None →
     upload_chunk "invalid-upload-id" 1 (ex_chunk [Byte.x64]) "alice" ex_fs1 =
       (Raise (HTTPException 500
                 [FLit "Chunk upload failed: ";
                  FExn (HTTPException 404 [FLit "Upload session not found"])]),
        ex_fs1)) ∧
  (∀ d, session_of ex_fs1 "invalid-upload-id" = Some d →
     sd_user_id d ≠ "alice" →
     upload_chunk "invalid-upload-id" 1 (ex_chunk [Byte.x64]) "alice" ex_fs1 =
       (Raise (HTTPException 500
                 [FLit "Chunk upload failed: ";
                  FExn (HTTPException 403
                          [FLit "Access denied to upload session"])]),
        ex_fs1)) ∧
  (∀ d, session_of ex_fs1 "invalid-upload-id" = Some d →
     sd_user_id d = "alice" →
     ¬ (1 ≤ 1 ≤ sd_total_chunks d) →
     upload_chunk "invalid-upload-id" 1 (ex_chunk [Byte.x64]) "alice" ex_fs1 =
       (Raise (HTTPException 500
                 [FLit "Chunk upload failed: ";
                  FExn (HTTPException 400
                          [FLit "Invalid chunk number. Expected 1-";
                           FInt (sd_total_chunks d)])]),
        ex_fs1)).
Proof.
  apply (upload_chunk_failures_become_500 ex_fs1 "invalid-upload-id" 1
           (ex_chunk [Byte.x64]) "alice"), reachable_ex_fs1.
Defined.

(** The three failures on [ex_fs1]: an unknown upload id, a requester who
    is not the owner, a chunk number out of range. *)
Lemma upload_chunk_failures_ex_fs1 :
  (upload_chunk "invalid-upload-id" 1 (ex_chunk [Byte.x64]) "alice" ex_fs1).1 =
    Raise (HTTPException 500
             [FLit "Chunk upload failed: ";
              FExn (HTTPException 404 [FLit "Upload session not found"])]) ∧
  (upload_chunk "U1" 1 (ex_chunk [Byte.x64]) "bob" ex_fs1).1 =
    Raise (HTTPException 500
             [FLit "Chunk upload failed: ";
              FExn (HTTPException 403
                      [FLit "Access denied to upload session"])]) ∧
  (upload_chunk "U1" 4 (ex_chunk [Byte.x64]) "alice" ex_fs1).1 =
    Raise (HTTPException 500
             [FLit "Chunk upload failed: ";
              FExn (HTTPException 400
                      [FLit "Invalid chunk number. Expected 1-"; FInt 3])]).
Proof. split_and!; vm_compute; reflexivity. Qed.

(** C6 as stated fails: a negative [chunk_size] is accepted.  With
    [file_size = 10] and [chunk_size = -3] the call returns normally with
    [total_chunks = -2] and the session record is written. *)
Lemma start_negative_chunk_size_accepted :
  -3 ≤ 0 ∧
  ∃ r fs',
    start_chunked_upload "U1" "F1" "t0" "rec.wav" 10 "audio/wav" (-3) "alice"
      empty_fs = (Ok r, fs') ∧
    st_total_chunks r = -2 ∧
    is_Some (session_of fs' "U1").
Proof.
  split; [lia|]. eexists _, _. split; [vm_compute; reflexivity|].
  split; [reflexivity|]. vm_compute. eauto.
Qed.

(** C6, amended: [start_chunked_upload] does not validate [chunk_size].
    For an allowed mime type and a size within the limit, [chunk_size = 0]
    makes the call fail with [ZeroDivisionError] (not an HTTP 400) before
    anything is written, so no session is created; a negative
    [chunk_size] is accepted: the call returns normally and writes a
    session record with
    [total_chunks = (file_size + chunk_size - 1) // chunk_size]. *)
Theorem start_chunk_size_not_validated fs upload_id file_id now filename
    file_size mime chunk_size user :
  reachable fs →
  mime ∈ ALLOWED_AUDIO_TYPES →
  file_size ≤ MAX_FILE_SIZE →
  chunk_size ≤ 0 →
  (chunk_size = 0 →
     start_chunked_upload upload_id file_id now filename file_size mime
       chunk_size user fs = (Raise ZeroDivisionError, fs)) ∧
  (chunk_size < 0 →
     ∃ fs',
       start_chunked_upload upload_id file_id now filename file_size mime
         chunk_size user fs =
         (Ok (start_response upload_id file_id file_size chunk_size), fs') ∧
       session_of fs' upload_id =
         Some (new_session upload_id file_id now filename file_size mime
                 chunk_size user)).
Proof.
  intros Hinv%reachable_inv Hmime Hsize Hcs.
  rewrite start_chunked_upload_run by done.
  rewrite bool_decide_eq_false_2 by (by intros HH; apply HH).
  replace (file_size >? MAX_FILE_SIZE) with false by lia.
  split; intros Hc.
  - by replace (chunk_size =? 0) with true by lia.
  - replace (chunk_size =? 0) with false by lia.
    eexists. split; [done|]. apply session_of_insert_eq.
Qed.

Lemma start_chunk_size_not_validated_witness :
  (-3 = 0 →
     start_chunked_upload "U1" "F1" "t0" "rec.wav" 10 "audio/wav" (-3) "alice"
       empty_fs = (Raise ZeroDivisionError, empty_fs)) ∧
  (-3 < 0 →
     ∃ fs',
       start_chunked_upload "U1" "F1" "t0" "rec.wav" 10 "audio/wav" (-3)
         "alice" empty_fs =
         (Ok (start_response "U1" "F1" 10 (-3)), fs') ∧
       session_of fs' "U1" =
         Some (new_session "U1" "F1" "t0" "rec.wav" 10 "audio/wav" (-3)
                 "alice")).
Proof.
  apply (start_chunk_size_not_validated empty_fs).
  - apply reachable_empty.
  - vm_compute. tauto.
  - vm_compute. discriminate.
  - lia.
Defined.


(** The instance at the two library calls is [complete_chunked_upload]. *)
Lemma complete_with_library_calls upload_id user :
  complete_chunked_upload_with shutil_rmtree os_remove upload_id user =
    complete_chunked_upload upload_id user.
Proof. reflexivity. Qed.




(** C8: in every reachable state the chunk numbers recorded for a session
    are duplicate-free and lie in [1, total_chunks]; and a request never
    removes a chunk number from a session record: the record either keeps
    all of them (with the same total_chunks) or is deleted as a whole. *)
Theorem received_chunks_invariant fs :
  reachable fs →
  (∀ upload_id d, session_of fs upload_id = Some d →
     NoDup (sd_uploaded_chunks d) ∧
     ∀ n, n ∈ sd_uploaded_chunks d → 1 ≤ n ≤ sd_total_chunks d) ∧
  (∀ fs' upload_id d, step fs fs' → session_of fs upload_id = Some d →
     session_of fs' upload_id = None ∨
     ∃ d', session_of fs' upload_id = Some d' ∧
           sd_total_chunks d' = sd_total_chunks d ∧
           sd_uploaded_chunks d ⊆ sd_uploaded_chunks d').
Proof.
  intros Hinv%reachable_inv. split.
  - intros upload_id d Hs.
    destruct (inv_sessions _ Hinv _ _ Hs) as [Hsorted Hch]. split.
    + by apply sorted_lt_NoDup.
    + intros n Hn. by apply Hch.
  - intros fs' upload_id d Hstep Hs. by eapply step_monotone.
Qed.

Lemma received_chunks_invariant_witness :
  (∀ upload_id d, session_of ex_fs2 upload_id = Some d →
     NoDup (sd_uploaded_chunks d) ∧
     ∀ n, n ∈ sd_uploaded_chunks d → 1 ≤ n ≤ sd_total_chunks d) ∧
  (∀ fs' upload_id d, step ex_fs2 fs' → session_of ex_fs2 upload_id = Some d →
     session_of fs' upload_id = None ∨
     ∃ d', session_of fs' upload_id = Some d' ∧
           sd_total_chunks d' = sd_total_chunks d ∧
           sd_uploaded_chunks d ⊆ sd_uploaded_chunks d').
Proof. apply (received_chunks_invariant ex_fs2), reachable_ex_fs2. Defined.

(** C9: in a reachable state, when the validation of the uploaded file
    passes and its [size] attribute is [None] or [0], [upload_audio_file]
    performs no size check: it returns normally whatever the length of the
    content, stores the whole content, and reports its length. *)
Theorem upload_audio_unchecked_size fs file_id file user :
  reachable fs →
  (validate_audio_file file fs).1 = Ok tt →
  uf_size file = None ∨ uf_size file = Some 0 →
  ∃ r fs',
    upload_audio_file file_id file user fs = (Ok r, fs') ∧
    ur_file_size r = Z.of_nat (length (uf_content file)) ∧
    files fs' !! audio_path_of file_id file user =
      Some (Bytes (uf_content file)).
Proof.
  intros Hinv%reachable_inv Hv Hsz.
  rewrite upload_audio_file_run, Hv by done.
  assert (size_too_large (uf_size file) = false) as ->.
  { by destruct Hsz as [-> | ->]. }
  eexists _, _. split; [done|]. split; [done|]. apply lookup_insert_eq.
Qed.

Lemma upload_audio_unchecked_size_witness :
  ∃ r fs',
    upload_audio_file "F9" ex_audio "alice" empty_fs = (Ok r, fs') ∧
    ur_file_size r = Z.of_nat (length (uf_content ex_audio)) ∧
    files fs' !! audio_path_of "F9" ex_audio "alice" =
      Some (Bytes (uf_content ex_audio)).
Proof.
  apply (upload_audio_unchecked_size empty_fs "F9" ex_audio "alice").
  - apply reachable_empty.
  - vm_compute. reflexivity.
  - left. reflexivity.
Defined.

(** C10: a session started with [file_size = 0] (allowed mime type,
    [chunk_size > 0], fresh identifier) gets [total_chunks = 0], but an
    immediate [complete_chunked_upload] by its owner does not return: the
    empty artifact is written, then [shutil.rmtree] finds no chunk
    directory (only [upload_chunk] creates it), and the caller receives an
    HTTP 500.  The session record is left in place. *)
Theorem zero_size_upload_cannot_complete fs upload_id file_id now filename
    mime chunk_size user :
  reachable fs →
  files fs !! session_file_of upload_id = None →
  mime ∈ ALLOWED_AUDIO_TYPES →
  0 < chunk_size →
  ∃ r fs1 fs2 d,
    start_chunked_upload upload_id file_id now filename 0 mime chunk_size
      user fs = (Ok r, fs1) ∧
    st_total_chunks r = 0 ∧
    complete_chunked_upload upload_id user fs1 =
      (Raise (HTTPException 500
                [FLit "Failed to complete chunked upload: ";
                 FExn (OSError FileNotFoundError (chunks_dir_of upload_id))]),
       fs2) ∧
    session_of fs2 upload_id = Some d ∧
    files fs2 !! final_path_of d user = Some (Bytes []).
Proof.
  intros Hinv%reachable_inv Hfresh Hmime Hcs.
  set (d := new_session upload_id file_id now filename 0 mime chunk_size user).
  assert (Htotal : sd_total_chunks d = 0).
  { simpl. apply Z.div_small. lia. }
  exists (start_response upload_id file_id 0 chunk_size),
    (fs_after_start fs upload_id d),
    (fs_after_assembly (fs_after_start fs upload_id d) upload_id user d), d.
  assert (Hinv1 : fs_inv (fs_after_start fs upload_id d))
    by by apply inv_after_start.
  assert (Hs1 : session_of (fs_after_start fs upload_id d) upload_id = Some d)
    by apply session_of_insert_eq.
  assert (Hnodir : chunks_dir_of upload_id ∉ dirs (fs_after_start fs upload_id d)).
  { unfold fs_after_start, with_file, with_dirs. cbn [dirs].
    rewrite elem_of_union, elem_of_list_to_set. intros [Hin|Hin].
    - unfold ancestors_and_self, chunks_dir_of, os_path_join in Hin.
      simpl in Hin. rewrite !elem_of_cons, elem_of_nil in Hin. naive_solver.
    - destruct (inv_chunks_dir _ Hinv _ Hin) as (d0 & Hd0 & _).
      apply session_of_Some in Hd0. congruence. }
  split_and!.
  - rewrite start_chunked_upload_run by done.
    rewrite bool_decide_eq_false_2 by (by intros HH; apply HH).
    replace (0 >? MAX_FILE_SIZE) with false by done.
    by replace (chunk_size =? 0) with false by lia.
  - done.
  - rewrite complete_chunked_upload_run, Hs1 by done.
    rewrite bool_decide_eq_false_2 by (by intros HH; apply HH).
    rewrite bool_decide_eq_false_2
      by (intros HH; apply HH; by rewrite Htotal).
    by rewrite (bool_decide_eq_false_2 _ Hnodir).
  - unfold fs_after_assembly. by rewrite session_of_with_file by done.
  - rewrite artifact_after_assembly. unfold assembled. by rewrite Htotal.
Qed.

Lemma zero_size_upload_cannot_complete_witness :
  ∃ r fs1 fs2 d,
    start_chunked_upload "U0" "F0" "t0" "empty.wav" 0 "audio/wav" CHUNK_SIZE
      "alice" empty_fs = (Ok r, fs1) ∧
    st_total_chunks r = 0 ∧
    complete_chunked_upload "U0" "alice" fs1 =
      (Raise (HTTPException 500
                [FLit "Failed to complete chunked upload: ";
                 FExn (OSError FileNotFoundError (chunks_dir_of "U0"))]),
       fs2) ∧
    session_of fs2 "U0" = Some d ∧
    files fs2 !! final_path_of d "alice" = Some (Bytes []).
Proof.
  apply (zero_size_upload_cannot_complete empty_fs).
  - apply reachable_empty.
  - reflexivity.
  - vm_compute. tauto.
  - reflexivity.
Defined.

(* ===================================================================== *)
(** ** Further properties of the upload module *)
(* ===================================================================== *)

(** *** Listing the audio directory of a user *)

Lemma child_name_Some d p name :
  child_name d p = Some name ↔ p = d ++ [name].
Proof.
  unfold child_name, parent. split.
  - case_bool_decide as Hp; [|done]. intros [l' ->]%last_Some.
    rewrite length_app in Hp. simpl in Hp.
    replace (length l' + 1 - 1)%nat with (length l') in Hp by lia.
    rewrite take_app_length in Hp. by subst.
  - intros ->. rewrite length_app. simpl.
    replace (length d + 1 - 1)%nat with (length d) by lia.
    rewrite take_app_length, bool_decide_eq_true_2 by done.
    apply last_snoc.
Qed.

Lemma audio_listing fs user :
  fs_shape fs →
  ∃ names,
    (if is_file fs ["uploads"; "audio"; user]
        || is_dir fs ["uploads"; "audio"; user]
     then os_listdir ["uploads"; "audio"; user] else mret [])
      fs = (Ok names, fs) ∧
    ∀ name, name ∈ names ↔
            is_Some (files fs !! ["uploads"; "audio"; user; name]).
Proof.
  intros Hsh.
  assert (Hnofile : files fs !! ["uploads"; "audio"; user] = None).
  { apply shape_not_file; [done|]. simpl. intros [_ ?]. done. }
  unfold is_file, is_dir. rewrite Hnofile.
  rewrite (bool_decide_eq_false_2 (is_Some None)) by (by intros [??]).
  rewrite (bool_decide_eq_false_2 (_ = [])) by done. simpl.
  destruct (decide (["uploads"; "audio"; user] ∈ dirs fs)) as [Hd|Hd].
  - rewrite (bool_decide_eq_true_2 _ Hd).
    unfold os_listdir, mbind, M_bind, get_fs, is_dir.
    rewrite (bool_decide_eq_true_2 _ Hd), orb_true_r.
    eexists. split; [reflexivity|]. intros name.
    rewrite list_elem_of_omap. split.
    + intros (p & Hp & ->%child_name_Some). simpl in Hp.
      apply elem_of_elements, elem_of_union in Hp as [Hp|Hp].
      * by apply elem_of_dom in Hp.
      * by apply (shape_dirs _ Hsh) in Hp.
    + intros Hf. exists ["uploads"; "audio"; user; name]. split.
      * apply elem_of_elements, elem_of_union_l. by apply elem_of_dom.
      * by apply child_name_Some.
  - rewrite (bool_decide_eq_false_2 _ Hd).
    exists []. split; [reflexivity|]. intros name. split.
    + by intros ?%elem_of_nil.
    + intros [c Hc]. apply (shape_parent _ Hsh) in Hc. done.
Qed.

Lemma find_match fs user file_id names :
  (∀ name, name ∈ names ↔
           is_Some (files fs !! ["uploads"; "audio"; user; name])) →
  match find (λ filename, str_startswith filename file_id) names with
  | Some name => audio_match fs user file_id name
  | None => ∀ name, ¬ audio_match fs user file_id name
  end.
Proof.
  intros Hnames.
  destruct (find _ names) as [name|] eqn:Hfind.
  - apply find_some in Hfind as [Hin Hpre]. split; [|done].
    by apply Hnames, list_elem_of_In.
  - intros name [Hin Hpre].
    apply Hnames, list_elem_of_In in Hin.
    by rewrite (find_none _ _ Hfind _ Hin) in Hpre.
Qed.

(** *** [delete_upload] and [get_upload_status] *)

Lemma delete_upload_run fs file_id user :
  fs_shape fs →
  (∃ name,
     audio_match fs user file_id name ∧
     delete_upload file_id user fs =
       (Ok "File deleted successfully",
        mkFS (delete ["uploads"; "audio"; user; name] (files fs)) (dirs fs))) ∨
  ((∀ name, ¬ audio_match fs user file_id name) ∧
   delete_upload file_id user fs =
     (Raise (wrapped_500 "Failed to delete file: "
               (HTTPException HTTP_404_NOT_FOUND [FLit "File not found"])),
      fs)).
Proof.
  intros Hsh. destruct (audio_listing fs user Hsh) as (names & Hrun & Hnames).
  pose proof (find_match fs user file_id names Hnames) as Hfind.
  unfold delete_upload, try_except, os_path_join.
  erewrite bind_ok; [|reflexivity].
  erewrite bind_ok; [|exact Hrun].
  destruct (find _ names) as [name|].
  - left. exists name. split; [done|]. destruct Hfind as [[c Hc] _].
    erewrite bind_ok; [|by apply (run_remove _ _ c)]. done.
  - right. done.
Qed.

Lemma get_upload_status_run fs file_id user :
  fs_shape fs → audio_bytes fs →
  (∃ name b,
     audio_match fs user file_id name ∧
     files fs !! ["uploads"; "audio"; user; name] = Some (Bytes b) ∧
     get_upload_status file_id user fs =
       (Ok {| sr_file_id := file_id;
              sr_status := "completed";
              sr_file_size := Z.of_nat (length b);
              sr_file_path := ["uploads"; "audio"; user; name] |}, fs)) ∨
  ((∀ name, ¬ audio_match fs user file_id name) ∧
   get_upload_status file_id user fs =
     (Raise (HTTPException HTTP_404_NOT_FOUND [FLit "File not found"]), fs)).
Proof.
  intros Hsh Hbytes.
  destruct (audio_listing fs user Hsh) as (names & Hrun & Hnames).
  pose proof (find_match fs user file_id names Hnames) as Hfind.
  unfold get_upload_status, os_path_join.
  erewrite bind_ok; [|reflexivity].
  erewrite bind_ok; [|exact Hrun].
  destruct (find _ names) as [name|].
  - left. destruct Hfind as [[c Hc] Hpre].
    destruct (Hbytes _ _ _ Hc) as [b ->]. exists name, b.
    split; [split; [by eexists|done]|]. split; [done|].
    erewrite bind_ok; [done|].
    unfold os_path_getsize, mbind, M_bind, get_fs. simpl. by rewrite Hc.
  - right. done.
Qed.

(** *** The shapes a request can give the upload tree *)

Lemma step_cases fs fs' :
  fs_inv fs → step fs fs' →
  fs' = fs ∨
  (∃ user name content,
     fs' = with_file ["uploads"; "audio"; user; name] (Bytes content)
             (with_dirs ["uploads"; "audio"; user] fs)) ∨
  (∃ upload_id d,
     files fs !! session_file_of upload_id = None ∧
     sd_uploaded_chunks d = [] ∧
     fs' = fs_after_start fs upload_id d) ∨
  (∃ upload_id n content d,
     session_of fs upload_id = Some d ∧
     (1 ≤ n ≤ sd_total_chunks d) ∧ (n ∉ sd_uploaded_chunks d) ∧
     fs' = fs_after_chunk fs upload_id n content d) ∨
  (∃ upload_id user name content d,
     session_of fs upload_id = Some d ∧
     fs' = fs_after_cleanup
             (with_file ["uploads"; "audio"; user; name] (Bytes content)
                (with_dirs ["uploads"; "audio"; user] fs)) upload_id) ∨
  (∃ user name,
     fs' = mkFS (delete ["uploads"; "audio"; user; name] (files fs)) (dirs fs)).
Proof.
  intros Hinv Hstep. destruct Hstep as
    [file_id file user r fs fs' Hrun
    |upload_id file_id now filename file_size mime chunk_size user r fs fs'
       Hfresh Hrun
    |upload_id n chunk user r fs fs' Hrun
    |upload_id user r fs fs' Hrun
    |file_id user r fs fs' Hrun].
  - rewrite upload_audio_file_run in Hrun by done.
    destruct (validate_audio_file file fs).1; [|by simplify_eq; auto].
    destruct (size_too_large _); simplify_eq; [by auto|].
    right. left. by eexists _, _, _.
  - rewrite start_chunked_upload_run in Hrun by done.
    repeat case_match; simplify_eq; try by auto.
    do 2 right. left.
    exists upload_id, (new_session upload_id file_id now filename file_size
                         mime chunk_size user).
    split_and!; done.
  - rewrite upload_chunk_run in Hrun by done.
    destruct (session_of fs upload_id) as [d|] eqn:Hs; [|by simplify_eq; auto].
    destruct (bool_decide (sd_user_id d ≠ user)); [by simplify_eq; auto|].
    destruct ((n <? 1) || (n >? sd_total_chunks d)) eqn:Hr;
      [by simplify_eq; auto|].
    destruct (bool_decide_reflect (n ∈ sd_uploaded_chunks d));
      simplify_eq; [by auto|].
    do 3 right. left. exists upload_id, n, (uf_content chunk), d.
    split_and!; [done|lia|lia|done|done].
  - rewrite complete_chunked_upload_run in Hrun by done.
    destruct (session_of fs upload_id) as [d|] eqn:Hs; [|by simplify_eq; auto].
    repeat case_match; simplify_eq; try by auto.
    + do 4 right. left. unfold fs_after_assembly. rewrite final_path_shape.
      by eexists _, _, _, _, _.
    + right. left. unfold fs_after_assembly. rewrite final_path_shape.
      by eexists _, _, _.
  - destruct (delete_upload_state fs file_id user) as [Hst|[name Hst]];
      rewrite Hrun in Hst; simpl in Hst; subst; [by auto|].
    do 5 right. by eexists _, _.
Qed.

(** *** Audio files hold bytes *)

Lemma audio_bytes_after_blob fs user name content :
  audio_bytes fs →
  audio_bytes (with_file ["uploads"; "audio"; user; name] (Bytes content)
                 (with_dirs ["uploads"; "audio"; user] fs)).
Proof.
  intros Hb u m c. simpl.
  intros [[_ <-]|[_ Hc]]%lookup_insert_Some; [by eexists|by eapply Hb].
Qed.

Lemma reachable_audio_bytes fs : reachable fs → audio_bytes fs.
Proof.
  induction 1 as [|fs fs' Hreach IH Hstep].
  { intros u m c. simpl. by rewrite lookup_empty. }
  destruct (step_cases fs fs' (reachable_inv _ Hreach) Hstep)
    as [->|[(user & name & content & ->)
       |[(upload_id & d & _ & _ & ->)
       |[(upload_id & n & content & d & _ & _ & _ & ->)
       |[(upload_id & user & name & content & d & _ & ->)
       |(user & name & ->)]]]]].
  - done.
  - by apply audio_bytes_after_blob.
  - intros u m c. simpl. rewrite lookup_insert_ne by done. apply IH.
  - intros u m c. simpl. rewrite !lookup_insert_ne by done. apply IH.
  - intros u m c. simpl.
    intros [_ [Hc _]%map_lookup_filter_Some]%lookup_delete_Some.
    by eapply (audio_bytes_after_blob fs user name content).
  - intros u m c. simpl. intros [_ Hc]%lookup_delete_Some. by eapply IH.
Qed.

(** *** The chunk store holds the recorded chunks, and nothing else *)

Lemma chunks_recorded_frame fs fs' :
  chunks_recorded fs →
  (∀ u name c, files fs' !! ["uploads"; "chunks"; u; name] = Some c →
               files fs !! ["uploads"; "chunks"; u; name] = Some c) →
  (∀ u name c, files fs' !! ["uploads"; "chunks"; u; name] = Some c →
               session_of fs' u = session_of fs u) →
  chunks_recorded fs'.
Proof.
  intros Hrec Hfiles Hsess u name c Hc.
  destruct (Hrec u name c (Hfiles _ _ _ Hc)) as (d & n & b & Hd & Hn & -> & ->).
  exists d, n, b. split_and!; try done. by rewrite (Hsess _ _ _ Hc).
Qed.

Lemma chunks_recorded_after_blob fs user name content :
  chunks_recorded fs →
  chunks_recorded (with_file ["uploads"; "audio"; user; name] (Bytes content)
                     (with_dirs ["uploads"; "audio"; user] fs)).
Proof.
  intros Hrec. apply (chunks_recorded_frame fs); [done| |].
  - intros u m c. simpl. by rewrite lookup_insert_ne.
  - intros u m c _. by rewrite session_of_with_file.
Qed.

Lemma chunks_recorded_after_cleanup fs upload_id :
  chunks_recorded fs → chunks_recorded (fs_after_cleanup fs upload_id).
Proof.
  intros Hrec u m c. simpl.
  intros [_ [Hc Hpre]%map_lookup_filter_Some]%lookup_delete_Some.
  simpl in Hpre.
  destruct (Hrec u m c Hc) as (d & n & b & Hd & Hn & -> & ->).
  exists d, n, b. split_and!; try done.
  rewrite session_of_after_cleanup.
  destruct (decide (u = upload_id)) as [->|]; [|done].
  destruct Hpre. by exists ["chunk_" +:+ format_04d n].
Qed.

Lemma reachable_chunks_recorded fs : reachable fs → chunks_recorded fs.
Proof.
  induction 1 as [|fs fs' Hreach IH Hstep].
  { intros u m c. simpl. by rewrite lookup_empty. }
  destruct (step_cases fs fs' (reachable_inv _ Hreach) Hstep)
    as [->|[(user & name & content & ->)
       |[(upload_id & d & Hfresh & _ & ->)
       |[(upload_id & n & content & d & Hs & _ & _ & ->)
       |[(upload_id & user & name & content & d & _ & ->)
       |(user & name & ->)]]]]].
  - done.
  - by apply chunks_recorded_after_blob.
  - apply (chunks_recorded_frame fs); [done| |].
    + intros u m c. simpl. by rewrite lookup_insert_ne.
    + intros u m c. simpl. rewrite lookup_insert_ne by done. intros Hc.
      destruct (IH u m c Hc) as (d0 & _ & _ & Hd0 & _).
      unfold fs_after_start. rewrite session_of_with_file; [done|].
      intros Heq%session_file_of_inj. subst.
      apply session_of_Some in Hd0. congruence.
  - intros u m c. simpl. rewrite lookup_insert_ne by done.
    intros [[Heq <-]|[Hne Hc]]%lookup_insert_Some.
    + unfold chunk_path_of, chunks_dir_of, os_path_join in Heq.
      simplify_eq/=. exists (append_and_sort d n), n, content.
      split_and!; try done.
      * apply session_of_insert_eq.
      * simpl. apply elem_of_append_sort. by right.
    + destruct (IH u m c Hc) as (d0 & n0 & b & Hd0 & Hn0 & -> & ->).
      destruct (decide (u = upload_id)) as [->|Hu].
      * assert (d0 = d) as -> by congruence.
        exists (append_and_sort d n), n0, b. split_and!; try done.
        -- apply session_of_insert_eq.
        -- simpl. apply elem_of_append_sort. by left.
      * exists d0, n0, b. split_and!; try done. unfold fs_after_chunk.
        rewrite !session_of_with_file; [done|done|].
        intros Heq%session_file_of_inj. by subst.
  - by apply chunks_recorded_after_cleanup, chunks_recorded_after_blob.
  - apply (chunks_recorded_frame fs); [done| |].
    + intros u m c. simpl. by intros [_ Hc]%lookup_delete_Some.
    + intros u m c _. unfold session_of. simpl. by rewrite lookup_delete_ne.
Qed.

(** *** How a step changes one session record *)

Lemma step_session fs fs' u d :
  fs_inv fs → step fs fs' → session_of fs u = Some d →
  session_of fs' u = None ∨
  session_of fs' u = Some d ∨
  ∃ n, (1 ≤ n ≤ sd_total_chunks d) ∧ (n ∉ sd_uploaded_chunks d) ∧
       session_of fs' u = Some (append_and_sort d n).
Proof.
  intros Hinv Hstep Hu.
  destruct (step_cases fs fs' Hinv Hstep)
    as [->|[(user & name & content & ->)
       |[(upload_id & d0 & Hfresh & _ & ->)
       |[(upload_id & n & content & d0 & Hs & Hr & Hn & ->)
       |[(upload_id & user & name & content & d0 & _ & ->)
       |(user & name & ->)]]]]].
  - by right; left.
  - right; left. by rewrite session_of_with_file.
  - right; left. unfold fs_after_start. rewrite session_of_with_file; [done|].
    intros Heq%session_file_of_inj. subst.
    apply session_of_Some in Hu. congruence.
  - destruct (decide (u = upload_id)) as [->|Hne].
    + assert (d0 = d) as -> by congruence.
      right; right. exists n. split_and!; [lia|lia|done|].
      apply session_of_insert_eq.
    + right; left. unfold fs_after_chunk.
      rewrite !session_of_with_file; [done|done|].
      intros Heq%session_file_of_inj. by subst.
  - rewrite session_of_after_cleanup.
    destruct (decide (u = upload_id)); [by left|].
    right; left. by rewrite session_of_with_file.
  - right; left. unfold session_of. simpl. by rewrite lookup_delete_ne.
Qed.

(** *** Letter case and dots in file names *)

Lemma lower_ascii_idemp c : lower_ascii (lower_ascii c) = lower_ascii c.
Proof. destruct c as [[] [] [] [] [] [] [] []]; reflexivity. Qed.

Lemma str_lower_idemp s : str_lower (str_lower s) = str_lower s.
Proof.
  induction s as [|c s IH]; simpl; [done|]. by rewrite lower_ascii_idemp, IH.
Qed.

Lemma lower_ascii_dot c : Ascii.eqb (lower_ascii c) "." = Ascii.eqb c ".".
Proof. destruct c as [[] [] [] [] [] [] [] []]; reflexivity. Qed.

Lemma has_char_lower s : has_char "." (str_lower s) = has_char "." s.
Proof.
  induction s as [|c s IH]; simpl; [done|]. by rewrite lower_ascii_dot, IH.
Qed.

Lemma rfind_aux_absent c s i last :
  has_char c s = false → rfind_aux c s i last = last.
Proof.
  revert i last. induction s as [|a s IH]; intros i last; simpl; [done|].
  intros [Ha Hs]%orb_false_elim. rewrite Ha. by apply IH.
Qed.

Lemma rfind_aux_lower_bound c s i last :
  -1 ≤ last → 0 ≤ i → -1 ≤ rfind_aux c s i last.
Proof.
  revert i last. induction s as [|a s IH]; intros i last Hl Hi; simpl; [done|].
  apply IH; [|lia]. destruct (Ascii.eqb a c); lia.
Qed.

Lemma splitext_without_dot s :
  has_char "." s = false → (os_path_splitext s).2 = "".
Proof.
  intros Hs. unfold os_path_splitext, rfind.
  rewrite (rfind_aux_absent "." s) by done.
  pose proof (rfind_aux_lower_bound "/" s 0 (-1) ltac:(lia) ltac:(lia)).
  by replace (rfind_aux "/" s 0 (-1) <? -1) with false by lia.
Qed.

(** X1: the check of [validate_audio_file] ignores the letter case of the
    file name: a file is accepted, or rejected with the same error, exactly
    as the same file with its name in lower case. *)
Theorem validate_audio_file_ignores_case file fs :
  validate_audio_file (with_lower_filename file) fs =
    validate_audio_file file fs.
Proof.
  unfold validate_audio_file, with_lower_filename. simpl.
  destruct (uf_filename file) as [[|c rest]|]; simpl; try done.
  by rewrite lower_ascii_idemp, str_lower_idemp.
Qed.

(** X2: [validate_audio_file] rejects a non-empty file name that contains
    no dot, whatever the (allowed) content type: the extension is then the
    empty string, which is not a valid extension, and an HTTPException 400
    is raised. *)
Theorem validate_rejects_name_without_dot file name fs :
  content_type_allowed (uf_content_type file) = true →
  uf_filename file = Some name →
  name ≠ "" →
  has_char "." name = false →
  validate_audio_file file fs =
    (Raise (HTTPException 400
              [FLit "Invalid file extension: "; FStr "";
               FLit ". Allowed extensions: ";
               FJoin ", " (elements valid_extensions)]), fs).
Proof.
  intros Hct Hname Hne Hdot. unfold validate_audio_file.
  rewrite Hct, Hname. simpl. erewrite bind_ok; [|reflexivity].
  destruct name as [|c rest]; [done|].
  rewrite splitext_without_dot by (by rewrite has_char_lower).
  rewrite bool_decide_eq_true_2; [done|]. by vm_compute.
Qed.

Lemma validate_rejects_name_without_dot_witness :
  validate_audio_file
    (mk_UploadFile (Some "recording") (Some "audio/wav") None []) empty_fs =
    (Raise (HTTPException 400
              [FLit "Invalid file extension: "; FStr "";
               FLit ". Allowed extensions: ";
               FJoin ", " (elements valid_extensions)]), empty_fs).
Proof.
  apply (validate_rejects_name_without_dot
           (mk_UploadFile (Some "recording") (Some "audio/wav") None [])
           "recording" empty_fs).
  - vm_compute. reflexivity.
  - reflexivity.
  - discriminate.
  - reflexivity.
Defined.

(** *** Single-shot uploads *)

Lemma reachable_after_audio file_id file user fs :
  reachable fs → reachable (upload_audio_file file_id file user fs).2.
Proof.
  intros Hr. eapply reachable_step; [done|].
  eapply step_upload_audio. apply surjective_pairing.
Defined.

Lemma reachable_after_complete upload_id user fs :
  reachable fs → reachable (complete_chunked_upload upload_id user fs).2.
Proof.
  intros Hr. eapply reachable_step; [done|].
  eapply step_complete. apply surjective_pairing.
Defined.

Lemma reachable_ex_fs_audio : reachable ex_fs_audio.
Proof. apply reachable_after_audio, reachable_empty. Defined.

Lemma reachable_ex_fs4 : reachable ex_fs4.
Proof. apply reachable_after_complete, reachable_ex_fs3. Defined.

Lemma validate_without_filename file fs :
  content_type_allowed (uf_content_type file) = true →
  uf_filename file = None ∨ uf_filename file = Some "" →
  validate_audio_file file fs = (Ok tt, fs).
Proof.
  intros Hct Hname. unfold validate_audio_file. rewrite Hct. simpl.
  erewrite bind_ok; [|reflexivity]. by destruct Hname as [-> | ->].
Qed.

(** X3: [upload_audio_file] accepts a file that has no name, or an empty
    one, with an allowed content type: the extension check is skipped, the
    file is stored as [<file_id>.webm] in the user's directory and the
    response reports that name. *)
Theorem upload_audio_file_default_name fs file_id file user :
  reachable fs →
  content_type_allowed (uf_content_type file) = true →
  uf_filename file = None ∨ uf_filename file = Some "" →
  size_too_large (uf_size file) = false →
  ∃ r fs',
    upload_audio_file file_id file user fs = (Ok r, fs') ∧
    ur_filename r = file_id +:+ ".webm" ∧
    files fs' !! ["uploads"; "audio"; user; file_id +:+ ".webm"] =
      Some (Bytes (uf_content file)).
Proof.
  intros Hinv%reachable_inv Hct Hname Hsz.
  rewrite upload_audio_file_run by done.
  rewrite validate_without_filename, Hsz by done. simpl.
  eexists _, _. split; [done|].
  unfold audio_response, fs_after_audio, audio_path_of.
  destruct Hname as [-> | ->]; simpl; (split; [done|apply lookup_insert_eq]).
Qed.

Lemma upload_audio_file_default_name_witness :
  ∃ r fs',
    upload_audio_file "F7" ex_unnamed "alice" empty_fs = (Ok r, fs') ∧
    ur_filename r = "F7" +:+ ".webm" ∧
    files fs' !! ["uploads"; "audio"; "alice"; "F7" +:+ ".webm"] =
      Some (Bytes (uf_content ex_unnamed)).
Proof.
  apply (upload_audio_file_default_name empty_fs "F7" ex_unnamed "alice").
  - apply reachable_empty.
  - vm_compute. reflexivity.
  - left. reflexivity.
  - reflexivity.
Defined.

(** X4: an error of [validate_audio_file] leaves [upload_audio_file] as it
    was raised: the check runs before the [try] block, so the exception is
    not wrapped into an HTTP 500, and nothing has been written. *)
Theorem upload_audio_file_validation_error fs file_id file user e :
  (validate_audio_file file fs).1 = Raise e →
  upload_audio_file file_id file user fs = (Raise e, fs).
Proof.
  intros Hv. unfold upload_audio_file.
  pose proof (validate_audio_file_pure file fs) as Hpure.
  destruct (validate_audio_file file fs) as [r fs0] eqn:Hrun.
  simpl in Hv, Hpure. subst.
  by erewrite bind_raise.
Qed.

Lemma upload_audio_file_validation_error_witness :
  upload_audio_file "F8"
    (mk_UploadFile (Some "notes.txt") (Some "text/plain") None [])
    "alice" empty_fs =
    (Raise (HTTPException 400
              [FLit "Unsupported file type: "; FStrOpt (Some "text/plain");
               FLit ". Allowed types: ";
               FJoin ", " (elements ALLOWED_AUDIO_TYPES)]), empty_fs).
Proof.
  apply (upload_audio_file_validation_error empty_fs "F8"
           (mk_UploadFile (Some "notes.txt") (Some "text/plain") None [])
           "alice").
  vm_compute. reflexivity.
Defined.

(** X5: when the file passes validation and its declared size is above
    [MAX_FILE_SIZE], [upload_audio_file] raises HTTP 413 unwrapped and
    writes nothing, however many bytes the body has. *)
Theorem upload_audio_file_too_large fs file_id file user n :
  (validate_audio_file file fs).1 = Ok tt →
  uf_size file = Some n →
  MAX_FILE_SIZE < n →
  upload_audio_file file_id file user fs =
    (Raise (HTTPException 413
              [FLit "File too large. Maximum size: "; FInt 100; FLit "MB"]),
     fs).
Proof.
  intros Hv Hsz Hn. unfold upload_audio_file.
  pose proof (validate_audio_file_pure file fs) as Hpure.
  destruct (validate_audio_file file fs) as [r fs0] eqn:Hrun.
  simpl in Hv, Hpure. subst.
  erewrite bind_ok; [|exact Hrun].
  rewrite Hsz. unfold size_too_large.
  assert (0 < MAX_FILE_SIZE) by done.
  replace (negb (n =? 0) && (n >? MAX_FILE_SIZE)) with true by lia.
  by erewrite bind_raise.
Qed.

Lemma upload_audio_file_too_large_witness :
  upload_audio_file "F8"
    (mk_UploadFile (Some "talk.wav") (Some "audio/wav") (Some 104857601) [])
    "alice" empty_fs =
    (Raise (HTTPException 413
              [FLit "File too large. Maximum size: "; FInt 100; FLit "MB"]),
     empty_fs).
Proof.
  apply (upload_audio_file_too_large empty_fs "F8"
           (mk_UploadFile (Some "talk.wav") (Some "audio/wav")
              (Some 104857601) [])
           "alice" 104857601).
  - vm_compute. reflexivity.
  - reflexivity.
  - vm_compute. reflexivity.
Defined.

(** X6: a successful [upload_audio_file] writes exactly one file, the one
    at its audio path: every other file, every session record and every
    stored chunk is as before. *)
Theorem upload_audio_file_writes_one_file fs file_id file user :
  reachable fs →
  (validate_audio_file file fs).1 = Ok tt →
  size_too_large (uf_size file) = false →
  ∃ fs',
    upload_audio_file file_id file user fs =
      (Ok (audio_response file_id file), fs') ∧
    files fs' =
      <[audio_path_of file_id file user := Bytes (uf_content file)]> (files fs) ∧
    (∀ upload_id, session_of fs' upload_id = session_of fs upload_id) ∧
    (∀ upload_id n, stored_chunk fs' upload_id n = stored_chunk fs upload_id n).
Proof.
  intros Hinv%reachable_inv Hv Hsz.
  rewrite upload_audio_file_run, Hv, Hsz by done.
  eexists. split; [done|]. split; [done|]. split.
  - intros upload_id. unfold fs_after_audio.
    by rewrite session_of_with_file.
  - intros upload_id n. unfold stored_chunk, fs_after_audio. simpl.
    by rewrite lookup_insert_ne.
Qed.

Lemma upload_audio_file_writes_one_file_witness :
  ∃ fs',
    upload_audio_file "F9" ex_audio "bob" ex_fs2 =
      (Ok (audio_response "F9" ex_audio), fs') ∧
    files fs' =
      <[audio_path_of "F9" ex_audio "bob" := Bytes (uf_content ex_audio)]>
        (files ex_fs2) ∧
    (∀ upload_id, session_of fs' upload_id = session_of ex_fs2 upload_id) ∧
    (∀ upload_id n,
       stored_chunk fs' upload_id n = stored_chunk ex_fs2 upload_id n).
Proof.
  apply (upload_audio_file_writes_one_file ex_fs2 "F9" ex_audio "bob").
  - apply reachable_ex_fs2.
  - vm_compute. reflexivity.
  - reflexivity.
Defined.

(** *** Deleting and inspecting stored audio *)

Lemma prefix_append (a b : string) : String.prefix a (a +:+ b) = true.
Proof.
  induction a as [|c a IH]; simpl; [by destruct b|].
  by destruct (ascii_dec c c).
Qed.

Lemma audio_after_cleanup fs upload_id user name :
  files (fs_after_cleanup fs upload_id) !! ["uploads"; "audio"; user; name] =
    files fs !! ["uploads"; "audio"; user; name].
Proof.
  unfold fs_after_cleanup. cbn [files].
  rewrite lookup_delete_ne by done.
  destruct (files fs !! ["uploads"; "audio"; user; name]) as [c|] eqn:Hc.
  - apply map_lookup_filter_Some. split; [done|].
    simpl. intros [k Hk]. unfold chunks_dir_of, os_path_join in Hk.
    by simplify_eq/=.
  - apply map_lookup_filter_None. by left.
Qed.

Lemma audio_match_after_blob fs user file_id name0 content name :
  audio_match
    (with_file ["uploads"; "audio"; user; name0] (Bytes content)
       (with_dirs ["uploads"; "audio"; user] fs)) user file_id name →
  name = name0 ∨ audio_match fs user file_id name.
Proof.
  intros [Hsome Hpre]. destruct (decide (name = name0)) as [->|Hne]; [by left|].
  right. split; [|done]. simpl in Hsome.
  rewrite lookup_insert_ne in Hsome; [done|]. intros ?. by simplify_eq.
Qed.

(** X7: when some file of the user's audio directory has a name that starts
    with [file_id], [delete_upload] succeeds and removes exactly one such
    file: every other file, in this and in every other user's directory,
    and every directory stay. *)
Theorem delete_upload_removes_one_match fs file_id user :
  reachable fs →
  (∃ name, audio_match fs user file_id name) →
  ∃ name fs',
    audio_match fs user file_id name ∧
    delete_upload file_id user fs = (Ok "File deleted successfully", fs') ∧
    files fs' = delete ["uploads"; "audio"; user; name] (files fs) ∧
    dirs fs' = dirs fs.
Proof.
  intros Hinv%reachable_inv [name0 Hm0].
  destruct (delete_upload_run fs file_id user (inv_shape _ Hinv))
    as [(name & Hm & Hrun)|[Hnone _]].
  - exists name. eexists. by split_and!.
  - by destruct (Hnone name0).
Qed.

Lemma delete_upload_removes_one_match_witness :
  ∃ name fs',
    audio_match ex_fs_audio "alice" "F9" name ∧
    delete_upload "F9" "alice" ex_fs_audio =
      (Ok "File deleted successfully", fs') ∧
    files fs' = delete ["uploads"; "audio"; "alice"; name] (files ex_fs_audio) ∧
    dirs fs' = dirs ex_fs_audio.
Proof.
  apply (delete_upload_removes_one_match ex_fs_audio "F9" "alice").
  - apply reachable_ex_fs_audio.
  - exists "F9.wav". split; [|reflexivity]. vm_compute. eauto.
Defined.

(** X8: when no file of the user's audio directory has a name that starts
    with [file_id], the HTTP 404 of [delete_upload] is caught by its own
    handler and reaches the caller as an HTTP 500; nothing is removed.
    Files of other users never match. *)
Theorem delete_upload_not_found_becomes_500 fs file_id user :
  reachable fs →
  (∀ name, ¬ audio_match fs user file_id name) →
  delete_upload file_id user fs =
    (Raise (HTTPException 500
              [FLit "Failed to delete file: ";
               FExn (HTTPException 404 [FLit "File not found"])]), fs).
Proof.
  intros Hinv%reachable_inv Hnone.
  destruct (delete_upload_run fs file_id user (inv_shape _ Hinv))
    as [(name & Hm & _)|[_ Hrun]]; [|done].
  by destruct (Hnone name).
Qed.

Lemma ex_fs_audio_files :
  files ex_fs_audio =
    {[ ["uploads"; "audio"; "alice"; "F9.wav"] := Bytes (uf_content ex_audio) ]}.
Proof. reflexivity. Qed.

Lemma ex_fs_audio_not_bob file_id name :
  ¬ audio_match ex_fs_audio "bob" file_id name.
Proof.
  intros [[c Hc] _]. rewrite ex_fs_audio_files in Hc.
  rewrite lookup_singleton_ne in Hc; [done|]. intros ?. by simplify_eq.
Qed.

Lemma delete_upload_not_found_becomes_500_witness :
  delete_upload "F9" "bob" ex_fs_audio =
    (Raise (HTTPException 500
              [FLit "Failed to delete file: ";
               FExn (HTTPException 404 [FLit "File not found"])]),
     ex_fs_audio).
Proof.
  apply (delete_upload_not_found_becomes_500 ex_fs_audio "F9" "bob").
  - apply reachable_ex_fs_audio.
  - apply ex_fs_audio_not_bob.
Defined.

(** X9: [get_upload_status] raises its HTTP 404 as it is, not wrapped into
    an HTTP 500, when no file of the user's audio directory has a name
    that starts with [file_id]; the tree is unchanged. *)
Theorem get_upload_status_not_found fs file_id user :
  reachable fs →
  (∀ name, ¬ audio_match fs user file_id name) →
  get_upload_status file_id user fs =
    (Raise (HTTPException 404 [FLit "File not found"]), fs).
Proof.
  intros Hr Hnone.
  destruct (get_upload_status_run fs file_id user
              (inv_shape _ (reachable_inv _ Hr)) (reachable_audio_bytes _ Hr))
    as [(name & b & Hm & _)|[_ Hrun]]; [|done].
  by destruct (Hnone name).
Qed.

Lemma get_upload_status_not_found_witness :
  get_upload_status "F9" "bob" ex_fs_audio =
    (Raise (HTTPException 404 [FLit "File not found"]), ex_fs_audio).
Proof.
  apply (get_upload_status_not_found ex_fs_audio "F9" "bob").
  - apply reachable_ex_fs_audio.
  - apply ex_fs_audio_not_bob.
Defined.

(** X10: when some file of the user's audio directory has a name that
    starts with [file_id], [get_upload_status] answers [completed] with the
    path and the length in bytes of one such file, and changes nothing. *)
Theorem get_upload_status_reports_a_match fs file_id user :
  reachable fs →
  (∃ name, audio_match fs user file_id name) →
  ∃ name b,
    str_startswith name file_id = true ∧
    files fs !! ["uploads"; "audio"; user; name] = Some (Bytes b) ∧
    get_upload_status file_id user fs =
      (Ok {| sr_file_id := file_id;
             sr_status := "completed";
             sr_file_size := Z.of_nat (length b);
             sr_file_path := ["uploads"; "audio"; user; name] |}, fs).
Proof.
  intros Hr [name0 Hm0].
  destruct (get_upload_status_run fs file_id user
              (inv_shape _ (reachable_inv _ Hr)) (reachable_audio_bytes _ Hr))
    as [(name & b & [_ Hpre] & Hb & Hrun)|[Hnone _]].
  - by exists name, b.
  - by destruct (Hnone name0).
Qed.

Lemma get_upload_status_reports_a_match_witness :
  ∃ name b,
    str_startswith name "F9" = true ∧
    files ex_fs_audio !! ["uploads"; "audio"; "alice"; name] = Some (Bytes b) ∧
    get_upload_status "F9" "alice" ex_fs_audio =
      (Ok {| sr_file_id := "F9";
             sr_status := "completed";
             sr_file_size := Z.of_nat (length b);
             sr_file_path := ["uploads"; "audio"; "alice"; name] |},
       ex_fs_audio).
Proof.
  apply (get_upload_status_reports_a_match ex_fs_audio "F9" "alice").
  - apply reachable_ex_fs_audio.
  - exists "F9.wav". split; [|reflexivity]. vm_compute. eauto.
Defined.

(** *** Round trips through the audio directory *)

Lemma status_of_new_audio fs user file_id ext content :
  reachable
    (with_file ["uploads"; "audio"; user; file_id +:+ ext] (Bytes content)
       (with_dirs ["uploads"; "audio"; user] fs)) →
  (∀ name, ¬ audio_match fs user file_id name) →
  get_upload_status file_id user
    (with_file ["uploads"; "audio"; user; file_id +:+ ext] (Bytes content)
       (with_dirs ["uploads"; "audio"; user] fs)) =
    (Ok {| sr_file_id := file_id;
           sr_status := "completed";
           sr_file_size := Z.of_nat (length content);
           sr_file_path := ["uploads"; "audio"; user; file_id +:+ ext] |},
     with_file ["uploads"; "audio"; user; file_id +:+ ext] (Bytes content)
       (with_dirs ["uploads"; "audio"; user] fs)).
Proof.
  intros Hr Hnone.
  destruct (get_upload_status_run _ file_id user
              (inv_shape _ (reachable_inv _ Hr)) (reachable_audio_bytes _ Hr))
    as [(name & b & Hm & Hb & Hrun)|[Hnone' _]].
  - apply audio_match_after_blob in Hm as [->|Hm]; [|by destruct (Hnone name)].
    simpl in Hb. rewrite lookup_insert_eq in Hb. by simplify_eq.
  - destruct (Hnone' (file_id +:+ ext)). split.
    + simpl. rewrite lookup_insert_eq. by eexists.
    + apply prefix_append.
Qed.

(** X11: after a successful [upload_audio_file], [get_upload_status] for
    the same [file_id] and user reports the uploaded file: its path and the
    number of bytes the upload response gave, provided no file of that user
    had a name starting with [file_id] before. *)
Theorem upload_then_status fs file_id file user :
  reachable fs →
  (validate_audio_file file fs).1 = Ok tt →
  size_too_large (uf_size file) = false →
  (∀ name, ¬ audio_match fs user file_id name) →
  ∃ r fs',
    upload_audio_file file_id file user fs = (Ok r, fs') ∧
    get_upload_status file_id user fs' =
      (Ok {| sr_file_id := file_id;
             sr_status := "completed";
             sr_file_size := ur_file_size r;
             sr_file_path := audio_path_of file_id file user |}, fs').
Proof.
  intros Hr Hv Hsz Hnone.
  pose proof (reachable_after_audio file_id file user fs Hr) as Hr'.
  rewrite upload_audio_file_run, Hv, Hsz in Hr' by by apply reachable_inv.
  rewrite upload_audio_file_run, Hv, Hsz by by apply reachable_inv.
  eexists _, _. split; [done|].
  by apply status_of_new_audio.
Qed.

Lemma upload_then_status_witness :
  ∃ r fs',
    upload_audio_file "F9" ex_audio "bob" ex_fs_audio = (Ok r, fs') ∧
    get_upload_status "F9" "bob" fs' =
      (Ok {| sr_file_id := "F9";
             sr_status := "completed";
             sr_file_size := ur_file_size r;
             sr_file_path := audio_path_of "F9" ex_audio "bob" |}, fs').
Proof.
  apply (upload_then_status ex_fs_audio "F9" ex_audio "bob").
  - apply reachable_ex_fs_audio.
  - vm_compute. reflexivity.
  - reflexivity.
  - apply ex_fs_audio_not_bob.
Defined.

(** X12: after a successful [complete_chunked_upload], [get_upload_status]
    for the session's [file_id] and owner reports the assembled artifact:
    its path and the total number of bytes of the completion response,
    provided no file of the owner had a name starting with that [file_id]
    before. *)
Theorem complete_then_status fs upload_id d :
  reachable fs →
  session_of fs upload_id = Some d →
  sd_uploaded_chunks d = seqZ 1 (sd_total_chunks d) →
  1 ≤ sd_total_chunks d →
  (∀ name, ¬ audio_match fs (sd_user_id d) (sd_file_id d) name) →
  ∃ r fs',
    complete_chunked_upload upload_id (sd_user_id d) fs = (Ok r, fs') ∧
    get_upload_status (sd_file_id d) (sd_user_id d) fs' =
      (Ok {| sr_file_id := sd_file_id d;
             sr_status := "completed";
             sr_file_size := ur_file_size r;
             sr_file_path := final_path_of d (sd_user_id d) |}, fs').
Proof.
  intros Hr Hs Hfull Hge Hnone.
  pose proof (reachable_after_complete upload_id (sd_user_id d) fs Hr) as Hr'.
  destruct (complete_full_outcome fs upload_id d (reachable_inv _ Hr) Hs Hfull)
    as [[_ Hrun]|[Hlt _]]; [|lia].
  rewrite Hrun in Hr'. simpl in Hr'. rewrite Hrun.
  eexists _, _. split; [done|].
  set (fs' := fs_after_cleanup _ _) in *.
  destruct (get_upload_status_run fs' (sd_file_id d) (sd_user_id d)
              (inv_shape _ (reachable_inv _ Hr')) (reachable_audio_bytes _ Hr'))
    as [(name & b & Hm & Hb & Hrun')|[Hnone' _]].
  - subst fs'. rewrite audio_after_cleanup in Hb.
    destruct Hm as [Hsome Hpre]. rewrite audio_after_cleanup in Hsome.
    assert (Hm : audio_match (fs_after_assembly fs upload_id (sd_user_id d) d)
                   (sd_user_id d) (sd_file_id d) name) by done.
    apply audio_match_after_blob in Hm as [->|Hm]; [|by destruct (Hnone name)].
    unfold fs_after_assembly, final_path_of in Hb. simpl in Hb.
    rewrite lookup_insert_eq in Hb. simplify_eq. exact Hrun'.
  - destruct (Hnone'
      (sd_file_id d +:+ str_or (os_path_splitext (sd_filename d)).2 ".webm")).
    split.
    + subst fs'. rewrite audio_after_cleanup.
      unfold fs_after_assembly, final_path_of. simpl.
      rewrite lookup_insert_eq. by eexists.
    + apply prefix_append.
Qed.

Lemma ex_fs3_session :
  session_of ex_fs3 "U1" =
    Some (append_and_sort
            (append_and_sort
               (append_and_sort
                  (new_session "U1" "F1" "t0" "rec.wav" 12 "audio/wav" 5
                     "alice") 2) 1) 3).
Proof. reflexivity. Qed.

Lemma ex_fs3_files :
  files ex_fs3 =
    <[session_file_of "U1" :=
        Text (append_and_sort
                (append_and_sort
                   (append_and_sort
                      (new_session "U1" "F1" "t0" "rec.wav" 12 "audio/wav" 5
                         "alice") 2) 1) 3)]>
      (<[chunk_path_of "U1" 1 := Bytes [Byte.x43; Byte.x44]]>
         (<[chunk_path_of "U1" 2 := Bytes [Byte.x41; Byte.x42]]>
            (<[chunk_path_of "U1" 3 := Bytes [Byte.x45]]> ∅))).
Proof. vm_compute. reflexivity. Qed.

Lemma ex_fs3_no_audio user file_id name : ¬ audio_match ex_fs3 user file_id name.
Proof.
  intros [[c Hc] _]. rewrite ex_fs3_files in Hc.
  rewrite !lookup_insert_ne in Hc by (intros ?; by simplify_eq).
  by rewrite lookup_empty in Hc.
Qed.

Lemma complete_then_status_witness :
  ∃ r fs',
    complete_chunked_upload "U1" "alice" ex_fs3 = (Ok r, fs') ∧
    get_upload_status "F1" "alice" fs' =
      (Ok {| sr_file_id := "F1";
             sr_status := "completed";
             sr_file_size := ur_file_size r;
             sr_file_path :=
               final_path_of
                 (new_session "U1" "F1" "t0" "rec.wav" 12 "audio/wav" 5 "alice")
                 "alice" |}, fs').
Proof.
  apply (complete_then_status ex_fs3 "U1" _ reachable_ex_fs3 ex_fs3_session).
  - reflexivity.
  - vm_compute. discriminate.
  - apply ex_fs3_no_audio.
Defined.

(** X13: a successful [upload_audio_file] followed by [delete_upload] of
    the same [file_id] by the same user restores the stored files, provided
    no file of that user had a name starting with [file_id] before. *)
Theorem upload_then_delete_restores_files fs file_id file user :
  reachable fs →
  (validate_audio_file file fs).1 = Ok tt →
  size_too_large (uf_size file) = false →
  (∀ name, ¬ audio_match fs user file_id name) →
  ∃ r fs' fs'',
    upload_audio_file file_id file user fs = (Ok r, fs') ∧
    delete_upload file_id user fs' = (Ok "File deleted successfully", fs'') ∧
    files fs'' = files fs.
Proof.
  intros Hr Hv Hsz Hnone.
  pose proof (reachable_after_audio file_id file user fs Hr) as Hr'.
  rewrite upload_audio_file_run, Hv, Hsz in Hr' by by apply reachable_inv.
  rewrite upload_audio_file_run, Hv, Hsz by by apply reachable_inv.
  destruct (delete_upload_run (fs_after_audio fs file_id file user) file_id user
              (inv_shape _ (reachable_inv _ Hr')))
    as [(name & Hm & Hrun)|[Hnone' _]].
  - eexists _, _, _. split; [done|]. split; [exact Hrun|].
    apply audio_match_after_blob in Hm as [->|Hm]; [|by destruct (Hnone name)].
    simpl. apply delete_insert_id.
    destruct (files fs !! _) as [c|] eqn:Hc; [|done].
    destruct (Hnone (file_id +:+
      str_or (os_path_splitext (opt_str_or (uf_filename file) "")).2 ".webm")).
    split; [by eexists|apply prefix_append].
  - destruct (Hnone' (file_id +:+
      str_or (os_path_splitext (opt_str_or (uf_filename file) "")).2 ".webm")).
    split.
    + unfold fs_after_audio, audio_path_of. simpl.
      rewrite lookup_insert_eq. by eexists.
    + apply prefix_append.
Qed.

Lemma upload_then_delete_restores_files_witness :
  ∃ r fs' fs'',
    upload_audio_file "F9" ex_audio "bob" ex_fs_audio = (Ok r, fs') ∧
    delete_upload "F9" "bob" fs' = (Ok "File deleted successfully", fs'') ∧
    files fs'' = files ex_fs_audio.
Proof.
  apply (upload_then_delete_restores_files ex_fs_audio "F9" ex_audio "bob").
  - apply reachable_ex_fs_audio.
  - vm_compute. reflexivity.
  - reflexivity.
  - apply ex_fs_audio_not_bob.
Defined.

(** *** Chunked uploads: failures, isolation and what a completion leaves *)

Lemma chunk_file_after_cleanup fs upload_id other name :
  other ≠ upload_id →
  files (fs_after_cleanup fs upload_id) !! ["uploads"; "chunks"; other; name] =
    files fs !! ["uploads"; "chunks"; other; name].
Proof.
  intros Hne. unfold fs_after_cleanup. cbn [files].
  rewrite lookup_delete_ne by done.
  destruct (files fs !! ["uploads"; "chunks"; other; name]) as [c|] eqn:Hc.
  - apply map_lookup_filter_Some. split; [done|].
    simpl. intros [k Hk]. unfold chunks_dir_of, os_path_join in Hk.
    by simplify_eq/=.
  - apply map_lookup_filter_None. by left.
Qed.

Lemma chunk_file_gone fs upload_id name :
  files (fs_after_cleanup fs upload_id) !! ["uploads"; "chunks"; upload_id; name]
    = None.
Proof.
  unfold fs_after_cleanup. cbn [files].
  rewrite lookup_delete_ne by done.
  apply map_lookup_filter_None. right. intros c _ Hpre. simpl in Hpre.
  destruct Hpre. by exists [name].
Qed.

Lemma chunks_dir_gone fs upload_id :
  chunks_dir_of upload_id ∉ dirs (fs_after_cleanup fs upload_id).
Proof.
  unfold fs_after_cleanup. cbn [dirs]. rewrite elem_of_filter.
  intros [Hpre _]. by destruct Hpre.
Qed.

(** X14: [complete_chunked_upload] for an upload id that has no session
    record, or by a user who does not own the session, raises its HTTP 404
    or 403 inside the [try] block: the caller receives an HTTP 500 that
    wraps it, and the tree is unchanged. *)
Theorem complete_failures_become_500 fs upload_id user :
  reachable fs →
  (session_of fs upload_id = None →
     complete_chunked_upload upload_id user fs =
       (Raise (HTTPException 500
                 [FLit "Failed to complete chunked upload: ";
                  FExn (HTTPException 404 [FLit "Upload session not found"])]),
        fs)) ∧
  (∀ d, session_of fs upload_id = Some d → sd_user_id d ≠ user →
     complete_chunked_upload upload_id user fs =
       (Raise (HTTPException 500
                 [FLit "Failed to complete chunked upload: ";
                  FExn (HTTPException 403
                          [FLit "Access denied to upload session"])]),
        fs)).
Proof.
  intros Hinv%reachable_inv. split.
  - intros Hs. by rewrite complete_chunked_upload_run, Hs by done.
  - intros d Hs Hu. rewrite complete_chunked_upload_run, Hs by done.
    by rewrite bool_decide_eq_true_2.
Qed.

Lemma complete_failures_become_500_witness :
  (session_of ex_fs3 "U1" = None →
     complete_chunked_upload "U1" "bob" ex_fs3 =
       (Raise (HTTPException 500
                 [FLit "Failed to complete chunked upload: ";
                  FExn (HTTPException 404 [FLit "Upload session not found"])]),
        ex_fs3)) ∧
  (∀ d, session_of ex_fs3 "U1" = Some d → sd_user_id d ≠ "bob" →
     complete_chunked_upload "U1" "bob" ex_fs3 =
       (Raise (HTTPException 500
                 [FLit "Failed to complete chunked upload: ";
                  FExn (HTTPException 403
                          [FLit "Access denied to upload session"])]),
        ex_fs3)).
Proof.
  apply (complete_failures_become_500 ex_fs3 "U1" "bob"), reachable_ex_fs3.
Defined.

(** X15: a successful [complete_chunked_upload] forgets the upload: its
    session record, its chunk directory and every chunk file are gone, so
    a later chunk or a second completion for the same upload id fails with
    the HTTP 500 that wraps [Upload session not found]. *)
Theorem completed_upload_is_forgotten fs upload_id d n chunk user :
  reachable fs →
  session_of fs upload_id = Some d →
  sd_uploaded_chunks d = seqZ 1 (sd_total_chunks d) →
  1 ≤ sd_total_chunks d →
  ∃ r fs',
    complete_chunked_upload upload_id (sd_user_id d) fs = (Ok r, fs') ∧
    session_of fs' upload_id = None ∧
    (chunks_dir_of upload_id ∉ dirs fs') ∧
    (∀ name, files fs' !! ["uploads"; "chunks"; upload_id; name] = None) ∧
    upload_chunk upload_id n chunk user fs' =
      (Raise (HTTPException 500
                [FLit "Chunk upload failed: ";
                 FExn (HTTPException 404 [FLit "Upload session not found"])]),
       fs') ∧
    complete_chunked_upload upload_id user fs' =
      (Raise (HTTPException 500
                [FLit "Failed to complete chunked upload: ";
                 FExn (HTTPException 404 [FLit "Upload session not found"])]),
       fs').
Proof.
  intros Hr Hs Hfull Hge.
  pose proof (reachable_after_complete upload_id (sd_user_id d) fs Hr) as Hr'.
  destruct (complete_full_outcome fs upload_id d (reachable_inv _ Hr) Hs Hfull)
    as [[_ Hrun]|[Hlt _]]; [|lia].
  rewrite Hrun in Hr'. simpl in Hr'. apply reachable_inv in Hr'.
  rewrite Hrun. eexists _, _. split; [done|].
  set (fs' := fs_after_cleanup _ _) in *.
  assert (Hnone : session_of fs' upload_id = None).
  { subst fs'. rewrite session_of_after_cleanup. by rewrite decide_True. }
  split_and!.
  - done.
  - apply chunks_dir_gone.
  - intros name. apply chunk_file_gone.
  - by rewrite upload_chunk_run, Hnone by done.
  - by rewrite complete_chunked_upload_run, Hnone by done.
Qed.

Lemma completed_upload_is_forgotten_witness :
  ∃ r fs',
    complete_chunked_upload "U1" "alice" ex_fs3 = (Ok r, fs') ∧
    session_of fs' "U1" = None ∧
    (chunks_dir_of "U1" ∉ dirs fs') ∧
    (∀ name, files fs' !! ["uploads"; "chunks"; "U1"; name] = None) ∧
    upload_chunk "U1" 1 (ex_chunk [Byte.x43]) "alice" fs' =
      (Raise (HTTPException 500
                [FLit "Chunk upload failed: ";
                 FExn (HTTPException 404 [FLit "Upload session not found"])]),
       fs') ∧
    complete_chunked_upload "U1" "alice" fs' =
      (Raise (HTTPException 500
                [FLit "Failed to complete chunked upload: ";
                 FExn (HTTPException 404 [FLit "Upload session not found"])]),
       fs').
Proof.
  apply (completed_upload_is_forgotten ex_fs3 "U1" _ 1 (ex_chunk [Byte.x43])
           "alice" reachable_ex_fs3 ex_fs3_session).
  - reflexivity.
  - vm_compute. discriminate.
Defined.

(** X16: a chunk of the owner whose number is in range and not yet recorded
    is accepted whatever its length: its bytes are stored at the chunk's
    path, the response reports their number, and the session record gains
    exactly that chunk number, stays strictly ascending and keeps all its
    other fields. *)
Theorem upload_chunk_stores_new_chunk fs upload_id n chunk d :
  reachable fs →
  session_of fs upload_id = Some d →
  1 ≤ n ≤ sd_total_chunks d →
  n ∉ sd_uploaded_chunks d →
  ∃ r fs' d',
    upload_chunk upload_id n chunk (sd_user_id d) fs = (Ok r, fs') ∧
    cr_bytes_received r = Z.of_nat (length (uf_content chunk)) ∧
    cr_message r = "Chunk uploaded successfully" ∧
    files fs' !! chunk_path_of upload_id n = Some (Bytes (uf_content chunk)) ∧
    session_of fs' upload_id = Some d' ∧
    same_metadata d d' ∧
    StronglySorted Z.lt (sd_uploaded_chunks d') ∧
    (∀ m, m ∈ sd_uploaded_chunks d' ↔ m ∈ sd_uploaded_chunks d ∨ m = n).
Proof.
  intros Hinv%reachable_inv Hs Hrange Hnew.
  rewrite upload_chunk_run, Hs by done.
  rewrite bool_decide_eq_false_2 by (by intros HH; apply HH).
  replace ((n <? 1) || (n >? sd_total_chunks d)) with false by lia.
  rewrite (bool_decide_eq_false_2 _ Hnew).
  eexists _, _, (append_and_sort d n). split_and!; try done.
  - unfold fs_after_chunk. simpl.
    rewrite lookup_insert_ne by done. apply lookup_insert_eq.
  - apply session_of_insert_eq.
  - simpl. apply append_sort_sorted; [|done].
    by destruct (inv_sessions _ Hinv _ _ Hs).
  - intros m. simpl. apply elem_of_append_sort.
Qed.

Lemma ex_fs2_session :
  session_of ex_fs2 "U1" =
    Some (append_and_sort
            (new_session "U1" "F1" "t0" "rec.wav" 12 "audio/wav" 5 "alice") 2).
Proof. reflexivity. Qed.

Lemma upload_chunk_stores_new_chunk_witness :
  ∃ r fs' d',
    upload_chunk "U1" 3 (ex_chunk [Byte.x45]) "alice" ex_fs2 = (Ok r, fs') ∧
    cr_bytes_received r = Z.of_nat (length (uf_content (ex_chunk [Byte.x45]))) ∧
    cr_message r = "Chunk uploaded successfully" ∧
    files fs' !! chunk_path_of "U1" 3 =
      Some (Bytes (uf_content (ex_chunk [Byte.x45]))) ∧
    session_of fs' "U1" = Some d' ∧
    same_metadata
      (append_and_sort
         (new_session "U1" "F1" "t0" "rec.wav" 12 "audio/wav" 5 "alice") 2)
      d' ∧
    StronglySorted Z.lt (sd_uploaded_chunks d') ∧
    (∀ m, m ∈ sd_uploaded_chunks d' ↔
          m ∈ sd_uploaded_chunks
                (append_and_sort
                   (new_session "U1" "F1" "t0" "rec.wav" 12 "audio/wav" 5
                      "alice") 2) ∨ m = 3).
Proof.
  apply (upload_chunk_stores_new_chunk ex_fs2 "U1" 3 (ex_chunk [Byte.x45]) _
           reachable_ex_fs2 ex_fs2_session).
  - vm_compute. split; discriminate.
  - change (3 ∉ [2]). intros ?%list_elem_of_singleton. discriminate.
Defined.

(** X17: requests on one upload never touch another: whatever
    [upload_chunk] and [complete_chunked_upload] do for [upload_id], the
    session record and every chunk file of any other upload id are as
    before. *)
Theorem chunk_requests_leave_other_uploads fs upload_id other n chunk user :
  reachable fs →
  other ≠ upload_id →
  (session_of (upload_chunk upload_id n chunk user fs).2 other =
     session_of fs other ∧
   ∀ name,
     files (upload_chunk upload_id n chunk user fs).2
       !! ["uploads"; "chunks"; other; name] =
     files fs !! ["uploads"; "chunks"; other; name]) ∧
  (session_of (complete_chunked_upload upload_id user fs).2 other =
     session_of fs other ∧
   ∀ name,
     files (complete_chunked_upload upload_id user fs).2
       !! ["uploads"; "chunks"; other; name] =
     files fs !! ["uploads"; "chunks"; other; name]).
Proof.
  intros Hinv%reachable_inv Hne.
  assert (Hsf : session_file_of upload_id ≠ session_file_of other).
  { intros Heq%session_file_of_inj. by subst. }
  split.
  - rewrite upload_chunk_run by done.
    destruct (session_of fs upload_id) as [d|]; [|done].
    destruct (bool_decide (sd_user_id d ≠ user)); [done|].
    destruct ((n <? 1) || (n >? sd_total_chunks d)); [done|].
    destruct (bool_decide (n ∈ sd_uploaded_chunks d)); [done|].
    cbn [snd]. split.
    + unfold fs_after_chunk. by rewrite !session_of_with_file.
    + intros name. unfold fs_after_chunk, chunk_path_of, chunks_dir_of. simpl.
      rewrite lookup_insert_ne by done.
      rewrite lookup_insert_ne; [done|]. intros ?. by simplify_eq.
  - rewrite complete_chunked_upload_run by done.
    destruct (session_of fs upload_id) as [d|]; [|done].
    destruct (bool_decide (sd_user_id d ≠ user)); [done|].
    destruct (bool_decide (sd_uploaded_chunks d ≠ seqZ 1 (sd_total_chunks d)));
      [done|].
    destruct (bool_decide (chunks_dir_of upload_id ∈ dirs fs)); cbn [snd].
    + split.
      * rewrite session_of_after_cleanup, decide_False by done.
        unfold fs_after_assembly. by rewrite session_of_with_file.
      * intros name. rewrite chunk_file_after_cleanup by done.
        unfold fs_after_assembly, final_path_of. simpl.
        by rewrite lookup_insert_ne.
    + split.
      * unfold fs_after_assembly. by rewrite session_of_with_file.
      * intros name. unfold fs_after_assembly, final_path_of. simpl.
        by rewrite lookup_insert_ne.
Qed.

Lemma chunk_requests_leave_other_uploads_witness :
  (session_of (upload_chunk "U2" 1 (ex_chunk [Byte.x45]) "alice" ex_fs3).2 "U1" =
     session_of ex_fs3 "U1" ∧
   ∀ name,
     files (upload_chunk "U2" 1 (ex_chunk [Byte.x45]) "alice" ex_fs3).2
       !! ["uploads"; "chunks"; "U1"; name] =
     files ex_fs3 !! ["uploads"; "chunks"; "U1"; name]) ∧
  (session_of (complete_chunked_upload "U2" "alice" ex_fs3).2 "U1" =
     session_of ex_fs3 "U1" ∧
   ∀ name,
     files (complete_chunked_upload "U2" "alice" ex_fs3).2
       !! ["uploads"; "chunks"; "U1"; name] =
     files ex_fs3 !! ["uploads"; "chunks"; "U1"; name]).
Proof.
  apply (chunk_requests_leave_other_uploads ex_fs3 "U2" "U1" 1
           (ex_chunk [Byte.x45]) "alice").
  - apply reachable_ex_fs3.
  - discriminate.
Defined.

(** X18: no request rewrites the metadata of a session: across any step,
    a session record that is still there has the same upload id, file id,
    owner, file name, file size, mime type, chunk size, chunk count and
    creation time; only its list of received chunks may differ. *)
Theorem session_metadata_is_immutable fs fs' upload_id d d' :
  reachable fs →
  step fs fs' →
  session_of fs upload_id = Some d →
  session_of fs' upload_id = Some d' →
  same_metadata d d'.
Proof.
  intros Hinv%reachable_inv Hstep Hs Hs'.
  destruct (step_session fs fs' upload_id d Hinv Hstep Hs)
    as [Hnone|[Hsame|(n & _ & _ & Hadd)]].
  - congruence.
  - assert (d' = d) as -> by congruence. by repeat split.
  - assert (d' = append_and_sort d n) as -> by congruence. by repeat split.
Qed.

Lemma step_ex_fs1_fs2 : step ex_fs1 ex_fs2.
Proof.
  apply (step_upload_chunk "U1" 2 (ex_chunk [Byte.x41; Byte.x42]) "alice"
           (upload_chunk "U1" 2 (ex_chunk [Byte.x41; Byte.x42]) "alice"
              ex_fs1).1).
  apply surjective_pairing.
Defined.

Lemma session_metadata_is_immutable_witness :
  same_metadata
    (new_session "U1" "F1" "t0" "rec.wav" 12 "audio/wav" 5 "alice")
    (append_and_sort
       (new_session "U1" "F1" "t0" "rec.wav" 12 "audio/wav" 5 "alice") 2).
Proof.
  apply (session_metadata_is_immutable ex_fs1 ex_fs2 "U1").
  - apply reachable_ex_fs1.
  - apply step_ex_fs1_fs2.
  - reflexivity.
  - reflexivity.
Defined.

(** X19: in every reachable state the chunk store and the session records
    agree: a file below [uploads/chunks/<upload_id>/] is the chunk file of
    a number recorded by that upload's session and holds bytes, and every
    recorded chunk number has its chunk file. *)
Theorem chunk_files_match_records fs :
  reachable fs →
  (∀ upload_id name c,
     files fs !! ["uploads"; "chunks"; upload_id; name] = Some c →
     ∃ d n b, session_of fs upload_id = Some d ∧ n ∈ sd_uploaded_chunks d ∧
              name = "chunk_" +:+ format_04d n ∧ c = Bytes b) ∧
  (∀ upload_id d n,
     session_of fs upload_id = Some d → n ∈ sd_uploaded_chunks d →
     ∃ b, files fs !! chunk_path_of upload_id n = Some (Bytes b)).
Proof.
  intros Hr. split.
  - apply (reachable_chunks_recorded fs Hr).
  - intros upload_id d n Hs Hn.
    destruct (inv_sessions _ (reachable_inv _ Hr) _ _ Hs) as [_ Hch].
    by destruct (Hch n Hn).
Qed.

Lemma chunk_files_match_records_witness :
  (∀ upload_id name c,
     files ex_fs3 !! ["uploads"; "chunks"; upload_id; name] = Some c →
     ∃ d n b, session_of ex_fs3 upload_id = Some d ∧
              n ∈ sd_uploaded_chunks d ∧
              name = "chunk_" +:+ format_04d n ∧ c = Bytes b) ∧
  (∀ upload_id d n,
     session_of ex_fs3 upload_id = Some d → n ∈ sd_uploaded_chunks d →
     ∃ b, files ex_fs3 !! chunk_path_of upload_id n = Some (Bytes b)).
Proof. apply (chunk_files_match_records ex_fs3), reachable_ex_fs3. Defined.

(** *** Starting a session, and sending its chunks *)

(** X20: [start_chunked_upload] checks the mime type first and the declared
    size second, before anything else: a mime type that is not allowed
    gives HTTP 400 whatever the size and the chunk size are, an allowed one
    with a size above [MAX_FILE_SIZE] gives HTTP 413; both are raised
    unwrapped and no session is written. *)
Theorem start_rejections_write_nothing fs upload_id file_id now filename
    file_size mime chunk_size user :
  (mime ∉ ALLOWED_AUDIO_TYPES →
     start_chunked_upload upload_id file_id now filename file_size mime
       chunk_size user fs =
       (Raise (HTTPException 400 [FLit "Unsupported file type: "; FStr mime]),
        fs)) ∧
  (mime ∈ ALLOWED_AUDIO_TYPES → MAX_FILE_SIZE < file_size →
     start_chunked_upload upload_id file_id now filename file_size mime
       chunk_size user fs =
       (Raise (HTTPException 413
                 [FLit "File too large. Maximum size: "; FInt 100; FLit "MB"]),
        fs)).
Proof.
  split.
  - intros Hmime. unfold start_chunked_upload.
    rewrite (bool_decide_eq_true_2 (mime ∉ ALLOWED_AUDIO_TYPES)) by done.
    by erewrite bind_raise.
  - intros Hmime Hsize. unfold start_chunked_upload.
    rewrite (bool_decide_eq_false_2 (mime ∉ ALLOWED_AUDIO_TYPES))
      by (by intros HH; apply HH).
    erewrite bind_ok; [|reflexivity].
    replace (file_size >? MAX_FILE_SIZE) with true by lia.
    by erewrite bind_raise.
Qed.

Lemma start_rejections_write_nothing_witness :
  start_chunked_upload "U5" "F5" "t0" "clip.mp4" 209715200 "video/mp4" 0
    "alice" ex_fs1 =
    (Raise (HTTPException 400
              [FLit "Unsupported file type: "; FStr "video/mp4"]), ex_fs1) ∧
  start_chunked_upload "U5" "F5" "t0" "long.wav" 104857601 "audio/wav" 0
    "alice" ex_fs1 =
    (Raise (HTTPException 413
              [FLit "File too large. Maximum size: "; FInt 100; FLit "MB"]),
     ex_fs1).
Proof.
  split.
  - apply (start_rejections_write_nothing ex_fs1 "U5" "F5" "t0" "clip.mp4"
             209715200 "video/mp4" 0 "alice").
    apply (bool_decide_unpack _). vm_compute. exact I.
  - apply (start_rejections_write_nothing ex_fs1 "U5" "F5" "t0" "long.wav"
             104857601 "audio/wav" 0 "alice").
    + vm_compute. tauto.
    + vm_compute. reflexivity.
Defined.

(** X21: right after a session has been started, any chunk whose number is
    in [1, total_chunks] is accepted from the user who started it, and the
    record then lists exactly that chunk; the same request by any other
    user is refused (HTTP 403 inside the HTTP 500) and changes nothing. *)
Theorem start_then_first_chunk fs upload_id file_id now filename file_size
    mime chunk_size user n chunk other :
  reachable fs →
  files fs !! session_file_of upload_id = None →
  mime ∈ ALLOWED_AUDIO_TYPES →
  file_size ≤ MAX_FILE_SIZE →
  0 < chunk_size →
  1 ≤ n ≤ (file_size + chunk_size - 1) / chunk_size →
  other ≠ user →
  ∃ r1 fs1,
    start_chunked_upload upload_id file_id now filename file_size mime
      chunk_size user fs = (Ok r1, fs1) ∧
    (∃ r2 fs2 d2,
       upload_chunk upload_id n chunk user fs1 = (Ok r2, fs2) ∧
       cr_total_chunks r2 = st_total_chunks r1 ∧
       cr_bytes_received r2 = Z.of_nat (length (uf_content chunk)) ∧
       session_of fs2 upload_id = Some d2 ∧
       sd_uploaded_chunks d2 = [n]) ∧
    upload_chunk upload_id n chunk other fs1 =
      (Raise (HTTPException 500
                [FLit "Chunk upload failed: ";
                 FExn (HTTPException 403
                         [FLit "Access denied to upload session"])]),
       fs1).
Proof.
  intros Hinv%reachable_inv Hfresh Hmime Hsize Hcs Hn Hother.
  set (d := new_session upload_id file_id now filename file_size mime
              chunk_size user).
  assert (Hinv1 : fs_inv (fs_after_start fs upload_id d))
    by by apply inv_after_start.
  assert (Hs1 : session_of (fs_after_start fs upload_id d) upload_id = Some d)
    by apply session_of_insert_eq.
  exists (start_response upload_id file_id file_size chunk_size),
    (fs_after_start fs upload_id d).
  split_and!.
  - rewrite start_chunked_upload_run by done.
    rewrite bool_decide_eq_false_2 by (by intros HH; apply HH).
    replace (file_size >? MAX_FILE_SIZE) with false by lia.
    by replace (chunk_size =? 0) with false by lia.
  - rewrite upload_chunk_run, Hs1 by done.
    rewrite bool_decide_eq_false_2 by (by intros HH; apply HH).
    replace ((n <? 1) || (n >? sd_total_chunks d)) with false
      by (simpl; lia).
    rewrite bool_decide_eq_false_2 by (simpl; apply not_elem_of_nil).
    eexists _, _, (append_and_sort d n). split_and!; try done.
    apply session_of_insert_eq.
  - rewrite upload_chunk_run, Hs1 by done.
    rewrite bool_decide_eq_true_2; [done|]. simpl. congruence.
Qed.

Lemma start_then_first_chunk_witness :
  ∃ r1 fs1,
    start_chunked_upload "U1" "F1" "t0" "rec.wav" 12 "audio/wav" 5 "alice"
      empty_fs = (Ok r1, fs1) ∧
    (∃ r2 fs2 d2,
       upload_chunk "U1" 3 (ex_chunk [Byte.x45]) "alice" fs1 = (Ok r2, fs2) ∧
       cr_total_chunks r2 = st_total_chunks r1 ∧
       cr_bytes_received r2 =
         Z.of_nat (length (uf_content (ex_chunk [Byte.x45]))) ∧
       session_of fs2 "U1" = Some d2 ∧
       sd_uploaded_chunks d2 = [3]) ∧
    upload_chunk "U1" 3 (ex_chunk [Byte.x45]) "bob" fs1 =
      (Raise (HTTPException 500
                [FLit "Chunk upload failed: ";
                 FExn (HTTPException 403
                         [FLit "Access denied to upload session"])]),
       fs1).
Proof.
  apply (start_then_first_chunk empty_fs "U1" "F1" "t0" "rec.wav" 12
           "audio/wav" 5 "alice" 3 (ex_chunk [Byte.x45]) "bob").
  - apply reachable_empty.
  - reflexivity.
  - vm_compute. tauto.
  - vm_compute. discriminate.
  - reflexivity.
  - vm_compute. split; discriminate.
  - discriminate.
Defined.

(** X22: two chunks never share a file: chunks of different uploads, or of
    different numbers (not negative) of one upload, are stored at different
    paths; the [04d] format pads the number but never truncates it. *)
Theorem chunk_files_are_distinct (u v : string) (a b : Z) :
  0 ≤ a → 0 ≤ b →
  u ≠ v ∨ a ≠ b →
  chunk_path_of u a ≠ chunk_path_of v b.
Proof.
  intros Ha Hb Hne Heq.
  assert (u = v) as ->.
  { unfold chunk_path_of, chunks_dir_of, os_path_join in Heq. by simplify_eq/=. }
  apply (chunk_path_of_inj v) in Heq; [|done..].
  destruct Hne as [Hne|Hne]; by apply Hne.
Qed.

Lemma chunk_files_are_distinct_witness :
  chunk_path_of "U1" 1 ≠ chunk_path_of "U1" 10001.
Proof.
  apply (chunk_files_are_distinct "U1" "U1" 1 10001).
  - vm_compute. discriminate.
  - vm_compute. discriminate.
  - right. discriminate.
Defined.

Lemma upload_all_ext upload_id user data data' order : ∀ fs,
  (∀ n, n ∈ order → data n = data' n) →
  upload_all upload_id user data order fs =
    upload_all upload_id user data' order fs.
Proof.
  unfold upload_all. induction order as [|n order IH]; intros fs Hd; [done|].
  simpl. rewrite (Hd n) by left. apply IH. intros m Hm. apply Hd. by right.
Qed.

(** X23: an interrupted upload can be resumed.  In any reachable state, for
    a session with at least one chunk, once the owner has sent the chunks
    that [complete_chunked_upload] would report as missing, in any order,
    the completion succeeds, and the artifact is the concatenation, in
    ascending chunk number, of the bytes stored before for the chunks
    already received and of the bytes now sent for the others. *)
Theorem upload_can_be_resumed fs upload_id d data order :
  reachable fs →
  session_of fs upload_id = Some d →
  1 ≤ sd_total_chunks d →
  order ≡ₚ missing_chunks (seqZ 1 (sd_total_chunks d)) (sd_uploaded_chunks d) →
  ∃ r fs',
    complete_chunked_upload upload_id (sd_user_id d)
      (upload_all upload_id (sd_user_id d) data order fs) = (Ok r, fs') ∧
    files fs' !! final_path_of d (sd_user_id d) =
      Some (Bytes
        (concat
           ((λ n, if bool_decide (n ∈ sd_uploaded_chunks d)
                  then stored_chunk fs upload_id n else data n)
              <$> seqZ 1 (sd_total_chunks d)))) ∧
    ur_file_size r =
      Z.of_nat (length
        (concat
           ((λ n, if bool_decide (n ∈ sd_uploaded_chunks d)
                  then stored_chunk fs upload_id n else data n)
              <$> seqZ 1 (sd_total_chunks d)))).
Proof.
  intros Hinv%reachable_inv Hs Hge Hperm.
  set (data' := λ n, if bool_decide (n ∈ sd_uploaded_chunks d)
                     then stored_chunk fs upload_id n else data n).
  assert (Hord : ∀ n, n ∈ order ↔
                      1 ≤ n ≤ sd_total_chunks d ∧ n ∉ sd_uploaded_chunks d).
  { intros n. rewrite Hperm. apply elem_of_missing_chunks. }
  rewrite (upload_all_ext upload_id (sd_user_id d) data data').
  2:{ intros n [_ Hn]%Hord. unfold data'.
      by rewrite (bool_decide_eq_false_2 _ Hn). }
  set (fs2 := upload_all upload_id (sd_user_id d) data' order fs).
  destruct (upload_all_spec upload_id (sd_user_id d) data' order fs d)
    as (d' & H1 & H2 & H3 & H4 & H5 & H6 & H7).
  - done.
  - done.
  - done.
  - rewrite Hperm. apply sorted_lt_NoDup, missing_chunks_sorted.
  - intros n Hn. by apply Hord.
  - intros n Hn. unfold data'. by rewrite (bool_decide_eq_true_2 _ Hn).
  - fold fs2 in H1, H2, H7.
    assert (Hall : ∀ n, 1 ≤ n ≤ sd_total_chunks d' → n ∈ sd_uploaded_chunks d').
    { intros n Hn. apply H6. rewrite H3 in Hn.
      destruct (decide (n ∈ sd_uploaded_chunks d)); [by left|right].
      by apply Hord. }
    assert (Hart : assembled fs2 upload_id d' =
                     concat (data' <$> seqZ 1 (sd_total_chunks d))).
    { unfold assembled. rewrite H3. f_equal.
      apply list_fmap_ext. intros i n Hn.
      apply H7, Hall. apply lookup_seqZ in Hn. rewrite H3. lia. }
    eexists _, _. split_and!.
    + rewrite <- H4. apply complete_full_session; [done..|by rewrite H3|done].
    + rewrite <- H5, <- Hart, <- H4. apply artifact_after_cleanup.
    + simpl. by rewrite Hart.
Qed.

Lemma upload_can_be_resumed_witness :
  ∃ r fs',
    complete_chunked_upload "U1" "alice"
      (upload_all "U1" "alice" (λ n, [Byte.x30; Byte.x31]) [3; 1] ex_fs2) =
      (Ok r, fs') ∧
    files fs' !! ["uploads"; "audio"; "alice"; "F1.wav"] =
      Some (Bytes [Byte.x30; Byte.x31; Byte.x41; Byte.x42;
                   Byte.x30; Byte.x31]) ∧
    ur_file_size r = 6.
Proof.
  apply (upload_can_be_resumed ex_fs2 "U1" _ (λ n, [Byte.x30; Byte.x31]) [3; 1]
           reachable_ex_fs2 ex_fs2_session).
  - vm_compute. discriminate.
  - change ([3; 1] ≡ₚ [1; 3]). apply perm_swap.
Defined.

Lemma arrival_order_is_irrelevant_witness :
  ∃ r fs3,
    complete_chunked_upload "U1" "alice"
      (upload_all "U1" "alice" (λ n, [Byte.x30; Byte.x31]) [2; 3; 1]
         (start_chunked_upload "U1" "F1" "t0" "rec.wav" 12 "audio/wav" 5
            "alice" empty_fs).2) = (Ok r, fs3) ∧
    files fs3 !! ["uploads"; "audio"; "alice"; "F1.wav"] =
      Some (Bytes [Byte.x30; Byte.x31; Byte.x30; Byte.x31;
                   Byte.x30; Byte.x31]) ∧
    ur_file_size r = 6.
Proof.
  apply (arrival_order_is_irrelevant empty_fs "U1" "F1" "t0" "rec.wav" 12
           "audio/wav" 5 "alice" (λ n, [Byte.x30; Byte.x31]) [2; 3; 1]).
  - apply reachable_empty.
  - reflexivity.
  - vm_compute. tauto.
  - vm_compute. discriminate.
  - reflexivity.
  - reflexivity.
  - change ([2; 3; 1] ≡ₚ [1; 2; 3]).
    etrans; [apply perm_skip, perm_swap|apply perm_swap].
Defined.

(** X25: the chunked-upload requests leave the stored audio alone:
    [start_chunked_upload] and [upload_chunk] change no file below
    [uploads/audio], and [complete_chunked_upload] changes at most the
    artifact of its own session there. *)
Theorem chunked_requests_keep_audio_files fs upload_id file_id now filename
    file_size mime chunk_size n chunk user :
  reachable fs →
  (∀ u name,
     files (start_chunked_upload upload_id file_id now filename file_size mime
              chunk_size user fs).2 !! ["uploads"; "audio"; u; name] =
     files fs !! ["uploads"; "audio"; u; name]) ∧
  (∀ u name,
     files (upload_chunk upload_id n chunk user fs).2
       !! ["uploads"; "audio"; u; name] =
     files fs !! ["uploads"; "audio"; u; name]) ∧
  (∀ u name,
     (∀ d, session_of fs upload_id = Some d →
           ["uploads"; "audio"; u; name] ≠ final_path_of d user) →
     files (complete_chunked_upload upload_id user fs).2
       !! ["uploads"; "audio"; u; name] =
     files fs !! ["uploads"; "audio"; u; name]).
Proof.
  intros Hinv%reachable_inv. split_and!.
  - intros u name. rewrite start_chunked_upload_run by done.
    destruct (bool_decide (mime ∉ ALLOWED_AUDIO_TYPES)); [done|].
    destruct (file_size >? MAX_FILE_SIZE); [done|].
    destruct (chunk_size =? 0); [done|].
    cbn [snd]. unfold fs_after_start. simpl. by rewrite lookup_insert_ne.
  - intros u name. rewrite upload_chunk_run by done.
    destruct (session_of fs upload_id) as [d|]; [|done].
    destruct (bool_decide (sd_user_id d ≠ user)); [done|].
    destruct ((n <? 1) || (n >? sd_total_chunks d)); [done|].
    destruct (bool_decide (n ∈ sd_uploaded_chunks d)); [done|].
    cbn [snd]. unfold fs_after_chunk, chunk_path_of, chunks_dir_of. simpl.
    by rewrite !lookup_insert_ne.
  - intros u name Hne. rewrite complete_chunked_upload_run by done.
    destruct (session_of fs upload_id) as [d|]; [|done].
    specialize (Hne d eq_refl).
    destruct (bool_decide (sd_user_id d ≠ user)); [done|].
    destruct (bool_decide (sd_uploaded_chunks d ≠ seqZ 1 (sd_total_chunks d)));
      [done|].
    destruct (bool_decide (chunks_dir_of upload_id ∈ dirs fs)); cbn [snd].
    + rewrite audio_after_cleanup. unfold fs_after_assembly. simpl.
      by rewrite lookup_insert_ne.
    + unfold fs_after_assembly. simpl. by rewrite lookup_insert_ne.
Qed.

Lemma chunked_requests_keep_audio_files_witness :
  (∀ u name,
     files (start_chunked_upload "U2" "F9" "t1" "talk.wav" 7 "audio/wav" 5
              "alice" ex_fs_audio).2 !! ["uploads"; "audio"; u; name] =
     files ex_fs_audio !! ["uploads"; "audio"; u; name]) ∧
  (∀ u name,
     files (upload_chunk "U2" 1 (ex_chunk [Byte.x45]) "alice" ex_fs_audio).2
       !! ["uploads"; "audio"; u; name] =
     files ex_fs_audio !! ["uploads"; "audio"; u; name]) ∧
  (∀ u name,
     (∀ d, session_of ex_fs_audio "U2" = Some d →
           ["uploads"; "audio"; u; name] ≠ final_path_of d "alice") →
     files (complete_chunked_upload "U2" "alice" ex_fs_audio).2
       !! ["uploads"; "audio"; u; name] =
     files ex_fs_audio !! ["uploads"; "audio"; u; name]).
Proof.
  apply (chunked_requests_keep_audio_files ex_fs_audio "U2" "F9" "t1"
           "talk.wav" 7 "audio/wav" 5 1 (ex_chunk [Byte.x45]) "alice"),
    reachable_ex_fs_audio.
Defined.
